(** * mini-wallet: the transfer engine, embedded and verified

    A shallow embedding of [src/models/User.js], [src/models/Transaction.js],
    [src/services/walletService.js] and [src/controllers/walletController.js].

    JavaScript numbers are kept abstract behind the class [JSNumber], so every
    function of the service is written once, over any carrier:

    - [float]: the kernel's binary64 numbers, the numbers of JavaScript and
      of MongoDB's [$inc].  What the code computes is what the definitions
      compute on this carrier; a theorem stated for every carrier holds of
      it, and concrete scenarios are evaluated on it;
    - [xnum]: an idealisation, the special values (NaN, +Infinity,
      -Infinity) with exact rational arithmetic on the finite numbers.  It
      is what decimal arithmetic without rounding errors would compute, and
      is used only where the outcome does not depend on such errors and to
      compare the code with it.

    A string is a sequence of UTF-16 code units, as in JavaScript; the model
    covers the strings whose code units are all below 256 (Basic Latin and
    Latin-1 Supplement), a character of type [ascii] being one code unit, so
    that [String.length] is JavaScript's [length].

    MongoDB collections are lists of documents in insertion order; a query
    returns the first document that matches.  Timestamps are not modelled:
    the order of creation stands for them. *)

From Stdlib Require Import ZArith QArith Qround Qabs Lia Lqa List Bool.
From Stdlib Require Import Ascii String.
From Stdlib Require Import PrimFloat.
From Stdlib Require Uint63 SpecFloat FloatOps FloatAxioms.
Import ListNotations.

Local Open Scope string_scope.
Local Open Scope list_scope.

(* ================================================================== *)
(** * JavaScript numbers *)

Declare Scope num_scope.
Delimit Scope num_scope with num.

(** The operations the source applies to numbers: [+], [*], [/], unary [-],
    [<], [<=] ([a >= b] is [b <= a]), [Math.round], [Math.abs], [isNaN], and
    the literals [0], [100], [0.01] and [NaN]. *)
Class JSNumber (num : Type) : Type := {
  zero : num;
  hundred : num;
  cent : num;
  NaN : num;
  add : num -> num -> num;
  mul : num -> num -> num;
  div : num -> num -> num;
  neg : num -> num;
  lt : num -> num -> bool;
  le : num -> num -> bool;
  Math_round : num -> num;
  Math_abs : num -> num;
  isNaN : num -> bool
}.

Infix "+" := add : num_scope.
Infix "*" := mul : num_scope.
Infix "/" := div : num_scope.
Notation "- x" := (neg x) : num_scope.
Infix "<?" := lt : num_scope.
Infix "<=?" := le : num_scope.
Notation "x >=? y" := (le y x) (at level 70) : num_scope.

(** ** Exact numbers with the IEEE special values

    An idealised carrier: no operation on finite numbers rounds.  JavaScript
    computes on [float] below. *)

Inductive xnum : Type :=
| XNaN
| XInf (negative : bool)
| XFin (q : Q).

Definition Qneg (q : Q) : bool := (Qnum q <? 0)%Z.
Definition Qnull (q : Q) : bool := (Qnum q =? 0)%Z.
Definition Qltb (p q : Q) : bool :=
  match (p ?= q)%Q with Lt => true | _ => false end.
Definition Qleb (p q : Q) : bool :=
  match (p ?= q)%Q with Gt => false | _ => true end.

Definition xadd (a b : xnum) : xnum :=
  match a, b with
  | XNaN, _ | _, XNaN => XNaN
  | XInf s, XInf t => if Bool.eqb s t then XInf s else XNaN
  | XInf s, XFin _ | XFin _, XInf s => XInf s
  | XFin p, XFin q => XFin (p + q)
  end.

Definition xmul (a b : xnum) : xnum :=
  match a, b with
  | XNaN, _ | _, XNaN => XNaN
  | XInf s, XInf t => XInf (xorb s t)
  | XInf s, XFin q | XFin q, XInf s =>
      if Qnull q then XNaN else XInf (xorb s (Qneg q))
  | XFin p, XFin q => XFin (p * q)
  end.

Definition xdiv (a b : xnum) : xnum :=
  match a, b with
  | XNaN, _ | _, XNaN => XNaN
  | XInf _, XInf _ => XNaN
  | XInf s, XFin q => XInf (xorb s (Qneg q))
  | XFin _, XInf _ => XFin 0
  | XFin p, XFin q =>
      if Qnull q then (if Qnull p then XNaN else XInf (Qneg p))
      else XFin (p / q)
  end.

Definition xneg (a : xnum) : xnum :=
  match a with
  | XNaN => XNaN
  | XInf s => XInf (negb s)
  | XFin q => XFin (- q)
  end.

Definition xabs (a : xnum) : xnum :=
  match a with
  | XNaN => XNaN
  | XInf _ => XInf false
  | XFin q => XFin (Qabs q)
  end.

Definition xlt (a b : xnum) : bool :=
  match a, b with
  | XNaN, _ | _, XNaN => false
  | XInf s, XInf t => s && negb t
  | XInf s, XFin _ => s
  | XFin _, XInf t => negb t
  | XFin p, XFin q => Qltb p q
  end.

Definition xle (a b : xnum) : bool :=
  match a, b with
  | XNaN, _ | _, XNaN => false
  | XInf s, XInf t => s || negb t
  | XInf s, XFin _ => s
  | XFin _, XInf t => negb t
  | XFin p, XFin q => Qleb p q
  end.

(** [Math.round]: the nearest integer, a tie going towards +Infinity. *)
Definition xround (a : xnum) : xnum :=
  match a with
  | XFin q => XFin (inject_Z (Qfloor (q + (1 # 2))))
  | _ => a
  end.

Definition xisNaN (a : xnum) : bool :=
  match a with XNaN => true | _ => false end.

#[export] Instance xnum_JSNumber : JSNumber xnum := {|
  zero := XFin 0;
  hundred := XFin 100;
  cent := XFin (1 # 100);
  NaN := XNaN;
  add := xadd;
  mul := xmul;
  div := xdiv;
  neg := xneg;
  lt := xlt;
  le := xle;
  Math_round := xround;
  Math_abs := xabs;
  isNaN := xisNaN
|}.

(** Equality of numbers as values: [Qeq] on the finite ones. *)
Definition xeq (a b : xnum) : Prop :=
  match a, b with
  | XNaN, XNaN => True
  | XInf s, XInf t => s = t
  | XFin p, XFin q => (p == q)%Q
  | _, _ => False
  end.

(** ** binary64 *)

Definition two52 : float := 4503599627370496%float.

(** [Math.floor] for |x| < 2^52, x not a zero: adding and subtracting 2^52
    rounds to an integer, which is then corrected downwards. *)
Definition float_floor (x : float) : float :=
  let t := if PrimFloat.ltb x 0%float
           then PrimFloat.add (PrimFloat.sub x two52) two52
           else PrimFloat.sub (PrimFloat.add x two52) two52 in
  if PrimFloat.ltb x t then PrimFloat.sub t 1%float else t.

(** [Math.round] on binary64: NaN, the infinities, the zeros and every
    |x| >= 2^52 are returned as they are; otherwise floor(x) or floor(x) + 1,
    the latter when x - floor(x) >= 0.5; a zero result keeps the sign of x. *)
Definition float_round (x : float) : float :=
  if PrimFloat.is_nan x then x
  else if PrimFloat.leb two52 (PrimFloat.abs x) then x
  else if PrimFloat.eqb x 0%float then x
  else
    let f := float_floor x in
    let r := if PrimFloat.leb 0.5%float (PrimFloat.sub x f)
             then PrimFloat.add f 1%float else f in
    if PrimFloat.eqb r 0%float && PrimFloat.ltb x 0%float
    then PrimFloat.opp 0%float else r.

#[export] Instance float_JSNumber : JSNumber float := {|
  zero := 0%float;
  hundred := 100%float;
  cent := PrimFloat.div 1%float 100%float;
  NaN := PrimFloat.nan;
  add := PrimFloat.add;
  mul := PrimFloat.mul;
  div := PrimFloat.div;
  neg := PrimFloat.opp;
  lt := PrimFloat.ltb;
  le := PrimFloat.leb;
  Math_round := float_round;
  Math_abs := PrimFloat.abs;
  isNaN := PrimFloat.is_nan
|}.

(** A decimal with two fractional digits as the binary64 number its literal
    denotes: [dec 10055] is [100.55].  Division is correctly rounded, so the
    quotient of the two integers is the double nearest to the decimal. *)
Definition dec (hundredths : float) : float :=
  PrimFloat.div hundredths 100%float.




(* ================================================================== *)
(** * Strings and identifiers *)

(** [String.prototype.includes]. *)
Fixpoint includes (s sub : string) : bool :=
  String.prefix sub s ||
  match s with
  | EmptyString => false
  | String _ rest => includes rest sub
  end.

(** White space and line terminators, what [\s] matches and [trim] removes:
    below 256 these are U+0009 to U+000D, the space and the no-break space
    U+00A0. *)
Definition is_space (c : ascii) : bool :=
  let n := nat_of_ascii c in
  ((9 <=? n) && (n <=? 13))%nat || (n =? 32)%nat || (n =? 160)%nat.

Fixpoint trimStart (s : string) : string :=
  match s with
  | String c rest => if is_space c then trimStart rest else s
  | EmptyString => EmptyString
  end.

(** The string without its trailing white space. *)
Fixpoint trimEnd (s : string) : string :=
  match s with
  | EmptyString => EmptyString
  | String c rest =>
      match trimEnd rest with
      | EmptyString => if is_space c then EmptyString else String c EmptyString
      | rest' => String c rest'
      end
  end.

Definition trim (s : string) : string := trimEnd (trimStart s).

(** The lower-case mapping of a code unit below 256: A to Z, and the
    capital letters of Latin-1, U+00C0 to U+00DE without the multiplication
    sign U+00D7, are moved up by 32; every other code unit is kept. *)
Definition lower (c : ascii) : ascii :=
  let n := nat_of_ascii c in
  if ((65 <=? n) && (n <=? 90))%nat
     || ((192 <=? n) && (n <=? 222) && negb (n =? 215))%nat
  then ascii_of_nat (n + 32) else c.

(** [String.prototype.toLowerCase]. *)
Fixpoint toLowerCase (s : string) : string :=
  match s with
  | EmptyString => EmptyString
  | String c rest => String (lower c) (toLowerCase rest)
  end.

Fixpoint all_chars (p : ascii -> bool) (s : string) : bool :=
  match s with
  | EmptyString => true
  | String c rest => p c && all_chars p rest
  end.

Fixpoint has_char (c : ascii) (s : string) : bool :=
  match s with
  | EmptyString => false
  | String d rest => Ascii.eqb c d || has_char c rest
  end.

(** Some character equal to [c] that is not the last one. *)
Fixpoint has_inner_char (c : ascii) (s : string) : bool :=
  match s with
  | EmptyString => false
  | String d rest =>
      (Ascii.eqb c d && negb (String.eqb rest "")) || has_inner_char c rest
  end.

(** What follows the first occurrence of [c]. *)
Fixpoint after_char (c : ascii) (s : string) : option string :=
  match s with
  | EmptyString => None
  | String d rest => if Ascii.eqb c d then Some rest else after_char c rest
  end.

(** The pattern [/^\S+@\S+\.\S+$/]: no white space, an at-sign after at least
    one character, and later, after at least one more character, a dot that
    is not the last character. *)
Definition email_pattern (s : string) : bool :=
  all_chars (fun c => negb (is_space c)) s &&
  match s with
  | EmptyString => false
  | String _ rest =>
      match after_char "@" rest with
      | Some (String _ tail) => has_inner_char "." tail
      | _ => false
      end
  end.

(** An ObjectId is the number its 12 bytes spell; as a string it is 24
    hexadecimal digits, in either case. *)
Definition ObjectId : Type := N.

Definition hex_digit (c : ascii) : option N :=
  let n := N_of_ascii c in
  if ((48 <=? n) && (n <=? 57))%N then Some (n - 48)%N
  else if ((97 <=? n) && (n <=? 102))%N then Some (n - 87)%N
  else if ((65 <=? n) && (n <=? 70))%N then Some (n - 55)%N
  else None.

Fixpoint hex_value (acc : N) (s : string) : option N :=
  match s with
  | EmptyString => Some acc
  | String c rest =>
      match hex_digit c with
      | Some d => hex_value (16 * acc + d)%N rest
      | None => None
      end
  end.

(** [new ObjectId(string)]: the identifier a string denotes, if any. *)
Definition castObjectId (s : string) : option ObjectId :=
  if (String.length s =? 24)%nat then hex_value 0%N s else None.

(** [mongoose.Types.ObjectId.isValid]. *)
Definition isValid (s : string) : bool :=
  match castObjectId s with Some _ => true | None => false end.

(* ================================================================== *)
(** * Errors and asynchronous computations *)

Record Error : Type := mkError { name : string; message : string }.

(** [new Error(message)]. *)
Definition new_Error (msg : string) : Error := mkError "Error" msg.

Definition Error_eqb (a b : Error) : bool :=
  String.eqb (name a) (name b) && String.eqb (message a) (message b).

Inductive completion (A : Type) : Type :=
| Return (a : A)
| Throw (e : Error).
Arguments Return {A} a.
Arguments Throw {A} e.

(** An asynchronous function reads and writes a state and either returns or
    throws; the state it leaves is kept in both cases. *)
Definition Async (S A : Type) : Type := S -> completion A * S.

Definition ret {S A} (a : A) : Async S A := fun s => (Return a, s).
Definition throw {S A} (e : Error) : Async S A := fun s => (Throw e, s).
Definition bind {S A B} (m : Async S A) (k : A -> Async S B) : Async S B :=
  fun s =>
    match m s with
    | (Return a, s') => k a s'
    | (Throw e, s') => (Throw e, s')
    end.
Definition get {S} : Async S S := fun s => (Return s, s).
Definition put {S} (s : S) : Async S unit := fun _ => (Return tt, s).

(** [try { body } catch (error) { handler }]. *)
Definition try_catch {S A} (body : Async S A) (handler : Error -> Async S A)
  : Async S A :=
  fun s =>
    match body s with
    | (Return a, s') => (Return a, s')
    | (Throw e, s') => handler e s'
    end.

Notation "x <- m ;; k" := (bind m (fun x => k))
  (at level 61, m at next level, right associativity).
Notation "m ;; k" := (bind m (fun _ => k))
  (at level 61, right associativity).

(* ================================================================== *)
(** * The models: [src/models/User.js], [src/models/Transaction.js] *)

Inductive Status : Type := SUCCESS | FAILED.

(** A stored user document; [balance] is the raw stored number. *)
Record User (num : Type) : Type := mkUser {
  _id : ObjectId;
  name_ : string;
  email : string;
  balance : num
}.
Arguments mkUser {num}.
Arguments _id {num}.
Arguments name_ {num}.
Arguments email {num}.
Arguments balance {num}.

(** A transaction document; an identifier that could not be cast is [None]. *)
Record Transaction (num : Type) : Type := mkTransaction {
  transactionId : ObjectId;
  fromUserId : option ObjectId;
  toUserId : option ObjectId;
  amount : num;
  status : Status;
  description : string
}.
Arguments mkTransaction {num}.
Arguments transactionId {num}.
Arguments fromUserId {num}.
Arguments toUserId {num}.
Arguments amount {num}.
Arguments status {num}.
Arguments description {num}.

(** The two collections, and the next identifier the driver will generate. *)
Record State (num : Type) : Type := mkState {
  Users : list (User num);
  Transactions : list (Transaction num);
  next_ObjectId : N
}.
Arguments mkState {num}.
Arguments Users {num}.
Arguments Transactions {num}.
Arguments next_ObjectId {num}.

Definition new_ObjectId {num} : Async (State num) ObjectId :=
  fun s =>
    (Return (next_ObjectId s),
     mkState (Users s) (Transactions s) (N.succ (next_ObjectId s))).

Definition join_failures (fs : list (string * string)) : string :=
  String.concat ", " (map (fun f => (fst f ++ ": " ++ snd f)%string) fs).

(** Mongoose's ValidationError for the failed paths of a document. *)
Definition ValidationError (model : string) (fs : list (string * string))
  : Error :=
  mkError "ValidationError"
    (model ++ " validation failed: " ++ join_failures fs)%string.

(** The double quote, as a string. *)
Definition quote : string := String (ascii_of_nat 34) EmptyString.

Definition quoted (s : string) : string := (quote ++ s ++ quote)%string.

(** Mongoose's CastError for a value that is not of the path's type; this is
    the library's error, worded as Mongoose words it: the kind of the path,
    the value as [util.inspect] prints it between double quotes, the
    [typeof] the value and the path.  The two values that occur are a string
    that is no ObjectId and the number NaN. *)
Definition CastError (kind value type path : string) : Error :=
  mkError "CastError"
    ("Cast to " ++ kind ++ " failed for value " ++ quoted value ++
     " (type " ++ type ++ ") at path " ++ quoted path)%string.

(** A CastError raised while a query filter of a model is cast names the
    model as well. *)
Definition for_model (model : string) (e : Error) : Error :=
  mkError (name e) (message e ++ " for model " ++ quoted model)%string.

Section Models.
Context {num : Type} {JSN : JSNumber num}.
Local Open Scope num_scope.

(** [Math.round(v * 100) / 100]: the getter and the setter of
    [userSchema.balance] and of [transactionSchema.amount]. *)
Definition round2 (v : num) : num := Math_round (v * hundred) / hundred.

(** [user.balance]: a read goes through the getter. *)
Definition get_balance (u : User num) : num := round2 (balance u).

(** [transaction.amount], read through the getter. *)
Definition get_amount (t : Transaction num) : num := round2 (amount t).

(** [new User({ name, email, balance })]: the setters [trim], [lowercase]
    and the balance setter run on assignment. *)
Definition new_User (name email : string) (bal : num)
  : Async (State num) (User num) :=
  oid <- new_ObjectId ;;
  ret (mkUser oid (trim name) (toLowerCase (trim email)) (round2 bal)).

(** The first validator of a path that fails, in the schema's order. *)
Definition first_failure (path : string) (checks : list (bool * string))
  : list (string * string) :=
  match find (fun c => negb (fst c)) checks with
  | Some c => [(path, snd c)]
  | None => []
  end.

(** The validators of [userSchema], path by path.  [minlength] and
    [maxlength] compare the [length] of the string, its number of UTF-16
    code units.  A balance that is NaN could not be cast to Number, which
    validation reports with the message of the CastError. *)
Definition validate_User (u : User num) : list (string * string) :=
  first_failure "name"
    [ (negb (String.eqb (name_ u) ""), "User name is required");
      ((2 <=? String.length (name_ u))%nat,
       "Name must be at least 2 characters long");
      ((String.length (name_ u) <=? 100)%nat,
       "Name cannot exceed 100 characters") ] ++
  first_failure "email"
    [ (negb (String.eqb (email u) ""), "Email is required");
      (email_pattern (email u), "Please provide a valid email address") ] ++
  first_failure "balance"
    [ (negb (isNaN (balance u)),
       message (CastError "Number" "NaN" "number" "balance"));
      (balance u >=? zero, "Balance cannot be negative") ].

(** The error of the MongoDB server for an insert that a unique index
    refuses.  The text is the server's, with the name of the database, which
    the connection string decides, left out of the namespace. *)
Definition DuplicateKeyError (address : string) : Error :=
  mkError "MongoServerError"
    ("E11000 duplicate key error collection: users index: email_1 dup key: { email: "
     ++ quoted address ++ " }")%string.

(** [user.save()] of a new document: validation, then the insert.  The
    refusal of an address already stored is not code of the repository: the
    schema declares [unique: true] (User.js, line 16), for which Mongoose
    builds a unique index, and this is how the server answers an insert
    that the index refuses. *)
Definition User_save (u : User num) : Async (State num) unit :=
  fun s =>
    match validate_User u with
    | (_ :: _) as fs => (Throw (ValidationError "User" fs), s)
    | [] =>
        if existsb (fun v => String.eqb (email v) (email u)) (Users s)
        then (Throw (DuplicateKeyError (email u)), s)
        else (Return tt,
              mkState (Users s ++ [u]) (Transactions s) (next_ObjectId s))
    end.

(** [User.findOne({ email })]: the filter is cast with the path's setters,
    so the address is trimmed and lower-cased before it is compared. *)
Definition User_findOne_email (e : string)
  : Async (State num) (option (User num)) :=
  fun s =>
    (Return (find (fun u => String.eqb (email u) (toLowerCase (trim e)))
               (Users s)), s).

(** [User.findById(id)]. *)
Definition User_findById (id : string)
  : Async (State num) (option (User num)) :=
  fun s =>
    match castObjectId id with
    | None =>
        (Throw (for_model "User" (CastError "ObjectId" id "string" "_id")), s)
    | Some oid => (Return (find (fun u => N.eqb (_id u) oid) (Users s)), s)
    end.

(** [User.find()]. *)
Definition User_find : Async (State num) (list (User num)) :=
  fun s => (Return (Users s), s).

(** [findOneAndUpdate(query, update, { new: true })] on a collection: the
    first document that matches is replaced; the updated document and the
    new collection are returned, or [None] when nothing matches. *)
Fixpoint findOneAndUpdate (query : User num -> bool)
    (update : User num -> User num) (docs : list (User num))
  : option (User num * list (User num)) :=
  match docs with
  | [] => None
  | u :: rest =>
      if query u then Some (update u, update u :: rest)
      else
        match findOneAndUpdate query update rest with
        | Some (u', rest') => Some (u', u :: rest')
        | None => None
        end
  end.

(** [{ $inc: { balance: delta } }]. *)
Definition inc_balance (delta : num) (u : User num) : User num :=
  mkUser (_id u) (name_ u) (email u) (balance u + delta).

(** [userSchema.statics.updateBalance] (User.js, lines 40-67).  The filter
    is [{ _id: userId }], with [balance: { $gte: |roundedDelta| }] added for
    a negative delta.  Mongoose casts the filter and the update first: an
    identifier that is no ObjectId and an increment that is NaN are
    CastErrors.  Update validators do not run on [$inc].  The [session]
    argument only scopes the write; see [_transferWithTransaction]. *)
Definition updateBalance (userId : string) (delta : num)
  : Async (State num) (User num) :=
  let roundedDelta := Math_round (delta * hundred) / hundred in
  fun s =>
    match castObjectId userId with
    | None =>
        (Throw (for_model "User" (CastError "ObjectId" userId "string" "_id")),
         s)
    | Some oid =>
        if isNaN roundedDelta
        then (Throw (CastError "Number" "NaN" "number" "balance"), s)
        else
          let query (u : User num) :=
            N.eqb (_id u) oid &&
            (if roundedDelta <? zero
             then balance u >=? Math_abs roundedDelta
             else true) in
          match findOneAndUpdate query (inc_balance roundedDelta) (Users s) with
          | Some (updatedUser, users') =>
              (Return updatedUser,
               mkState users' (Transactions s) (next_ObjectId s))
          | None => (Throw (new_Error "Insufficient balance"), s)
          end
    end.

(** [new Transaction({ fromUserId, toUserId, amount, status, description })]:
    the identifiers are cast, the amount goes through its setter, the
    description is trimmed. *)
Definition new_Transaction (from to : string) (amt : num) (st : Status)
    (desc : string) : Async (State num) (Transaction num) :=
  oid <- new_ObjectId ;;
  ret (mkTransaction oid (castObjectId from) (castObjectId to)
         (round2 amt) st (trim desc)).

Definition is_some {A} (o : option A) : bool :=
  match o with Some _ => true | None => false end.

(** The validators of [transactionSchema]; [maxlength] compares the
    [length] of the description, its number of UTF-16 code units. *)
Definition validate_Transaction (t : Transaction num)
  : list (string * string) :=
  first_failure "fromUserId"
    [ (is_some (fromUserId t), "Sender user ID is required") ] ++
  first_failure "toUserId"
    [ (is_some (toUserId t), "Recipient user ID is required") ] ++
  first_failure "amount"
    [ (negb (isNaN (amount t)),
       message (CastError "Number" "NaN" "number" "amount"));
      (amount t >=? cent, "Amount must be greater than 0") ] ++
  first_failure "description"
    [ ((String.length (description t) <=? 500)%nat,
       "Description cannot exceed 500 characters") ].

(** [transaction.save()]. *)
Definition Transaction_save (t : Transaction num) : Async (State num) unit :=
  fun s =>
    match validate_Transaction t with
    | (_ :: _) as fs => (Throw (ValidationError "Transaction" fs), s)
    | [] =>
        (Return tt,
         mkState (Users s) (Transactions s ++ [t]) (next_ObjectId s))
    end.

(** The filter [{ $or: [{ fromUserId: id }, { toUserId: id }] }]. *)
Definition sent_or_received (oid : ObjectId) (t : Transaction num) : bool :=
  match fromUserId t with Some o => N.eqb o oid | None => false end ||
  match toUserId t with Some o => N.eqb o oid | None => false end.

(** [.limit(n)] for a limit that is not negative: a limit of zero is no
    limit.  Negative limits, which the driver sends as queries of a single
    batch, are left out. *)
Definition Query_limit {A : Type} (n : N) (docs : list A) : list A :=
  if (n =? 0)%N then docs else firstn (N.to_nat n) docs.

(** [.populate(path, 'name email')]: the user a reference names, or null. *)
Definition populate (ref : option ObjectId) (users : list (User num))
  : option (User num) :=
  match ref with
  | Some o => find (fun u => N.eqb (_id u) o) users
  | None => None
  end.

(** [Transaction.find({ $or: ... }).sort({ createdAt: -1 }).limit(limit)
    .populate('fromUserId', ...).populate('toUserId', ...)].  [save] appends,
    so a collection is in the order of creation; creation times are taken
    to differ, so that sorting by [createdAt], newest first, is that order
    reversed. *)
Definition Transaction_find_populated (userId : string) (limit : N)
  : Async (State num)
      (list (Transaction num * option (User num) * option (User num))) :=
  fun s =>
    match castObjectId userId with
    | None =>
        (Throw (for_model "Transaction"
                  (CastError "ObjectId" userId "string" "fromUserId")), s)
    | Some oid =>
        (Return
           (map (fun t => (t, populate (fromUserId t) (Users s),
                              populate (toUserId t) (Users s)))
              (Query_limit limit
                 (rev (filter (sent_or_received oid) (Transactions s))))),
         s)
    end.

End Models.

(* ================================================================== *)
(** * The service: [src/services/walletService.js] *)

(** What the service reads from its environment: the initial balance of
    [parseFloat(process.env.INITIAL_BALANCE || 100)], and whether the
    topology of the connection is other than 'Single'. *)
Record Env (num : Type) : Type := mkEnv {
  INITIAL_BALANCE : num;
  supportsTransactions : bool
}.
Arguments mkEnv {num}.
Arguments INITIAL_BALANCE {num}.
Arguments supportsTransactions {num}.

Record Account (num : Type) : Type := mkAccount {
  account_id : ObjectId;
  account_name : string;
  account_email : string;
  account_balance : num
}.
Arguments mkAccount {num}.
Arguments account_id {num}.
Arguments account_name {num}.
Arguments account_email {num}.
Arguments account_balance {num}.

Record Party (num : Type) : Type := mkParty {
  party_id : ObjectId;
  party_name : string;
  party_balance : num
}.
Arguments mkParty {num}.
Arguments party_id {num}.
Arguments party_name {num}.
Arguments party_balance {num}.

Record TransferResult (num : Type) : Type := mkTransferResult {
  result_transactionId : ObjectId;
  result_from : Party num;
  result_to : Party num;
  result_amount : num
}.
Arguments mkTransferResult {num}.
Arguments result_transactionId {num}.
Arguments result_from {num}.
Arguments result_to {num}.
Arguments result_amount {num}.

Record HistoryParty : Type := mkHistoryParty {
  history_party_id : ObjectId;
  history_party_name : string;
  history_party_email : string
}.

(** An entry of the transaction history; the time stamp is left out, as in
    [TransferResult]. *)
Record HistoryEntry (num : Type) : Type := mkHistoryEntry {
  entry_id : ObjectId;
  entry_from : HistoryParty;
  entry_to : HistoryParty;
  entry_amount : num;
  entry_status : Status;
  entry_description : string
}.
Arguments mkHistoryEntry {num}.
Arguments entry_id {num}.
Arguments entry_from {num}.
Arguments entry_to {num}.
Arguments entry_amount {num}.
Arguments entry_status {num}.
Arguments entry_description {num}.

Module walletService.
Section Service.
Context {num : Type} {JSN : JSNumber num}.
Variable env : Env num.
Local Open Scope num_scope.

Definition account_of (u : User num) : Account num :=
  mkAccount (_id u) (name_ u) (email u) (get_balance u).

Definition party_of (u : User num) : Party num :=
  mkParty (_id u) (name_ u) (get_balance u).

(** [createAccount] (lines 13-41). *)
Definition createAccount (name email : string) (initialBalance : option num)
  : Async (State num) (Account num) :=
  existingUser <- User_findOne_email email ;;
  match existingUser with
  | Some _ => throw (new_Error "User with this email already exists")
  | None =>
      let balance :=
        match initialBalance with
        | Some b => b
        | None => INITIAL_BALANCE env
        end in
      user <- new_User name email balance ;;
      User_save user ;;
      ret (account_of user)
  end.

(** [getBalance] (lines 46-67). *)
Definition getBalance (userId : string) : Async (State num) (Account num) :=
  if negb (isValid userId) then throw (new_Error "Invalid user ID format")
  else
    user <- User_findById userId ;;
    match user with
    | None => throw (new_Error "User not found")
    | Some u => ret (account_of u)
    end.

(** [getAllUsers] (lines 284-297). *)
Definition getAllUsers : Async (State num) (list (Account num)) :=
  users <- User_find ;;
  ret (map account_of users).

(** The statements the two transfer paths share (lines 118-148 and 186-216,
    which differ only in the session they pass): both users are looked up,
    the balance is checked, the sender is debited, the recipient credited
    and the transaction saved. *)
Definition debit_credit_record (fromUserId toUserId : string)
    (transferAmount : num) (description : string)
  : Async (State num) (Transaction num) :=
  fromUser <- User_findById fromUserId ;;
  toUser <- User_findById toUserId ;;
  match fromUser, toUser with
  | None, _ => throw (new_Error "Sender user not found")
  | Some _, None => throw (new_Error "Recipient user not found")
  | Some fromUser, Some _ =>
      if get_balance fromUser <? transferAmount
      then throw (new_Error "Insufficient balance")
      else
        updateBalance fromUserId (- transferAmount) ;;
        updateBalance toUserId transferAmount ;;
        transaction <- new_Transaction fromUserId toUserId transferAmount
                         SUCCESS description ;;
        Transaction_save transaction ;;
        ret transaction
  end.

(** The statements after the save (lines 153-171 and 218-236): both users
    are read again and the result is built; reading a field of [null] is a
    TypeError. *)
Definition read_back (fromUserId toUserId : string) (transferAmount : num)
    (transaction : Transaction num)
  : Async (State num) (TransferResult num) :=
  updatedFromUser <- User_findById fromUserId ;;
  updatedToUser <- User_findById toUserId ;;
  match updatedFromUser, updatedToUser with
  | Some f, Some t =>
      ret (mkTransferResult (transactionId transaction)
             (party_of f) (party_of t) transferAmount)
  | _, _ =>
      throw (mkError "TypeError" "Cannot read properties of null (reading '_id')")
  end.

(** [session.abortTransaction()] before the commit: the two collections are
    as they were when the transaction started. *)
Definition abortTransaction (started current : State num) : State num :=
  mkState (Users started) (Transactions started) (next_ObjectId current).

(** [_transferWithTransaction] (lines 112-178).  An error before the commit
    aborts the transaction and is thrown again; after the commit
    [abortTransaction] itself throws. *)
Definition _transferWithTransaction (fromUserId toUserId : string)
    (transferAmount : num) (description : string)
  : Async (State num) (TransferResult num) :=
  fun started =>
    match debit_credit_record fromUserId toUserId transferAmount description
            started with
    | (Throw error, current) =>
        (Throw error, abortTransaction started current)
    | (Return transaction, committed) =>
        try_catch (read_back fromUserId toUserId transferAmount transaction)
          (fun _ =>
             throw (mkError "MongoTransactionError"
                      "Cannot call abortTransaction after calling commitTransaction"))
          committed
    end.

(** [_transferWithAtomicOps] (lines 184-240). *)
Definition _transferWithAtomicOps (fromUserId toUserId : string)
    (transferAmount : num) (description : string)
  : Async (State num) (TransferResult num) :=
  transaction <- debit_credit_record fromUserId toUserId transferAmount
                   description ;;
  read_back fromUserId toUserId transferAmount transaction.

(** [transferMoney] (lines 73-106). *)
Definition transferMoney (fromUserId toUserId : string) (amount : num)
    (description : string) : Async (State num) (TransferResult num) :=
  if negb (isValid fromUserId)
  then throw (new_Error "Invalid sender user ID format")
  else if negb (isValid toUserId)
  then throw (new_Error "Invalid recipient user ID format")
  else if String.eqb fromUserId toUserId
  then throw (new_Error "Cannot transfer money to yourself")
  else if amount <=? zero
  then throw (new_Error "Transfer amount must be greater than 0")
  else
    let transferAmount := Math_round (amount * hundred) / hundred in
    if supportsTransactions env
    then _transferWithTransaction fromUserId toUserId transferAmount description
    else _transferWithAtomicOps fromUserId toUserId transferAmount description.

Definition history_party_of (u : User num) : HistoryParty :=
  mkHistoryParty (_id u) (name_ u) (email u).

(** The callback of [transactions.map] (lines 259-275): reading [_id] of a
    reference that [populate] left null is a TypeError. *)
Definition history_entry_of
    (t : Transaction num * option (User num) * option (User num))
  : completion (HistoryEntry num) :=
  match t with
  | (t, Some f, Some r) =>
      Return (mkHistoryEntry (transactionId t) (history_party_of f)
                (history_party_of r) (get_amount t) (status t) (description t))
  | _ =>
      Throw (mkError "TypeError" "Cannot read properties of null (reading '_id')")
  end.

(** [Array.prototype.map] with a callback that may throw. *)
Fixpoint Array_map {A B : Type} (f : A -> completion B) (l : list A)
  : completion (list B) :=
  match l with
  | [] => Return []
  | a :: rest =>
      match f a with
      | Throw e => Throw e
      | Return b =>
          match Array_map f rest with
          | Throw e => Throw e
          | Return bs => Return (b :: bs)
          end
      end
  end.

(** [getTransactionHistory] (lines 245-279); [limit] is [None] when the
    argument is not given. *)
Definition getTransactionHistory (userId : string) (limit : option N)
  : Async (State num) (list (HistoryEntry num)) :=
  let limit := match limit with Some n => n | None => 10%N end in
  if negb (isValid userId) then throw (new_Error "Invalid user ID format")
  else
    transactions <- Transaction_find_populated userId limit ;;
    fun s => (Array_map history_entry_of transactions, s).

End Service.
End walletService.

(* ================================================================== *)
(** * The controller: [src/controllers/walletController.js] *)

(** The body of [POST /api/transfer], for the requests whose
    [from_user_id], [to_user_id] and [description] are JSON strings or are
    absent: a field that is absent is [None].  The amount, when present, is
    given by the number [parseFloat] reads from it: NaN for anything that
    does not start with a number.  A body that carries another JSON value
    (a number, a boolean, an array or an object) in a string field is
    outside the model: what becomes of it is decided by the libraries that
    cast it, not by code of the repository. *)
Record TransferBody (num : Type) : Type := mkTransferBody {
  from_user_id : option string;
  to_user_id : option string;
  body_amount : option num;
  body_description : option string
}.
Arguments mkTransferBody {num}.
Arguments from_user_id {num}.
Arguments to_user_id {num}.
Arguments body_amount {num}.
Arguments body_description {num}.

Record Response (num : Type) : Type := mkResponse {
  response_status : nat;
  response_success : bool;
  response_message : string;
  response_error : option string;
  response_data : option (TransferResult num)
}.
Arguments mkResponse {num}.
Arguments response_status {num}.
Arguments response_success {num}.
Arguments response_message {num}.
Arguments response_error {num}.
Arguments response_data {num}.

(** The body of [POST /api/accounts], for the requests whose [name] and
    [email] are JSON strings or are absent.  [body_initialBalance] is [None]
    when the field is absent or null, and otherwise the number the balance
    setter reads from it.  As for [TransferBody], other JSON values in a
    string field are outside the model. *)
Record AccountBody (num : Type) : Type := mkAccountBody {
  body_name : option string;
  body_email : option string;
  body_initialBalance : option num
}.
Arguments mkAccountBody {num}.
Arguments body_name {num}.
Arguments body_email {num}.
Arguments body_initialBalance {num}.

(** What [res.status(code).json({ success, message, error, data })] sends;
    a field that is not sent is [None]. *)
Record Reply (D : Type) : Type := mkReply {
  reply_status : nat;
  reply_success : bool;
  reply_message : option string;
  reply_error : option string;
  reply_data : option D
}.
Arguments mkReply {D}.
Arguments reply_status {D}.
Arguments reply_success {D}.
Arguments reply_message {D}.
Arguments reply_error {D}.
Arguments reply_data {D}.

Module walletController.
Section Controller.
Context {num : Type} {JSN : JSNumber num}.
Variable env : Env num.
Local Open Scope num_scope.

(** [!field] for a string field: absent or empty. *)
Definition falsy (field : option string) : bool :=
  match field with
  | None => true
  | Some s => String.eqb s ""
  end.

Definition failure (code : nat) (msg : string) (err : option string)
  : Response num :=
  mkResponse code false msg err None.

(** [exports.transferMoney] (lines 77-139). *)
Definition transferMoney (body : TransferBody num)
  : State num -> Response num * State num :=
  fun s =>
    match from_user_id body, to_user_id body, body_amount body with
    | Some from, Some to, Some transferAmount =>
        if falsy (from_user_id body) || falsy (to_user_id body)
        then (failure 400 "from_user_id, to_user_id, and amount are required" None, s)
        else if isNaN transferAmount || (transferAmount <=? zero)
        then (failure 400 "Amount must be a positive number" None, s)
        else
          let description :=
            match body_description body with Some d => d | None => "" end in
          match walletService.transferMoney env from to transferAmount
                  description s with
          | (Return result, s') =>
              (mkResponse 200 true "Transfer completed successfully" None
                 (Some result), s')
          | (Throw error, s') =>
              if includes (message error) "Insufficient balance"
              then (failure 400 (message error) None, s')
              else if includes (message error) "not found"
                      || includes (message error) "Invalid"
              then (failure 404 (message error) None, s')
              else if includes (message error) "Cannot transfer money to yourself"
              then (failure 400 (message error) None, s')
              else (failure 500 "Transfer failed" (Some (message error)), s')
          end
    | _, _, _ =>
        (failure 400 "from_user_id, to_user_id, and amount are required" None, s)
    end.

(** [exports.createAccount] (lines 8-41). *)
Definition createAccount (body : AccountBody num)
  : State num -> Reply (Account num) * State num :=
  fun s =>
    match body_name body, body_email body with
    | Some name, Some email =>
        if falsy (body_name body) || falsy (body_email body)
        then (mkReply 400 false (Some "Name and email are required") None None, s)
        else
          match walletService.createAccount env name email
                  (body_initialBalance body) s with
          | (Return account, s') =>
              (mkReply 201 true (Some "Account created successfully") None
                 (Some account), s')
          | (Throw error, s') =>
              if includes (message error) "already exists"
              then (mkReply 409 false (Some (message error)) None None, s')
              else (mkReply 500 false (Some "Failed to create account")
                      (Some (message error)) None, s')
          end
    | _, _ =>
        (mkReply 400 false (Some "Name and email are required") None None, s)
    end.

(** [exports.getBalance] (lines 47-71). *)
Definition getBalance (userId : string)
  : State num -> Reply (Account num) * State num :=
  fun s =>
    match walletService.getBalance userId s with
    | (Return balance, s') => (mkReply 200 true None None (Some balance), s')
    | (Throw error, s') =>
        if includes (message error) "not found"
           || includes (message error) "Invalid"
        then (mkReply 404 false (Some (message error)) None None, s')
        else (mkReply 500 false (Some "Failed to retrieve balance")
                (Some (message error)) None, s')
    end.

(** [exports.getTransactionHistory] (lines 145-170).  [query_limit] is the
    number [parseInt(req.query.limit)] reads when it is not negative, and
    [None] when it reads NaN; [|| 10] replaces NaN and zero. *)
Definition getTransactionHistory (userId : string) (query_limit : option N)
  : State num -> Reply (list (HistoryEntry num)) * State num :=
  fun s =>
    let limit :=
      match query_limit with
      | Some n => if (n =? 0)%N then 10%N else n
      | None => 10%N
      end in
    match walletService.getTransactionHistory userId (Some limit) s with
    | (Return transactions, s') =>
        (mkReply 200 true None None (Some transactions), s')
    | (Throw error, s') =>
        if includes (message error) "Invalid"
        then (mkReply 404 false (Some (message error)) None None, s')
        else (mkReply 500 false (Some "Failed to retrieve transaction history")
                (Some (message error)) None, s')
    end.

(** [exports.getAllUsers] (lines 176-191). *)
Definition getAllUsers : State num -> Reply (list (Account num)) * State num :=
  fun s =>
    match walletService.getAllUsers s with
    | (Return users, s') => (mkReply 200 true None None (Some users), s')
    | (Throw error, s') =>
        (mkReply 500 false (Some "Failed to retrieve users")
           (Some (message error)) None, s')
    end.

End Controller.
End walletController.

(* ================================================================== *)
(** * Reading a state *)

Section Reading.
Context {num : Type}.

(** The stored document with a given identifier. *)
Definition lookup (oid : ObjectId) (s : State num) : option (User num) :=
  find (fun u => N.eqb (_id u) oid) (Users s).

(** The raw stored balance of an account. *)
Definition stored_balance (oid : ObjectId) (s : State num) : option num :=
  option_map balance (lookup oid s).

(** [_id] is MongoDB's primary key: no two documents share one. *)
Definition unique_ids (s : State num) : Prop :=
  NoDup (map _id (Users s)).

(** The documents of a state apart from their balances. *)
Definition identities (s : State num) : list (ObjectId * string * string) :=
  map (fun u => (_id u, name_ u, email u)) (Users s).
End Reading.

(* ================================================================== *)
(** * Concurrent transfers on the atomic-operations path

    A call of [transferMoney] that takes the [_transferWithAtomicOps] path
    runs as a sequence of database operations, one per [await]; each of them
    is atomic on the server, and operations of different calls interleave in
    any order.  A thread is a call together with the point it has reached. *)

Inductive Stage (num : Type) : Type :=
| Called
| SenderRead (fromUser : option (User num))
| Checked
| Debited
| Credited
| Recorded (transaction : Transaction num)
| ReadBack (transaction : Transaction num) (updatedFromUser : option (User num))
| Finished (outcome : completion (TransferResult num)).
Arguments Called {num}.
Arguments SenderRead {num}.
Arguments Checked {num}.
Arguments Debited {num}.
Arguments Credited {num}.
Arguments Recorded {num}.
Arguments ReadBack {num}.
Arguments Finished {num}.

Record Thread (num : Type) : Type := mkThread {
  arg_from : string;
  arg_to : string;
  arg_amount : num;
  arg_description : string;
  stage : Stage num
}.
Arguments mkThread {num}.
Arguments arg_from {num}.
Arguments arg_to {num}.
Arguments arg_amount {num}.
Arguments arg_description {num}.
Arguments stage {num}.

Section Concurrent.
Context {num : Type} {JSN : JSNumber num}.
Local Open Scope num_scope.

Definition call (from to : string) (amount : num) (description : string)
  : Thread num :=
  mkThread from to amount description Called.

Definition at_stage (t : Thread num) (st : Stage num) : Thread num :=
  mkThread (arg_from t) (arg_to t) (arg_amount t) (arg_description t) st.

(** The outcome of an operation, as the next stage of a thread. *)
Definition advance {A : Type} (t : Thread num)
    (r : completion A * State num) (k : A -> Stage num)
  : Thread num * State num :=
  match r with
  | (Return a, s') => (at_stage t (k a), s')
  | (Throw e, s') => (at_stage t (Finished (Throw e)), s')
  end.

(** One database operation of a thread, with the synchronous code around
    it: the statements of [transferMoney] and [_transferWithAtomicOps] in
    their order. *)
Definition step (t : Thread num) (s : State num) : Thread num * State num :=
  let transferAmount := round2 (arg_amount t) in
  let continue (A : Type) (r : completion A * State num)
               (k : A -> Stage num) :=
    match r with
    | (Return a, s') => (at_stage t (k a), s')
    | (Throw e, s') => (at_stage t (Finished (Throw e)), s')
    end in
  let fail (msg : string) := (at_stage t (Finished (Throw (new_Error msg))), s) in
  match stage t with
  | Called =>
      if negb (isValid (arg_from t)) then fail "Invalid sender user ID format"
      else if negb (isValid (arg_to t))
      then fail "Invalid recipient user ID format"
      else if String.eqb (arg_from t) (arg_to t)
      then fail "Cannot transfer money to yourself"
      else if arg_amount t <=? zero
      then fail "Transfer amount must be greater than 0"
      else continue _ (User_findById (arg_from t) s) SenderRead
  | SenderRead fromUser =>
      continue _ (User_findById (arg_to t) s)
        (fun toUser =>
           match fromUser, toUser with
           | None, _ => Finished (Throw (new_Error "Sender user not found"))
           | Some _, None =>
               Finished (Throw (new_Error "Recipient user not found"))
           | Some f, Some _ =>
               if get_balance f <? transferAmount
               then Finished (Throw (new_Error "Insufficient balance"))
               else Checked
           end)
  | Checked =>
      continue _ (updateBalance (arg_from t) (- transferAmount) s)
        (fun _ => Debited)
  | Debited =>
      continue _ (updateBalance (arg_to t) transferAmount s)
        (fun _ => Credited)
  | Credited =>
      continue _
        ((transaction <- new_Transaction (arg_from t) (arg_to t)
                           transferAmount SUCCESS (arg_description t) ;;
          Transaction_save transaction ;;
          ret transaction) s)
        Recorded
  | Recorded transaction =>
      continue _ (User_findById (arg_from t) s) (ReadBack transaction)
  | ReadBack transaction updatedFromUser =>
      continue _ (User_findById (arg_to t) s)
        (fun updatedToUser =>
           match updatedFromUser, updatedToUser with
           | Some f, Some u =>
               Finished (Return (mkTransferResult (transactionId transaction)
                                   (walletService.party_of f)
                                   (walletService.party_of u) transferAmount))
           | _, _ =>
               Finished (Throw (mkError "TypeError"
                  "Cannot read properties of null (reading '_id')"))
           end)
  | Finished _ => (t, s)
  end.

(** Replace the [i]-th thread. *)
Fixpoint set_nth (i : nat) (t : Thread num) (ts : list (Thread num))
  : list (Thread num) :=
  match ts, i with
  | [], _ => []
  | _ :: rest, O => t :: rest
  | u :: rest, S j => u :: set_nth j t rest
  end.

(** The thread the scheduler picks performs its next operation. *)
Definition schedule1 (i : nat) (cfg : list (Thread num) * State num)
  : list (Thread num) * State num :=
  match nth_error (fst cfg) i with
  | Some t => let (t', s') := step t (snd cfg) in (set_nth i t' (fst cfg), s')
  | None => cfg
  end.

(** An interleaving is the list of the scheduler's picks. *)
Definition interleave (picks : list nat) (cfg : list (Thread num) * State num)
  : list (Thread num) * State num :=
  fold_left (fun c i => schedule1 i c) picks cfg.

Definition succeeded (t : Thread num) : bool :=
  match stage t with Finished (Return _) => true | _ => false end.

Definition finished (t : Thread num) : bool :=
  match stage t with Finished _ => true | _ => false end.

Definition failed_with (msg : string) (t : Thread num) : bool :=
  match stage t with
  | Finished (Throw e) => Error_eqb e (new_Error msg)
  | _ => false
  end.

(** The number of threads that returned a result. *)
Definition successes (ts : list (Thread num)) : nat :=
  List.length (filter succeeded ts).

(** A thread run alone, operation after operation. *)
Fixpoint alone (fuel : nat) (t : Thread num) (s : State num)
  : Thread num * State num :=
  match fuel with
  | O => (t, s)
  | S n => let (t', s') := step t s in alone n t' s'
  end.
End Concurrent.

(* ================================================================== *)
(** * Concurrent debits of one account *)

(** A thread that has debited the sender. *)
Definition debited {num : Type} (t : Thread num) : bool :=
  match stage t with
  | Debited | Credited | Recorded _ | ReadBack _ _ | Finished (Return _) => true
  | _ => false
  end.

Definition debits {num : Type} (ts : list (Thread num)) : nat :=
  List.length (filter debited ts).

(** One if the thread has debited the sender, zero otherwise. *)
Definition debit_unit {num : Type} (t : Thread num) : nat :=
  if debited t then 1 else 0.

(** The increment [updateBalance] applies for the debit of a transfer: the
    negated amount, which [transferMoney] has rounded, rounded again. *)
Definition debit_delta {num : Type} {JSN : JSNumber num} (requested : num)
  : num :=
  round2 (- round2 requested)%num.

(** The increment it applies for the credit. *)
Definition credit_delta {num : Type} {JSN : JSNumber num} (requested : num)
  : num :=
  round2 (round2 requested).

(** The filter of [updateBalance] on the balance:
    [balance: { $gte: |delta| }] for a negative delta. *)
Definition covers {num : Type} {JSN : JSNumber num} (delta b : num) : bool :=
  if (delta <? zero)%num then (b >=? Math_abs delta)%num else true.

(** The balance [B] after [k] increments by [delta], one after another, in
    the arithmetic of the carrier. *)
Fixpoint after_increments {num : Type} {JSN : JSNumber num} (k : nat)
    (delta B : num) : num :=
  match k with
  | O => B
  | S j => (after_increments j delta B + delta)%num
  end.

(** What holds of the store while the attempts run, [k] of them having
    debited the sender [sf]: identifiers are unique, the accounts are those
    of the initial state [s0], the sender's stored balance is the initial
    balance [B] after [k] debits, and each of these debits was applied to a
    balance that covered it. *)
Definition state_inv {num : Type} {JSN : JSNumber num} (sf : ObjectId)
    (s0 : State num) (delta B : num) (s : State num) (k : nat) : Prop :=
  unique_ids s /\ identities s = identities s0 /\
  stored_balance sf s = Some (after_increments k delta B) /\
  forall j, (j < k)%nat -> covers delta (after_increments j delta B) = true.

(** The database operations a thread has left. *)
Definition remaining {num : Type} (t : Thread num) : nat :=
  match stage t with
  | Called => 7
  | SenderRead _ => 6
  | Checked => 5
  | Debited => 4
  | Credited => 3
  | Recorded _ => 2
  | ReadBack _ _ => 1
  | Finished _ => 0
  end.

(** The picks that run thread 0 to its end, then thread 1, and so on. *)
Definition one_after_another (n : nat) : list nat :=
  List.concat (map (fun i => repeat i 7) (seq 0 n)).

(** A recipient and a description a transfer out of the account [sf] can
    name: the recipient is a well-formed identifier of another, existing
    account, and the trimmed description has at most 500 characters. *)
Definition recipient_ok {num : Type} (sf : ObjectId) (s0 : State num)
    (p : string * string) : bool :=
  match castObjectId (fst p) with
  | Some rt => negb (N.eqb rt sf) && is_some (lookup rt s0)
  | None => false
  end && (String.length (trim (snd p)) <=? 500)%nat.

(** The attempts: one call per recipient, all from the same sender and for
    the same amount. *)
Definition attempts {num : Type} (from : string) (requested : num)
    (recipients : list (string * string)) : list (Thread num) :=
  map (fun p => call from (fst p) requested (snd p)) recipients.

(** What holds of the stage of each such thread at any time: it found the
    sender whenever it read it, and if it threw, it threw
    'Insufficient balance'. *)
Definition stage_ok {num : Type} (st : Stage num) : Prop :=
  match st with
  | SenderRead None => False
  | ReadBack _ None => False
  | Finished (Throw e) => e = new_Error "Insufficient balance"
  | _ => True
  end.

Definition thread_ok {num : Type} (from : string) (sf : ObjectId)
    (requested : num) (s0 : State num) (t : Thread num) : Prop :=
  arg_from t = from /\ arg_amount t = requested /\
  recipient_ok sf s0 (arg_to t, arg_description t) = true /\
  stage_ok (stage t).

(* ================================================================== *)
(** * Statements of the specification *)


(** [Math.round(q * 100) / 100] on a rational. *)
Definition Qround2 (q : Q) : Q := inject_Z (Qfloor (q * 100 + (1 # 2))) / 100.


(** Two states hold the same accounts with balances that are equal as
    numbers. *)
Definition same_balances (s s' : State xnum) : Prop :=
  Forall2 (fun u u' =>
             _id u' = _id u /\ name_ u' = name_ u /\ email u' = email u /\
             xeq (balance u') (balance u))
          (Users s) (Users s').

(** The invariant of a configuration: every thread is well-formed, and the
    store is as the debits of the threads that have debited left it. *)
Definition config_inv {num : Type} {JSN : JSNumber num} (s0 : State num)
    (from : string) (sf : ObjectId) (requested B : num)
    (cfg : list (Thread num) * State num) : Prop :=
  Forall (thread_ok from sf requested s0) (fst cfg) /\
  state_inv sf s0 (debit_delta requested) B (snd cfg) (debits (fst cfg)).

(** The accounts of the scenarios: Alice, whose identifier is the string
    [alice], and Bob, whose identifier is [bob], with given balances. *)
Definition alice : string := "00000000000000000000000a".
Definition bob : string := "00000000000000000000000b".

Definition accounts {num : Type} (a b : num) : State num :=
  mkState [ mkUser 10%N "Alice" "alice@example.com" a;
            mkUser 11%N "Bob" "bob@example.com" b ] [] 12.

(** A race: three transfers of 40 from Alice to Bob, scheduled in turn, so
    that all three read Alice's balance before any of them debits it. *)
Definition race_recipients : list (string * string) :=
  [(bob, "first"); (bob, "second"); (bob, "third")].

Definition race_picks : list nat :=
  List.concat (repeat [0; 1; 2]%nat 7).

(** A description of 501 characters. *)
Definition long_description : string := String.concat "" (repeat "x" 501).

(** Alice's identifier written in upper case. *)
Definition ALICE : string := "00000000000000000000000A".

(* ================================================================== *)
(** * Statements about the endpoints, the ledger and the store *)

(** What the validators of [userSchema] accept, in terms of a request: the
    trimmed name has 2 to 100 characters, the trimmed address in lower case
    matches the pattern, and the balance, rounded by its setter, is a number
    that is not negative. *)
Definition acceptable {num : Type} {JSN : JSNumber num}
    (name email : string) (b : num) : bool :=
  (2 <=? String.length (trim name))%nat &&
  (String.length (trim name) <=? 100)%nat &&
  email_pattern (toLowerCase (trim email)) &&
  negb (isNaN (round2 b)) && (round2 b >=? zero)%num.

(** The normal form of an address: trimmed and in lower case, as the
    setters [trim] and [lowercase] of [userSchema.email] leave it. *)
Definition normalized (e : string) : string := toLowerCase (trim e).

(** Every stored address is in normal form. *)
Definition emails_normalized {num : Type} (s : State num) : Prop :=
  Forall (fun u => normalized (email u) = email u) (Users s).

(** Code units of Latin-1: [e] with an acute accent, small and capital. *)
Definition e_acute : ascii := ascii_of_nat 233.
Definition E_acute : ascii := ascii_of_nat 201.

(** No two accounts share an address. *)
Definition unique_emails {num : Type} (s : State num) : Prop :=
  NoDup (map email (Users s)).

(** The ledger is consistent with the accounts: the sender and the recipient
    of every transaction are stored accounts. *)
Definition ledger_ok {num : Type} (s : State num) : Prop :=
  Forall (fun t => populate (fromUserId t) (Users s) <> None /\
                   populate (toUserId t) (Users s) <> None)
         (Transactions s).

(** A record of the ledger as the schema and the service leave it: its
    status is SUCCESS, its amount a number of at least 0.01, and its
    description has at most 500 characters. *)
Definition record_ok {num : Type} {JSN : JSNumber num} (t : Transaction num)
  : Prop :=
  status t = SUCCESS /\ isNaN (amount t) = false /\
  (amount t >=? cent)%num = true /\
  (String.length (description t) <= 500)%nat.

Definition records_ok {num : Type} {JSN : JSNumber num} (s : State num)
  : Prop :=
  Forall record_ok (Transactions s).

(** The entry of the history that belongs to a transaction, when both of
    its references are populated. *)
Definition entry_for {num : Type} {JSN : JSNumber num}
    (users : list (User num)) (t : Transaction num) (e : HistoryEntry num)
  : Prop :=
  exists f r,
    populate (fromUserId t) users = Some f /\
    populate (toUserId t) users = Some r /\
    e = mkHistoryEntry (transactionId t) (walletService.history_party_of f)
          (walletService.history_party_of r) (get_amount t) (status t)
          (description t).

(** The messages of the refusals of a transfer. *)
Definition refusals : list string :=
  [ "Invalid sender user ID format"; "Invalid recipient user ID format";
    "Cannot transfer money to yourself";
    "Sender user not found"; "Recipient user not found";
    "Insufficient balance" ].

(** The CastError of an increment that is NaN. *)
Definition NaN_increment : Error := CastError "Number" "NaN" "number" "balance".

(** Alice and Bob after two transfers: [p] from Alice to Bob, then [q] from
    Bob to Alice. *)
Definition two_transfers {num : Type} (a b p q : num) : State num :=
  mkState [ mkUser 10%N "Alice" "alice@example.com" a;
            mkUser 11%N "Bob" "bob@example.com" b ]
          [ mkTransaction 12%N (Some 10%N) (Some 11%N) p SUCCESS "first";
            mkTransaction 13%N (Some 11%N) (Some 10%N) q SUCCESS "second" ]
          14.

(** The identifiers in use are older than the next one the driver
    generates. *)
Definition ids_fresh {num : Type} (s : State num) : Prop :=
  Forall (fun u => (_id u < next_ObjectId s)%N) (Users s).

(** The states the service reaches from an empty store by creating
    accounts and transferring money, whatever the arguments and the
    outcomes. *)
Inductive reachable {num : Type} {JSN : JSNumber num} (env : Env num)
  : State num -> Prop :=
| reachable_empty (first : N) : reachable env (mkState [] [] first)
| reachable_createAccount (s s' : State num) (name e : string)
    (initialBalance : option num) (r : completion (Account num)) :
    reachable env s ->
    walletService.createAccount env name e initialBalance s = (r, s') ->
    reachable env s'
| reachable_transferMoney (s s' : State num) (from to : string)
    (requested : num) (desc : string)
    (r : completion (TransferResult num)) :
    reachable env s ->
    walletService.transferMoney env from to requested desc s = (r, s') ->
    reachable env s'.

(** Three requests to an empty store: Alice is created with the balance
    [initial], Bob with the configured initial balance, and [sent] goes
    from Alice to Bob. *)
Definition three_requests {num : Type} {JSN : JSNumber num} (env : Env num)
    (initial sent : num) : State num :=
  snd (walletService.transferMoney env alice bob sent ""
         (snd (walletService.createAccount env "Bob" "bob@example.com" None
                 (snd (walletService.createAccount env "Alice"
                         "alice@example.com" (Some initial)
                         (mkState [] [] 10)))))).

(* ================================================================== *)
(** * Collections: finding and updating documents *)

Section Collections.
Context {num : Type} {JSN : JSNumber num}.
Variable oid : ObjectId.
Variable guard : User num -> bool.
Variable delta : num.

Let by_id (u : User num) : bool := N.eqb (_id u) oid.
Let query (u : User num) : bool := N.eqb (_id u) oid && guard u.

Lemma find_by_id_In (us : list (User num)) (u : User num) :
  find by_id us = Some u -> In u us /\ _id u = oid.
Proof.
  intros Hf. apply find_some in Hf. destruct Hf as [Hin Hid].
  split; [assumption|]. now apply N.eqb_eq.
Qed.

Lemma find_by_id_None (us : list (User num)) :
  find by_id us = None -> ~ In oid (map _id us).
Proof.
  intros Hf Hin. apply in_map_iff in Hin. destruct Hin as [u [Hid Hin]].
  pose proof (find_none _ _ Hf u Hin) as Hn. unfold by_id in Hn.
  rewrite Hid, N.eqb_refl in Hn. discriminate.
Qed.

(** No document with the identifier: nothing is updated. *)
Lemma update_absent (us : list (User num)) :
  find by_id us = None ->
  findOneAndUpdate query (inc_balance delta) us = None.
Proof.
  induction us as [|u rest IH]; simpl; [reflexivity|].
  unfold query at 1. unfold by_id at 1.
  destruct (N.eqb (_id u) oid); [discriminate|]. simpl.
  intros Hf. now rewrite (IH Hf).
Qed.

(** The document is there and passes the guard: it is the one updated, and
    nothing else changes. *)
Lemma update_present (us : list (User num)) (u : User num) :
  find by_id us = Some u -> guard u = true ->
  exists us',
    findOneAndUpdate query (inc_balance delta) us
      = Some (inc_balance delta u, us') /\
    find by_id us' = Some (inc_balance delta u) /\
    (forall o, o <> oid ->
       find (fun v => N.eqb (_id v) o) us'
       = find (fun v => N.eqb (_id v) o) us) /\
    map (fun v => (_id v, name_ v, email v)) us'
    = map (fun v => (_id v, name_ v, email v)) us.
Proof.
  induction us as [|v rest IH]; simpl; [discriminate|].
  unfold query at 1. unfold by_id at 1.
  destruct (N.eqb (_id v) oid) eqn:Hv; simpl.
  - intros Hu Hg. injection Hu as ->. rewrite Hg.
    eexists. split; [reflexivity|]. simpl. unfold by_id at 1. simpl.
    rewrite Hv. split; [reflexivity|]. split; [|reflexivity].
    intros o Ho. apply N.eqb_eq in Hv.
    destruct (N.eqb (_id u) o) eqn:Huo; [|reflexivity].
    apply N.eqb_eq in Huo. congruence.
  - intros Hu Hg. destruct (IH Hu Hg) as [us' [Hup [Hf [Hother Hids]]]].
    rewrite Hup. eexists. split; [reflexivity|]. simpl.
    unfold by_id at 1. rewrite Hv. split; [assumption|].
    split; [|now rewrite Hids].
    intros o Ho. destruct (N.eqb (_id v) o); [reflexivity|]. now apply Hother.
Qed.

(** The document is there and fails the guard: with unique identifiers,
    nothing is updated. *)
Lemma update_refused (us : list (User num)) (u : User num) :
  NoDup (map _id us) ->
  find by_id us = Some u -> guard u = false ->
  findOneAndUpdate query (inc_balance delta) us = None.
Proof.
  induction us as [|v rest IH]; simpl; [discriminate|].
  intros Hnd. inversion Hnd as [|x l Hnotin Hnd']; subst.
  unfold query at 1. unfold by_id at 1.
  destruct (N.eqb (_id v) oid) eqn:Hv; simpl.
  - intros Hu Hg. injection Hu as ->. rewrite Hg.
    apply N.eqb_eq in Hv.
    assert (Hnone : find by_id rest = None).
    { destruct (find by_id rest) as [w|] eqn:Hw; [|reflexivity].
      apply find_by_id_In in Hw. destruct Hw as [Hin Hid].
      exfalso. apply Hnotin. apply in_map_iff. exists w. split; congruence. }
    now rewrite (update_absent _ Hnone).
  - intros Hu Hg. now rewrite (IH Hnd' Hu Hg).
Qed.
End Collections.


(* ================================================================== *)
(** * The conditional adjustment, on any carrier *)

Section UpdateBalance.
Context {num : Type} {JSN : JSNumber num}.
Local Open Scope num_scope.

(** A failure of [updateBalance] leaves the state as it was. *)
Lemma updateBalance_failure_unchanged (userId : string) (delta : num)
    (s s' : State num) (e : Error) :
  updateBalance userId delta s = (Throw e, s') -> s' = s.
Proof.
  unfold updateBalance.
  destruct (castObjectId userId) as [oid|]; [|congruence].
  destruct (isNaN _); [congruence|].
  destruct (findOneAndUpdate _ _ _) as [[u us]|]; congruence.
Qed.

(** The account exists and the guard holds: the increment is applied to it
    and to nothing else. *)
Lemma updateBalance_applied (userId : string) (delta : num) (s : State num)
    (oid : ObjectId) (u : User num) :
  castObjectId userId = Some oid ->
  lookup oid s = Some u ->
  isNaN (round2 delta) = false ->
  (round2 delta <? zero) = false
    \/ (balance u >=? Math_abs (round2 delta)) = true ->
  exists s',
    updateBalance userId delta s = (Return (inc_balance (round2 delta) u), s') /\
    lookup oid s' = Some (inc_balance (round2 delta) u) /\
    (forall o, o <> oid -> lookup o s' = lookup o s) /\
    identities s' = identities s /\
    Transactions s' = Transactions s /\
    next_ObjectId s' = next_ObjectId s.
Proof.
  intros Hid Hu Hnan Hguard. unfold updateBalance. rewrite Hid.
  fold (round2 delta). rewrite Hnan.
  set (guard := fun v : User num =>
                  if round2 delta <? zero
                  then balance v >=? Math_abs (round2 delta) else true).
  assert (Hg : guard u = true).
  { unfold guard. destruct Hguard as [-> | Hb]; [reflexivity|].
    rewrite Hb. now destruct (round2 delta <? zero). }
  destruct (update_present oid guard (round2 delta) (Users s) u Hu Hg)
    as [us' [Hup [Hf [Hother Hids]]]].
  unfold guard in Hup. rewrite Hup.
  eexists. split; [reflexivity|]. unfold lookup, identities. simpl.
  repeat split; assumption.
Qed.

(** The account exists and a debit exceeds its balance. *)
Lemma updateBalance_refused (userId : string) (delta : num) (s : State num)
    (oid : ObjectId) (u : User num) :
  unique_ids s ->
  castObjectId userId = Some oid ->
  lookup oid s = Some u ->
  isNaN (round2 delta) = false ->
  (round2 delta <? zero) = true ->
  (balance u >=? Math_abs (round2 delta)) = false ->
  updateBalance userId delta s = (Throw (new_Error "Insufficient balance"), s).
Proof.
  intros Hnd Hid Hu Hnan Hneg Hlow. unfold updateBalance. rewrite Hid.
  fold (round2 delta). rewrite Hnan, Hneg.
  rewrite (update_refused oid (fun v => balance v >=? Math_abs (round2 delta))
             (round2 delta) (Users s) u Hnd Hu Hlow).
  reflexivity.
Qed.

(** No account has the identifier: the error is the same
    'Insufficient balance'. *)
Lemma updateBalance_absent (userId : string) (delta : num) (s : State num)
    (oid : ObjectId) :
  castObjectId userId = Some oid ->
  lookup oid s = None ->
  isNaN (round2 delta) = false ->
  updateBalance userId delta s = (Throw (new_Error "Insufficient balance"), s).
Proof.
  intros Hid Hu Hnan. unfold updateBalance. rewrite Hid.
  fold (round2 delta). rewrite Hnan.
  now rewrite (update_absent oid _ (round2 delta) (Users s) Hu).
Qed.
End UpdateBalance.

(* ================================================================== *)
(** * Exact numbers: comparisons and rounding *)

Lemma Qltb_true (p q : Q) : Qltb p q = true <-> (p < q)%Q.
Proof.
  unfold Qltb. rewrite Qlt_alt. destruct (p ?= q)%Q; split; congruence.
Qed.

Lemma Qltb_false (p q : Q) : Qltb p q = false <-> (q <= p)%Q.
Proof.
  split; intros H.
  - apply Qnot_lt_le. intros Hlt. apply Qltb_true in Hlt. congruence.
  - destruct (Qltb p q) eqn:E; [|reflexivity].
    apply Qltb_true in E. exfalso. now apply (Qlt_not_le _ _ E).
Qed.

Lemma Qleb_true (p q : Q) : Qleb p q = true <-> (p <= q)%Q.
Proof.
  unfold Qleb. rewrite Qle_alt. destruct (p ?= q)%Q; split; congruence.
Qed.

Lemma Qleb_false (p q : Q) : Qleb p q = false <-> (q < p)%Q.
Proof.
  split; intros H.
  - apply Qnot_le_lt. intros Hle. apply Qleb_true in Hle. congruence.
  - destruct (Qleb p q) eqn:E; [|reflexivity].
    apply Qleb_true in E. exfalso. now apply (Qlt_not_le _ _ H).
Qed.


Lemma Qround2_comp (p q : Q) : (p == q)%Q -> Qround2 p = Qround2 q.
Proof.
  intros H. unfold Qround2.
  assert (E : Qfloor (p * 100 + (1 # 2)) = Qfloor (q * 100 + (1 # 2))).
  { apply Qfloor_comp. now rewrite H. }
  now rewrite E.
Qed.

(** A decimal with 2 fractional digits is its own rounding. *)
Lemma Qround2_hundredths (k : Z) : (Qround2 (k # 100) == k # 100)%Q.
Proof.
  unfold Qround2.
  assert (E : Qfloor ((k # 100) * 100 + (1 # 2)) = k).
  { assert (H1 : ((k # 100) * 100 + (1 # 2) == inject_Z k + (1 # 2))%Q).
    { unfold Qeq, inject_Z. simpl. lia. }
    rewrite (Qfloor_comp _ _ H1).
    apply Z.le_antisymm.
    - apply Z.lt_succ_r. rewrite <- Z.add_1_r.
      rewrite Zlt_Qlt. eapply Qle_lt_trans; [apply Qfloor_le|].
      rewrite inject_Z_plus. unfold Qlt, inject_Z. simpl. lia.
    - rewrite <- (Qfloor_Z k) at 1. apply Qfloor_resp_le.
      unfold Qle, inject_Z. simpl. lia. }
  rewrite E. unfold Qeq, Qdiv, Qmult, Qinv, inject_Z. simpl. lia.
Qed.

(** The rounding is a decimal with 2 fractional digits. *)
Lemma Qround2_is_hundredths (q : Q) :
  (Qround2 q == Qfloor (q * 100 + (1 # 2)) # 100)%Q.
Proof. unfold Qround2, Qeq, Qdiv, Qmult, Qinv, inject_Z. simpl. lia. Qed.

Lemma Qround2_opp_hundredths (k : Z) : (Qround2 (- (k # 100)) == - (k # 100))%Q.
Proof.
  assert (H : (- (k # 100) == (- k) # 100)%Q) by (unfold Qeq; simpl; lia).
  rewrite (Qround2_comp _ _ H), Qround2_hundredths. now rewrite H.
Qed.

Lemma Qabs_of_neg (r : Q) : (r < 0)%Q -> (Qabs r == - r)%Q.
Proof. intros H. apply Qabs_neg. now apply Qlt_le_weak. Qed.

(* ================================================================== *)
(** * C1: the conditional adjustment *)

(** C1, as amended.  [updateBalance] applied to a well-formed identifier and
    a delta, in a store with unique identifiers, adjusts by
    [r = Math.round(delta * 100) / 100], a number ([r] is not NaN).  When the
    account exists, it succeeds exactly when the filter of the update matches
    it, that is when [r < 0] is false or [balance >= |r|]: the account is
    returned with the balance [balance + r], JavaScript's sum, and nothing
    else has changed; otherwise it fails with 'Insufficient balance'.  When
    no account has the identifier it fails.  Every failure, whatever the
    arguments, leaves the state unchanged. *)
Theorem updateBalance_conditional_adjust :
  forall (num : Type) (JSN : JSNumber num) (s : State num) (userId : string)
         (oid : ObjectId) (delta : num),
    unique_ids s ->
    castObjectId userId = Some oid ->
    isNaN (round2 delta) = false ->
    (forall u,
        lookup oid s = Some u ->
        ((if (round2 delta <? zero)%num
          then (balance u >=? Math_abs (round2 delta))%num
          else true) = true ->
         exists s',
           updateBalance userId delta s
             = (Return (inc_balance (round2 delta) u), s') /\
           stored_balance oid s' = Some (balance u + round2 delta)%num /\
           (forall o, o <> oid -> lookup o s' = lookup o s) /\
           identities s' = identities s /\
           Transactions s' = Transactions s) /\
        ((if (round2 delta <? zero)%num
          then (balance u >=? Math_abs (round2 delta))%num
          else true) = false ->
         updateBalance userId delta s
           = (Throw (new_Error "Insufficient balance"), s))) /\
    (lookup oid s = None ->
     exists e, updateBalance userId delta s = (Throw e, s)) /\
    (forall userId' delta' e s',
        updateBalance userId' delta' s = (Throw e, s') -> s' = s).
Proof.
  intros num JSN s userId oid delta Hnd Hid Hnan. split; [|split].
  - intros u Hu. split.
    + intros Hcov.
      destruct (updateBalance_applied userId delta s oid u Hid Hu Hnan)
        as [s' [Hrun [Hl [Hother [Hids [Htx _]]]]]].
      * destruct (round2 delta <? zero)%num; [now right|now left].
      * exists s'. split; [exact Hrun|]. split; [|repeat split; assumption].
        unfold stored_balance. rewrite Hl. reflexivity.
    + intros Hcov.
      destruct (round2 delta <? zero)%num eqn:Hneg; [|discriminate].
      now apply (updateBalance_refused userId delta s oid u).
  - intros Hnone. eexists.
    now apply (updateBalance_absent userId delta s oid).
  - intros userId' delta' e s'. apply updateBalance_failure_unchanged.
Qed.

(** C1, a witness on binary64: an account holding 100.00 is debited by
    30.00. *)
Lemma updateBalance_conditional_adjust_witness :
  exists s',
    updateBalance "00000000000000000000000a" (dec (-3000))
      (mkState [mkUser 10%N "Alice" "alice@example.com" (dec 10000)] [] 11)
    = (Return (mkUser 10%N "Alice" "alice@example.com" (dec 7000)), s') /\
    stored_balance 10%N s' = Some (dec 7000).
Proof.
  destruct (updateBalance_conditional_adjust float _
              (mkState [mkUser 10%N "Alice" "alice@example.com" (dec 10000)]
                 [] 11)
              "00000000000000000000000a" 10%N (dec (-3000)))
    as [Hexists _].
  - unfold unique_ids. simpl. constructor; [intros []|constructor].
  - reflexivity.
  - vm_compute. reflexivity.
  - destruct (Hexists (mkUser 10%N "Alice" "alice@example.com" (dec 10000)))
      as [Hok _]; [reflexivity|].
    destruct Hok as [s' [Hrun [Hbal _]]]; [vm_compute; reflexivity|].
    exists s'. split.
    + rewrite Hrun. vm_compute. reflexivity.
    + rewrite Hbal. vm_compute. reflexivity.
Defined.

(** C1 as stated fails on binary64.  A credit of 10.00 to an identifier that
    no account has is refused with 'Insufficient balance', the one error
    [updateBalance] throws for a filter that matches nothing.  A delta is
    rounded before it is applied: 0.004 leaves an account holding 1.00 at
    1.00, and 1.005, whose product with 100 is just below 100.5, takes an
    account holding 2.00 to 3.00, where [2 + 1.005] is another number. *)
Lemma updateBalance_counterexample :
  updateBalance "00000000000000000000000a" (dec 1000)
    (mkState (num := float) [] [] 0)
  = (Throw (new_Error "Insufficient balance"), mkState [] [] 0) /\
  fst (updateBalance "00000000000000000000000a" (PrimFloat.div 4 1000)
         (mkState [mkUser 10%N "Alice" "alice@example.com" (dec 100)] [] 11))
  = Return (mkUser 10%N "Alice" "alice@example.com" (dec 100)) /\
  PrimFloat.eqb (PrimFloat.add (dec 100) (PrimFloat.div 4 1000)) (dec 100)
  = false /\
  fst (updateBalance "00000000000000000000000a" (PrimFloat.div 1005 1000)
         (mkState [mkUser 10%N "Alice" "alice@example.com" (dec 200)] [] 11))
  = Return (mkUser 10%N "Alice" "alice@example.com" (dec 300)) /\
  PrimFloat.eqb (PrimFloat.add (dec 200) (PrimFloat.div 1005 1000)) (dec 300)
  = false.
Proof.
  repeat split; vm_compute; reflexivity.
Qed.

(* ================================================================== *)
(** * Asynchronous computations: inversion *)

Section AsyncFacts.
Context {S A B : Type}.

Lemma bind_Return_inv (m : Async S A) (k : A -> Async S B) (s s' : S) (b : B) :
  bind m k s = (Return b, s') ->
  exists a s1, m s = (Return a, s1) /\ k a s1 = (Return b, s').
Proof.
  unfold bind. destruct (m s) as [[a|e] s1]; intros H.
  - now exists a, s1.
  - discriminate.
Qed.

Lemma bind_Throw_inv (m : Async S A) (k : A -> Async S B) (s s' : S)
    (e : Error) :
  bind m k s = (Throw e, s') ->
  m s = (Throw e, s') \/
  exists a s1, m s = (Return a, s1) /\ k a s1 = (Throw e, s').
Proof.
  unfold bind. destruct (m s) as [[a|e'] s1]; intros H.
  - right. now exists a, s1.
  - left. injection H as -> ->. reflexivity.
Qed.

Lemma bind_Return (m : Async S A) (k : A -> Async S B) (s s1 : S) (a : A) :
  m s = (Return a, s1) -> bind m k s = k a s1.
Proof. unfold bind. now intros ->. Qed.

Lemma bind_Throw (m : Async S A) (k : A -> Async S B) (s s1 : S) (e : Error) :
  m s = (Throw e, s1) -> bind m k s = (Throw e, s1).
Proof. unfold bind. now intros ->. Qed.
End AsyncFacts.

Lemma State_eta {num : Type} (s : State num) :
  mkState (Users s) (Transactions s) (next_ObjectId s) = s.
Proof. now destruct s. Qed.

Lemma isValid_cast (id : string) :
  isValid id = true <-> exists oid, castObjectId id = Some oid.
Proof.
  unfold isValid. destruct (castObjectId id) as [oid|]; split.
  - intros _. now exists oid.
  - reflexivity.
  - discriminate.
  - intros [oid H]. discriminate.
Qed.

(* ================================================================== *)
(** * The transfer, on any carrier *)

Section Transfer.
Context {num : Type} {JSN : JSNumber num}.
Variable env : Env num.
Local Open Scope num_scope.

Lemma User_findById_cast (id : string) (oid : ObjectId) (s : State num) :
  castObjectId id = Some oid ->
  User_findById id s = (Return (lookup oid s), s).
Proof. unfold User_findById. now intros ->. Qed.

(** Up to the balance check nothing is written: each way out of
    [debit_credit_record] before the debit leaves the state as it was. *)
Lemma debit_credit_record_checks (from to : string) (sf rt : ObjectId)
    (amt : num) (desc : string) (s : State num) :
  castObjectId from = Some sf ->
  castObjectId to = Some rt ->
  walletService.debit_credit_record from to amt desc s =
  match lookup sf s, lookup rt s with
  | None, _ => (Throw (new_Error "Sender user not found"), s)
  | Some _, None => (Throw (new_Error "Recipient user not found"), s)
  | Some fromUser, Some _ =>
      if get_balance fromUser <? amt
      then (Throw (new_Error "Insufficient balance"), s)
      else
        (updateBalance from (- amt) ;;
         updateBalance to amt ;;
         transaction <- new_Transaction from to amt SUCCESS desc ;;
         Transaction_save transaction ;;
         ret transaction) s
  end.
Proof.
  intros Hf Ht. unfold walletService.debit_credit_record.
  rewrite (bind_Return _ _ _ _ _ (User_findById_cast from sf s Hf)).
  rewrite (bind_Return _ _ _ _ _ (User_findById_cast to rt s Ht)).
  destruct (lookup sf s) as [f|]; [|reflexivity].
  destruct (lookup rt s) as [t|]; [|reflexivity].
  destruct (get_balance f <? amt); reflexivity.
Qed.

(** A transfer that throws during [debit_credit_record] without having
    written leaves the state unchanged on either path. *)
Lemma transfer_paths_early_failure (from to : string) (amt : num)
    (desc : string) (s : State num) (e : Error) :
  walletService.debit_credit_record from to amt desc s = (Throw e, s) ->
  (if supportsTransactions env
   then walletService._transferWithTransaction from to amt desc
   else walletService._transferWithAtomicOps from to amt desc) s
  = (Throw e, s).
Proof.
  intros H. destruct (supportsTransactions env).
  - unfold walletService._transferWithTransaction. rewrite H.
    unfold walletService.abortTransaction. now rewrite State_eta.
  - unfold walletService._transferWithAtomicOps.
    now rewrite (bind_Throw _ _ _ _ _ H).
Qed.
End Transfer.

(* ================================================================== *)
(** * C5, C3, C6: validation *)

Section Validation.
Context {num : Type} {JSN : JSNumber num}.
Variable env : Env num.
Local Open Scope num_scope.

(** Once the four checks of [transferMoney] pass, the call is the transfer
    of the rounded amount on the path the environment selects. *)
Lemma transferMoney_checked (from to : string) (sf rt : ObjectId)
    (amount : num) (desc : string) (s : State num) :
  castObjectId from = Some sf ->
  castObjectId to = Some rt ->
  from <> to ->
  (amount <=? zero) = false ->
  walletService.transferMoney env from to amount desc s =
  (if supportsTransactions env
   then walletService._transferWithTransaction from to (round2 amount) desc
   else walletService._transferWithAtomicOps from to (round2 amount) desc) s.
Proof.
  intros Hf Ht Hne Hpos. unfold walletService.transferMoney, isValid.
  rewrite Hf, Ht. simpl.
  apply String.eqb_neq in Hne. rewrite Hne, Hpos.
  now destruct (supportsTransactions env).
Qed.

(** The amount check of [transferMoney], reached once both identifiers are
    well-formed and differ as strings. *)
Lemma transferMoney_amount_check (from to : string) (amount : num)
    (desc : string) (s : State num) :
  isValid from = true -> isValid to = true -> from <> to ->
  (amount <=? zero) = true ->
  walletService.transferMoney env from to amount desc s
  = (Throw (new_Error "Transfer amount must be greater than 0"), s).
Proof.
  intros Hf Ht Hne Hle. unfold walletService.transferMoney.
  rewrite Hf, Ht. simpl. apply String.eqb_neq in Hne. now rewrite Hne, Hle.
Qed.

(** C5, as amended.  [transferMoney] validates before it writes, in this
    order: the format of the sender's identifier, the format of the
    recipient's, sender and recipient being the same string (SelfTransfer),
    the amount being positive, and only then the existence of the sender and
    of the recipient (NotFound).  Each failure leaves the state unchanged. *)
Theorem transferMoney_validation_order :
  forall (from to : string) (amount : num) (desc : string) (s : State num),
    let outcome := walletService.transferMoney env from to amount desc s in
    (isValid from = false ->
     outcome = (Throw (new_Error "Invalid sender user ID format"), s)) /\
    (isValid from = true -> isValid to = false ->
     outcome = (Throw (new_Error "Invalid recipient user ID format"), s)) /\
    (isValid from = true -> isValid to = true -> from = to ->
     outcome = (Throw (new_Error "Cannot transfer money to yourself"), s)) /\
    (isValid from = true -> isValid to = true -> from <> to ->
     (amount <=? zero) = true ->
     outcome = (Throw (new_Error "Transfer amount must be greater than 0"), s)) /\
    (forall sf rt,
        castObjectId from = Some sf -> castObjectId to = Some rt ->
        from <> to -> (amount <=? zero) = false ->
        (lookup sf s = None ->
         outcome = (Throw (new_Error "Sender user not found"), s)) /\
        (lookup sf s <> None -> lookup rt s = None ->
         outcome = (Throw (new_Error "Recipient user not found"), s))).
Proof.
  intros from to amount desc s outcome. subst outcome.
  repeat split.
  - intros Hf. unfold walletService.transferMoney. now rewrite Hf.
  - intros Hf Ht. unfold walletService.transferMoney. now rewrite Hf, Ht.
  - intros Hf Ht Heq. unfold walletService.transferMoney.
    rewrite Hf, Ht. simpl. apply String.eqb_eq in Heq. now rewrite Heq.
  - intros Hf Ht Hne Hle. now apply transferMoney_amount_check.
  - intros Hnone.
    rewrite (transferMoney_checked from to sf rt amount desc s) by assumption.
    apply transfer_paths_early_failure.
    rewrite (debit_credit_record_checks from to sf rt) by assumption.
    now rewrite Hnone.
  - intros Hsome Hnone.
    rewrite (transferMoney_checked from to sf rt amount desc s) by assumption.
    apply transfer_paths_early_failure.
    rewrite (debit_credit_record_checks from to sf rt) by assumption.
    rewrite Hnone. now destruct (lookup sf s).
Qed.

(** C3.  A transfer between two existing accounts whose (rounded) amount
    exceeds the balance read from the sender fails with
    'Insufficient balance' and leaves the whole state unchanged: both
    balances, and the list of transactions. *)
Theorem transferMoney_insufficient_balance :
  forall (from to : string) (sf rt : ObjectId) (amount : num) (desc : string)
         (s : State num) (fromUser toUser : User num),
    castObjectId from = Some sf ->
    castObjectId to = Some rt ->
    from <> to ->
    (amount <=? zero) = false ->
    lookup sf s = Some fromUser ->
    lookup rt s = Some toUser ->
    (get_balance fromUser <? round2 amount) = true ->
    walletService.transferMoney env from to amount desc s
    = (Throw (new_Error "Insufficient balance"), s).
Proof.
  intros from to sf rt amount desc s f t Hf Ht Hne Hpos Hlf Hlt Hlow.
  rewrite (transferMoney_checked from to sf rt amount desc s) by assumption.
  apply transfer_paths_early_failure.
  rewrite (debit_credit_record_checks from to sf rt) by assumption.
  now rewrite Hlf, Hlt, Hlow.
Qed.

(** C6, as amended.  The controller answers 400 'Amount must be a positive
    number', without calling the service and without touching the state, for
    every amount that [parseFloat] reads as NaN, as zero or as a negative
    number; the service itself rejects every amount [<= 0] with
    'Transfer amount must be greater than 0' once the identifiers have passed
    their checks.  Neither tests that the amount is finite. *)
Theorem transfer_rejects_invalid_amount :
  forall (from to : string) (a : num) (desc : option string) (s : State num),
    from <> "" -> to <> "" ->
    isNaN a = true \/ (a <=? zero) = true ->
    walletController.transferMoney env
      (mkTransferBody (Some from) (Some to) (Some a) desc) s
    = (walletController.failure 400 "Amount must be a positive number" None, s)
    /\
    (forall d, isValid from = true -> isValid to = true -> from <> to ->
               (a <=? zero) = true ->
               walletService.transferMoney env from to a d s
               = (Throw (new_Error "Transfer amount must be greater than 0"), s)).
Proof.
  intros from to a desc s Hf Ht Hbad. split.
  - unfold walletController.transferMoney, walletController.falsy. simpl.
    apply String.eqb_neq in Hf, Ht. rewrite Hf, Ht. simpl.
    destruct Hbad as [-> | ->]; [reflexivity|].
    now rewrite orb_true_r.
  - intros d Hvf Hvt Hne Hle. now apply transferMoney_amount_check.
Qed.
End Validation.

(** C5, a counterexample to the order as stated: sender and recipient are
    the same well-formed identifier and no account has it; the transfer fails
    with the self-transfer error, not with a not-found error. *)
Lemma self_transfer_checked_before_existence :
  walletService.transferMoney (mkEnv 100%float false)
    "00000000000000000000000a" "00000000000000000000000a" (dec 1000) ""
    (mkState [] [] 0)
  = (Throw (new_Error "Cannot transfer money to yourself"), mkState [] [] 0).
Proof. vm_compute. reflexivity. Qed.

(** C3, a witness: 1000 from Alice, who holds 70.00, to Bob. *)
Lemma transferMoney_insufficient_balance_witness :
  walletService.transferMoney (mkEnv 100%float false) alice bob (dec 100000) ""
    (accounts (dec 7000) (dec 8000))
  = (Throw (new_Error "Insufficient balance"), accounts (dec 7000) (dec 8000)).
Proof.
  apply (transferMoney_insufficient_balance (mkEnv 100%float false)
           alice bob 10%N 11%N (dec 100000) ""
           (accounts (dec 7000) (dec 8000))
           (mkUser 10%N "Alice" "alice@example.com" (dec 7000))
           (mkUser 11%N "Bob" "bob@example.com" (dec 8000)));
    first [ reflexivity | discriminate | vm_compute; reflexivity ].
Defined.

(** C6, a witness: the amounts -10 and NaN. *)
Lemma transfer_rejects_invalid_amount_witness :
  walletController.transferMoney (mkEnv 100%float false)
    (mkTransferBody (Some alice) (Some bob) (Some (dec (-1000))) None)
    (accounts (dec 7000) (dec 8000))
  = (walletController.failure 400 "Amount must be a positive number" None,
     accounts (dec 7000) (dec 8000))
  /\
  walletController.transferMoney (mkEnv 100%float false)
    (mkTransferBody (Some alice) (Some bob) (Some PrimFloat.nan) None)
    (accounts (dec 7000) (dec 8000))
  = (walletController.failure 400 "Amount must be a positive number" None,
     accounts (dec 7000) (dec 8000)).
Proof.
  split.
  - apply (transfer_rejects_invalid_amount (mkEnv 100%float false)
             alice bob (dec (-1000)) None (accounts (dec 7000) (dec 8000)));
      [discriminate | discriminate | right; vm_compute; reflexivity].
  - apply (transfer_rejects_invalid_amount (mkEnv 100%float false)
             alice bob PrimFloat.nan None (accounts (dec 7000) (dec 8000)));
      [discriminate | discriminate | left; vm_compute; reflexivity].
Defined.

(** C6, a counterexample to the claim as stated: +Infinity is not a finite
    positive number, yet the controller lets it through and the transfer
    fails with 'Insufficient balance'; and the service on its own lets NaN
    through its amount check, the call failing only when the increment is
    cast. *)
Lemma infinite_amount_is_not_invalid :
  walletController.transferMoney (mkEnv 100%float false)
    (mkTransferBody (Some alice) (Some bob) (Some PrimFloat.infinity) None)
    (accounts (dec 7000) (dec 8000))
  = (walletController.failure 400 "Insufficient balance" None,
     accounts (dec 7000) (dec 8000))
  /\
  walletService.transferMoney (mkEnv 100%float false) alice bob PrimFloat.nan ""
    (accounts (dec 7000) (dec 8000))
  = (Throw (CastError "Number" "NaN" "number" "balance"),
     accounts (dec 7000) (dec 8000)).
Proof. split; vm_compute; reflexivity. Qed.

(* ================================================================== *)
(** * A transfer that succeeds, on any carrier *)

Section Success.
Context {num : Type} {JSN : JSNumber num}.
Variable env : Env num.
Local Open Scope num_scope.

Lemma identities_unique (s s' : State num) :
  identities s' = identities s -> unique_ids s -> unique_ids s'.
Proof.
  unfold identities, unique_ids. intros H Hnd.
  assert (E : forall us : list (User num),
             map _id us
             = map (fun p => fst (fst p))
                 (map (fun u => (_id u, name_ u, email u)) us)).
  { intros us. rewrite map_map. now apply map_ext. }
  rewrite E, H, <- E. exact Hnd.
Qed.

(** A transaction passes validation exactly when its identifiers were cast,
    its amount is a number of at least 0.01 and its description has at most
    500 characters. *)
Lemma validate_Transaction_ok (t : Transaction num) :
  validate_Transaction t = [] <->
  is_some (fromUserId t) = true /\ is_some (toUserId t) = true /\
  isNaN (amount t) = false /\ (amount t >=? cent) = true /\
  (String.length (description t) <=? 500)%nat = true.
Proof.
  unfold validate_Transaction, first_failure. simpl.
  destruct (is_some (fromUserId t)), (is_some (toUserId t)),
    (isNaN (amount t)), (amount t >=? cent),
    (String.length (description t) <=? 500)%nat; simpl;
    split; intros H; try discriminate; try reflexivity;
    repeat split; try (destruct H as [? [? [? [? ?]]]]; discriminate).
Qed.

(** What a successful [updateBalance] did. *)
Lemma updateBalance_success_inv (userId : string) (delta : num)
    (s s' : State num) (u' : User num) :
  unique_ids s ->
  updateBalance userId delta s = (Return u', s') ->
  exists oid u,
    castObjectId userId = Some oid /\
    lookup oid s = Some u /\
    u' = inc_balance (round2 delta) u /\
    isNaN (round2 delta) = false /\
    ((round2 delta <? zero) = false
     \/ (balance u >=? Math_abs (round2 delta)) = true) /\
    lookup oid s' = Some u' /\
    (forall o, o <> oid -> lookup o s' = lookup o s) /\
    identities s' = identities s /\
    Transactions s' = Transactions s /\
    next_ObjectId s' = next_ObjectId s.
Proof.
  intros Hnd Hrun.
  destruct (castObjectId userId) as [oid|] eqn:Hid;
    [|unfold updateBalance in Hrun; rewrite Hid in Hrun; discriminate].
  destruct (isNaN (round2 delta)) eqn:Hnan;
    [unfold updateBalance in Hrun; rewrite Hid in Hrun;
     fold (round2 delta) in Hrun; rewrite Hnan in Hrun; discriminate|].
  destruct (lookup oid s) as [u|] eqn:Hu.
  - assert (Hguard : (round2 delta <? zero) = false
                     \/ (balance u >=? Math_abs (round2 delta)) = true).
    { destruct (round2 delta <? zero) eqn:Hneg; [|now left].
      destruct (balance u >=? Math_abs (round2 delta)) eqn:Hb; [now right|].
      rewrite (updateBalance_refused userId delta s oid u Hnd Hid Hu Hnan Hneg Hb)
        in Hrun. discriminate. }
    destruct (updateBalance_applied userId delta s oid u Hid Hu Hnan Hguard)
      as [s1 [Hrun1 [Hl [Hother [Hids [Htx Hnext]]]]]].
    rewrite Hrun1 in Hrun. injection Hrun as <- <-.
    exists oid, u. repeat split; assumption.
  - rewrite (updateBalance_absent userId delta s oid Hid Hu Hnan) in Hrun.
    discriminate.
Qed.

(** What a successful [debit_credit_record] did: the sender was debited and
    the recipient credited by the rounded amount, one transaction with status
    SUCCESS was appended, and nothing else changed. *)
Lemma debit_credit_record_success (from to : string) (sf rt : ObjectId)
    (amt : num) (desc : string) (s s1 : State num) (tx : Transaction num) :
  unique_ids s ->
  castObjectId from = Some sf ->
  castObjectId to = Some rt ->
  sf <> rt ->
  walletService.debit_credit_record from to amt desc s = (Return tx, s1) ->
  exists f t,
    lookup sf s = Some f /\ lookup rt s = Some t /\
    (get_balance f <? amt) = false /\
    isNaN (round2 (- amt)) = false /\
    lookup sf s1 = Some (inc_balance (round2 (- amt)) f) /\
    lookup rt s1 = Some (inc_balance (round2 amt) t) /\
    (forall o, o <> sf -> o <> rt -> lookup o s1 = lookup o s) /\
    identities s1 = identities s /\
    tx = mkTransaction (next_ObjectId s) (Some sf) (Some rt) (round2 amt)
           SUCCESS (trim desc) /\
    validate_Transaction tx = [] /\
    Transactions s1 = Transactions s ++ [tx] /\
    next_ObjectId s1 = N.succ (next_ObjectId s).
Proof.
  intros Hnd Hf Ht Hne Hrun.
  rewrite (debit_credit_record_checks from to sf rt amt desc s Hf Ht) in Hrun.
  destruct (lookup sf s) as [f|] eqn:Hlf; [|discriminate].
  destruct (lookup rt s) as [t|] eqn:Hlt; [|discriminate].
  destruct (get_balance f <? amt) eqn:Hchk; [discriminate|].
  apply bind_Return_inv in Hrun. destruct Hrun as [u1 [sa [Hdebit Hrun]]].
  apply bind_Return_inv in Hrun. destruct Hrun as [u2 [sb [Hcredit Hrun]]].
  destruct (updateBalance_success_inv _ _ _ _ _ Hnd Hdebit)
    as [o1 [f' [Ho1 [Hf' [Hu1 [Hnan1 [_ [Hl1 [Hoth1 [Hids1 [Htx1 Hn1]]]]]]]]]]].
  rewrite Hf in Ho1. injection Ho1 as <-.
  rewrite Hlf in Hf'. injection Hf' as <-.
  pose proof (identities_unique _ _ Hids1 Hnd) as Hnd1.
  destruct (updateBalance_success_inv _ _ _ _ _ Hnd1 Hcredit)
    as [o2 [t' [Ho2 [Ht' [Hu2 [_ [_ [Hl2 [Hoth2 [Hids2 [Htx2 Hn2]]]]]]]]]]].
  rewrite Ht in Ho2. injection Ho2 as <-.
  rewrite (Hoth1 rt (not_eq_sym Hne)), Hlt in Ht'. injection Ht' as <-.
  unfold new_Transaction, new_ObjectId, Transaction_save, bind, ret in Hrun.
  simpl in Hrun. rewrite Hf, Ht in Hrun.
  destruct (validate_Transaction _) as [|bad rest] eqn:Hval; [|discriminate].
  injection Hrun as <- <-. simpl.
  exists f, t. rewrite Hn2, Hn1, Htx2, Htx1.
  split; [reflexivity|]. split; [reflexivity|]. split; [assumption|].
  split; [assumption|].
  split; [rewrite <- Hu1; unfold lookup in *; simpl;
          now rewrite (Hoth2 sf Hne)|].
  split; [rewrite <- Hu2; unfold lookup in *; simpl; assumption|].
  split; [intros o Hos Hor; unfold lookup in *; simpl;
          now rewrite (Hoth2 o Hor), (Hoth1 o Hos)|].
  split; [unfold identities in *; simpl; now rewrite Hids2, Hids1|].
  split; [reflexivity|]. split; [assumption|]. split; reflexivity.
Qed.

(** What a successful [transferMoney] did, on either path. *)
Lemma transferMoney_success (from to : string) (sf rt : ObjectId)
    (amount : num) (desc : string) (s s' : State num)
    (result : TransferResult num) :
  unique_ids s ->
  castObjectId from = Some sf ->
  castObjectId to = Some rt ->
  sf <> rt ->
  walletService.transferMoney env from to amount desc s = (Return result, s') ->
  exists f t tx,
    (amount <=? zero) = false /\
    lookup sf s = Some f /\ lookup rt s = Some t /\
    (get_balance f <? round2 amount) = false /\
    isNaN (round2 (- round2 amount)) = false /\
    lookup sf s' = Some (inc_balance (round2 (- round2 amount)) f) /\
    lookup rt s' = Some (inc_balance (round2 (round2 amount)) t) /\
    (forall o, o <> sf -> o <> rt -> lookup o s' = lookup o s) /\
    identities s' = identities s /\
    tx = mkTransaction (next_ObjectId s) (Some sf) (Some rt)
           (round2 (round2 amount)) SUCCESS (trim desc) /\
    validate_Transaction tx = [] /\
    Transactions s' = Transactions s ++ [tx] /\
    result = mkTransferResult (next_ObjectId s)
               (walletService.party_of (inc_balance (round2 (- round2 amount)) f))
               (walletService.party_of (inc_balance (round2 (round2 amount)) t))
               (round2 amount).
Proof.
  intros Hnd Hf Ht Hne Hrun.
  assert (Hstr : from <> to) by (intros ->; congruence).
  destruct (amount <=? zero) eqn:Hpos.
  { unfold walletService.transferMoney, isValid in Hrun.
    rewrite Hf, Ht in Hrun. simpl in Hrun.
    apply String.eqb_neq in Hstr. rewrite Hstr, Hpos in Hrun. discriminate. }
  rewrite (transferMoney_checked env from to sf rt amount desc s Hf Ht Hstr Hpos)
    in Hrun.
  assert (Hcore : exists tx s1,
             walletService.debit_credit_record from to (round2 amount) desc s
             = (Return tx, s1) /\
             walletService.read_back from to (round2 amount) tx s1
             = (Return result, s')).
  { destruct (supportsTransactions env).
    - unfold walletService._transferWithTransaction in Hrun.
      destruct (walletService.debit_credit_record _ _ _ _ s) as [[tx|e] s1];
        [|discriminate].
      exists tx, s1. split; [reflexivity|].
      unfold try_catch in Hrun.
      destruct (walletService.read_back _ _ _ tx s1) as [[r|e] s2];
        [assumption|discriminate].
    - unfold walletService._transferWithAtomicOps in Hrun.
      apply bind_Return_inv in Hrun. destruct Hrun as [tx [s1 [H1 H2]]].
      now exists tx, s1. }
  destruct Hcore as [tx [s1 [Hdcr Hread]]].
  destruct (debit_credit_record_success _ _ _ _ _ _ _ _ _ Hnd Hf Ht Hne Hdcr)
    as [f [t [Hlf [Hlt [Hchk [Hnan [Hf1 [Ht1 [Hoth [Hids [Htx [Hval [Htxs Hn]]]]]]]]]]]]].
  unfold walletService.read_back in Hread.
  rewrite (bind_Return _ _ _ _ _ (User_findById_cast from sf s1 Hf)) in Hread.
  rewrite (bind_Return _ _ _ _ _ (User_findById_cast to rt s1 Ht)) in Hread.
  rewrite Hf1, Ht1 in Hread. unfold ret in Hread. injection Hread as <- <-.
  exists f, t, tx. rewrite <- Htx.
  repeat split; try assumption. now rewrite Htx.
Qed.
End Success.

(* ================================================================== *)
(** * C2: what a committed transfer moves *)

Lemma Qround2_idem (q : Q) : (Qround2 (Qround2 q) == Qround2 q)%Q.
Proof.
  rewrite (Qround2_comp _ _ (Qround2_is_hundredths q)).
  rewrite Qround2_hundredths. symmetry. apply Qround2_is_hundredths.
Qed.

Lemma Qround2_opp_round (q : Q) : (Qround2 (- Qround2 q) == - Qround2 q)%Q.
Proof.
  assert (H : (- Qround2 q == - (Qfloor (q * 100 + (1 # 2)) # 100))%Q)
    by now rewrite <- Qround2_is_hundredths.
  rewrite (Qround2_comp _ _ H), Qround2_opp_hundredths. now rewrite H.
Qed.

Lemma stored_balance_lookup {num : Type} (oid : ObjectId) (s : State num)
    (b : num) :
  stored_balance oid s = Some b ->
  exists u, lookup oid s = Some u /\ balance u = b.
Proof.
  unfold stored_balance. destruct (lookup oid s) as [u|]; simpl; intros H.
  - injection H as <-. now exists u.
  - discriminate.
Qed.

(** What a committed transfer moves.  A transfer between two different
    accounts (identifiers that cast to different ObjectIds) that returns,
    on either path, has changed two balances and nothing else of the
    accounts: the sender's stored balance is its balance before plus the
    debit increment, the negated rounded amount, and the recipient's is its
    balance before plus the credit increment, the sums being those of the
    carrier and stored as they are.  Exactly one transaction is appended,
    with status SUCCESS, the rounded amount and these two parties, and the
    result reports the identifier of the transaction and, through the
    getter, the two new balances. *)
Theorem transfer_moves_the_rounded_amount :
  forall (num : Type) (JSN : JSNumber num) (env : Env num) (from to : string)
         (sf rt : ObjectId) (requested : num) (desc : string)
         (s s' : State num) (result : TransferResult num) (bf bt : num),
    unique_ids s ->
    castObjectId from = Some sf ->
    castObjectId to = Some rt ->
    sf <> rt ->
    stored_balance sf s = Some bf ->
    stored_balance rt s = Some bt ->
    walletService.transferMoney env from to requested desc s = (Return result, s') ->
    stored_balance sf s' = Some (bf + debit_delta requested)%num /\
    stored_balance rt s' = Some (bt + credit_delta requested)%num /\
    (forall o, o <> sf -> o <> rt -> lookup o s' = lookup o s) /\
    identities s' = identities s /\
    Transactions s' =
      Transactions s ++
      [mkTransaction (next_ObjectId s) (Some sf) (Some rt)
         (credit_delta requested) SUCCESS (trim desc)] /\
    result_transactionId result = next_ObjectId s /\
    result_amount result = round2 requested /\
    party_id (result_from result) = sf /\
    party_balance (result_from result)
    = round2 (bf + debit_delta requested)%num /\
    party_id (result_to result) = rt /\
    party_balance (result_to result)
    = round2 (bt + credit_delta requested)%num.
Proof.
  intros num JSN env from to sf rt requested desc s s' result bf bt
         Hnd Hf Ht Hne Hbf Hbt Hrun.
  destruct (transferMoney_success env from to sf rt requested desc s s' result
              Hnd Hf Ht Hne Hrun)
    as [f [t [tx [Hpos [Hlf [Hlt [Hchk [Hnan [Hf' [Ht' [Hoth [Hids [Htx [Hval
       [Htxs Hres]]]]]]]]]]]]]]].
  destruct (stored_balance_lookup _ _ _ Hbf) as [f0 [Hf0 Hbalf]].
  destruct (stored_balance_lookup _ _ _ Hbt) as [t0 [Ht0 Hbalt]].
  rewrite Hlf in Hf0. injection Hf0 as <-.
  rewrite Hlt in Ht0. injection Ht0 as <-.
  assert (Hids_f : _id f = sf).
  { unfold lookup in Hlf. apply find_some in Hlf. now apply N.eqb_eq. }
  assert (Hids_t : _id t = rt).
  { unfold lookup in Hlt. apply find_some in Hlt. now apply N.eqb_eq. }
  split; [unfold stored_balance; rewrite Hf'; simpl; now rewrite Hbalf|].
  split; [unfold stored_balance; rewrite Ht'; simpl; now rewrite Hbalt|].
  split; [exact Hoth|]. split; [exact Hids|].
  split; [now rewrite Htxs, Htx|].
  rewrite Hres. simpl. unfold get_balance. simpl.
  rewrite Hbalf, Hbalt. repeat split; assumption.
Qed.

(** A witness on binary64: 30 go from Alice, who holds 100, to Bob, who holds
    50, leaving 70 and 80. *)
Lemma transfer_moves_the_rounded_amount_witness :
  exists (result : TransferResult float) (s' : State float),
    walletService.transferMoney (mkEnv 100%float false) alice bob (dec 3000)
      "" (accounts (dec 10000) (dec 5000)) = (Return result, s') /\
    stored_balance 10%N s' = Some (dec 7000) /\
    stored_balance 11%N s' = Some (dec 8000) /\
    List.length (Transactions s') = 1%nat.
Proof.
  destruct (walletService.transferMoney (mkEnv 100%float false) alice bob
              (dec 3000) "" (accounts (dec 10000) (dec 5000)))
    as [[result|e] s'] eqn:Hrun; [|vm_compute in Hrun; discriminate].
  destruct (transfer_moves_the_rounded_amount float _ (mkEnv 100%float false)
              alice bob 10%N 11%N (dec 3000) ""
              (accounts (dec 10000) (dec 5000)) s' result (dec 10000)
              (dec 5000))
    as [Hbf [Hbt [_ [_ [Htxs _]]]]].
  - unfold unique_ids. simpl.
    constructor; [simpl; intros [H|[]]; discriminate|].
    constructor; [intros []|constructor].
  - reflexivity.
  - reflexivity.
  - discriminate.
  - reflexivity.
  - reflexivity.
  - exact Hrun.
  - exists result, s'. split; [reflexivity|].
    split; [rewrite Hbf; vm_compute; reflexivity|].
    split; [rewrite Hbt; vm_compute; reflexivity|].
    now rewrite Htxs.
Defined.

(** The same scenario on binary64, state and result in full. *)
Example transfer_30_from_100_to_50 :
  walletService.transferMoney (mkEnv 100%float false) alice bob (dec 3000) "payment"
    (accounts (dec 10000) (dec 5000))
  = (Return (mkTransferResult 12%N
               (mkParty 10%N "Alice" (dec 7000))
               (mkParty 11%N "Bob" (dec 8000)) (dec 3000)),
     mkState [ mkUser 10%N "Alice" "alice@example.com" (dec 7000);
               mkUser 11%N "Bob" "bob@example.com" (dec 8000) ]
             [ mkTransaction 12%N (Some 10%N) (Some 11%N) (dec 3000) SUCCESS
                 "payment" ]
             13).
Proof. vm_compute. reflexivity. Qed.

(** C2, at two spellings of one ObjectId.  The self-transfer check of
    [transferMoney] compares the two identifiers as strings, and an ObjectId
    is the same in lower and in upper case.  A transfer of 30 from Alice, who
    holds 100, to Alice under the other spelling commits, on the
    transactional path and on the path of the atomic operations: the account
    is debited and credited, one transaction with status SUCCESS and amount
    30 is recorded with Alice as its sender and its recipient, and the
    sender's balance is 100 as before, not 70. *)
Theorem one_account_under_two_spellings (transactions : bool) :
  walletService.transferMoney (mkEnv 100%float transactions)
    "00000000000000000000000a" "00000000000000000000000A" (dec 3000) ""
    (accounts (dec 10000) (dec 5000))
  = (Return (mkTransferResult 12%N
               (mkParty 10%N "Alice" (dec 10000))
               (mkParty 10%N "Alice" (dec 10000)) (dec 3000)),
     mkState [ mkUser 10%N "Alice" "alice@example.com" (dec 10000);
               mkUser 11%N "Bob" "bob@example.com" (dec 5000) ]
             [ mkTransaction 12%N (Some 10%N) (Some 10%N) (dec 3000) SUCCESS "" ]
             13).
Proof. destruct transactions; vm_compute; reflexivity. Qed.

(* ================================================================== *)
(** * C8: duplicate e-mail addresses *)

Section Creation.
Context {num : Type} {JSN : JSNumber num}.
Variable env : Env num.
Local Open Scope num_scope.

Lemma find_exists {A : Type} (p : A -> bool) (l : list A) (x : A) :
  In x l -> p x = true -> exists y, find p l = Some y.
Proof.
  intros Hin Hp. destruct (find p l) as [y|] eqn:Hf; [now exists y|].
  pose proof (find_none _ _ Hf x Hin). congruence.
Qed.

(** An account whose stored address is the normalized new address makes
    [createAccount] fail, and nothing is written. *)
Lemma createAccount_duplicate (name e : string) (initialBalance : option num)
    (s : State num) (u : User num) :
  In u (Users s) ->
  email u = toLowerCase (trim e) ->
  walletService.createAccount env name e initialBalance s
  = (Throw (new_Error "User with this email already exists"), s).
Proof.
  intros Hin He. unfold walletService.createAccount, bind, User_findOne_email.
  destruct (find_exists
              (fun v => String.eqb (email v) (toLowerCase (trim e)))
              (Users s) u Hin) as [y Hy].
  - rewrite He. apply String.eqb_refl.
  - now rewrite Hy.
Qed.

(** What a successful [createAccount] stored. *)
Lemma createAccount_success (name e : string) (initialBalance : option num)
    (s s' : State num) (acct : Account num) :
  walletService.createAccount env name e initialBalance s = (Return acct, s') ->
  exists u,
    Users s' = Users s ++ [u] /\
    _id u = next_ObjectId s /\
    name_ u = trim name /\
    email u = toLowerCase (trim e) /\
    balance u = round2 (match initialBalance with
                        | Some b => b
                        | None => INITIAL_BALANCE env
                        end) /\
    validate_User u = [] /\
    Transactions s' = Transactions s /\
    acct = walletService.account_of u.
Proof.
  unfold walletService.createAccount, bind, User_findOne_email.
  destruct (find _ (Users s)) as [v|]; [discriminate|].
  unfold new_User, new_ObjectId, bind, ret, User_save. simpl.
  destruct (validate_User _) as [|bad rest] eqn:Hval; [|discriminate].
  destruct (existsb _ (Users s)); [discriminate|].
  intros H. injection H as <- <-. eexists. simpl.
  repeat split; try reflexivity. exact Hval.
Qed.

(** Trimming and lower case: normalizing twice is normalizing once. *)
Lemma lower_space (c : ascii) : is_space (lower c) = is_space c.
Proof. destruct c as [[] [] [] [] [] [] [] []]; reflexivity. Qed.

Lemma lower_idem (c : ascii) : lower (lower c) = lower c.
Proof. destruct c as [[] [] [] [] [] [] [] []]; reflexivity. Qed.

Lemma toLowerCase_idem (x : string) :
  toLowerCase (toLowerCase x) = toLowerCase x.
Proof.
  induction x as [|c rest IH]; [reflexivity|].
  simpl. now rewrite lower_idem, IH.
Qed.

Lemma trimStart_lower (x : string) :
  trimStart (toLowerCase x) = toLowerCase (trimStart x).
Proof.
  induction x as [|c rest IH]; [reflexivity|].
  simpl. rewrite lower_space. now destruct (is_space c).
Qed.

Lemma trimEnd_lower (x : string) :
  trimEnd (toLowerCase x) = toLowerCase (trimEnd x).
Proof.
  induction x as [|c rest IH]; [reflexivity|].
  simpl. rewrite IH, lower_space.
  destruct (trimEnd rest); simpl; [now destruct (is_space c)|reflexivity].
Qed.

Lemma trimEnd_idem (x : string) : trimEnd (trimEnd x) = trimEnd x.
Proof.
  induction x as [|c rest IH]; [reflexivity|].
  simpl. destruct (trimEnd rest) as [|d r] eqn:Hr.
  - destruct (is_space c) eqn:Hc; [reflexivity|]. simpl. now rewrite Hc.
  - change (trimEnd (String c (String d r))) with
      (match trimEnd (String d r) with
       | EmptyString => if is_space c then EmptyString else String c EmptyString
       | rest' => String c rest'
       end).
    now rewrite IH.
Qed.

(** A string that does not start with white space. *)
Lemma trimStart_head (x : string) :
  match trimStart x with
  | String c _ => is_space c = false
  | EmptyString => True
  end.
Proof.
  induction x as [|c rest IH]; [exact I|].
  simpl. destruct (is_space c) eqn:Hc; [exact IH|exact Hc].
Qed.

Lemma trimStart_trimEnd (c : ascii) (x : string) :
  is_space c = false ->
  trimStart (trimEnd (String c x)) = trimEnd (String c x).
Proof.
  intros Hc. simpl. destruct (trimEnd x); rewrite ?Hc; simpl; now rewrite Hc.
Qed.

Lemma trim_idem (x : string) : trim (trim x) = trim x.
Proof.
  unfold trim. pose proof (trimStart_head x) as Hh.
  destruct (trimStart x) as [|c rest]; [reflexivity|].
  rewrite (trimStart_trimEnd c rest Hh). apply trimEnd_idem.
Qed.

Lemma trim_lower (x : string) : trim (toLowerCase x) = toLowerCase (trim x).
Proof. unfold trim. now rewrite trimStart_lower, trimEnd_lower. Qed.

Lemma normalized_idem (e : string) : normalized (normalized e) = normalized e.
Proof.
  unfold normalized. now rewrite trim_lower, trim_idem, toLowerCase_idem.
Qed.

(** The addresses stay in normal form: the accounts [createAccount] stores
    have the address it normalized. *)
Lemma createAccount_emails_normalized (name e : string)
    (initialBalance : option num) (s s' : State num)
    (r : completion (Account num)) :
  emails_normalized s ->
  walletService.createAccount env name e initialBalance s = (r, s') ->
  emails_normalized s'.
Proof.
  intros Hn Hrun. destruct r as [acct|err].
  - destruct (createAccount_success _ _ _ _ _ _ Hrun)
      as [u [Hus [_ [_ [He _]]]]].
    unfold emails_normalized. rewrite Hus. apply Forall_app. split; [exact Hn|].
    constructor; [|constructor]. rewrite He. apply normalized_idem.
  - revert Hrun.
    unfold walletService.createAccount, bind, User_findOne_email.
    destruct (find _ (Users s)) as [v|].
    + unfold throw. intros H. injection H as _ <-. exact Hn.
    + unfold new_User, new_ObjectId, bind, ret, User_save. simpl.
      destruct (validate_User _) as [|bad rest].
      * destruct (existsb _ (Users s)); [|discriminate].
        intros H. injection H as _ <-. exact Hn.
      * intros H. injection H as _ <-. exact Hn.
Qed.

(** C8.  In a store whose addresses are in normal form, as [createAccount]
    leaves them, [createAccount] fails with 'User with this email already
    exists', writing nothing, whenever some account has the normal form of
    the new address (the address trimmed and in lower case): so when the
    two addresses differ only in the case of their letters.  The stored
    addresses are in normal form again after [createAccount], whatever its
    outcome. *)
Theorem createAccount_rejects_duplicate_email :
  forall (name e : string) (initialBalance : option num) (s : State num),
    emails_normalized s ->
    (forall u,
        In u (Users s) ->
        normalized (email u) = normalized e ->
        walletService.createAccount env name e initialBalance s
        = (Throw (new_Error "User with this email already exists"), s)) /\
    (forall r s',
        walletService.createAccount env name e initialBalance s = (r, s') ->
        emails_normalized s').
Proof.
  intros name e initialBalance s Hn. split.
  - intros u Hin Hsame.
    apply (createAccount_duplicate name e initialBalance s u Hin).
    unfold emails_normalized in Hn. rewrite Forall_forall in Hn.
    rewrite <- (Hn u Hin). exact Hsame.
  - intros r s'. now apply createAccount_emails_normalized.
Qed.
End Creation.

(** C8, a witness on an address with a letter of Latin-1: after an account
    was created for elan@example.com, written with an acute accent on the
    first letter, the address in capital letters is refused and the
    accounts are as they were. *)
Lemma createAccount_rejects_duplicate_email_witness :
  exists (acct : Account float) (s1 : State float),
    walletService.createAccount (mkEnv 100%float false) "Alice"
      (String e_acute "lan@example.com") (Some (dec 10000)) (mkState [] [] 10)
    = (Return acct, s1) /\
    List.length (Users s1) = 1%nat /\
    walletService.createAccount (mkEnv 100%float false) "Alice Clone"
      (String E_acute "LAN@Example.COM") (Some (dec 5000)) s1
    = (Throw (new_Error "User with this email already exists"), s1).
Proof.
  eexists. eexists. split; [vm_compute; reflexivity|].
  split; [reflexivity|].
  destruct (createAccount_rejects_duplicate_email (mkEnv 100%float false)
              "Alice Clone" (String E_acute "LAN@Example.COM")
              (Some (dec 5000))
              (mkState
                 [mkUser 10%N "Alice" (String e_acute "lan@example.com")
                    (dec 10000)] [] 11)) as [Hdup _].
  - constructor; [vm_compute; reflexivity|constructor].
  - apply (Hdup (mkUser 10%N "Alice" (String e_acute "lan@example.com")
                   (dec 10000))).
    + now left.
    + vm_compute. reflexivity.
Defined.

(* ================================================================== *)
(** * C9: an amount that rounds to zero *)

Lemma Qround2_nonneg (v : Q) : (0 <= v)%Q -> (0 <= Qround2 v)%Q.
Proof.
  intros Hv. rewrite Qround2_is_hundredths.
  assert (Hn : (0 <= Qfloor (v * 100 + (1 # 2)))%Z).
  { change 0%Z with (Qfloor 0). apply Qfloor_resp_le.
    assert (0 <= v * 100)%Q
      by (apply Qmult_le_0_compat; [assumption|discriminate]).
    lra. }
  set (n := Qfloor (v * 100 + (1 # 2))) in *.
  unfold Qle. simpl. lia.
Qed.

Lemma xeq_refl (a : xnum) : xeq a a.
Proof. destruct a; simpl; auto. reflexivity. Qed.

Lemma xeq_trans (a b c : xnum) : xeq a b -> xeq b c -> xeq a c.
Proof.
  destruct a, b, c; simpl; try tauto; try congruence.
  intros H1 H2. now rewrite H1.
Qed.

Lemma xadd_null (b : xnum) (r : Q) : (r == 0)%Q -> xeq (xadd b (XFin r)) b.
Proof.
  intros Hr. destruct b; simpl; auto. rewrite Hr. ring.
Qed.

Lemma same_balances_refl (s : State xnum) : same_balances s s.
Proof.
  unfold same_balances. induction (Users s); constructor; auto.
  repeat split; auto. apply xeq_refl.
Qed.

Lemma same_balances_trans (s1 s2 s3 : State xnum) :
  same_balances s1 s2 -> same_balances s2 s3 -> same_balances s1 s3.
Proof.
  unfold same_balances. generalize (Users s1) (Users s2) (Users s3).
  intros l1 l2 l3 H12. revert l3.
  induction H12 as [|u v l1' l2' Huv _ IH]; intros l3 H23;
    inversion H23; subst; constructor.
  - destruct Huv as [? [? [? ?]]].
    match goal with H : _ /\ _ |- _ => destruct H as [? [? [? ?]]] end.
    repeat split; try congruence. eapply xeq_trans; eassumption.
  - now apply IH.
Qed.

(** An update by a null increment keeps every balance. *)
Lemma update_null_increment (query : User xnum -> bool) (r : Q)
    (us us' : list (User xnum)) (u' : User xnum) :
  (r == 0)%Q ->
  findOneAndUpdate query (inc_balance (XFin r)) us = Some (u', us') ->
  Forall2 (fun u v => _id v = _id u /\ name_ v = name_ u /\ email v = email u /\
                      xeq (balance v) (balance u)) us us'.
Proof.
  intros Hr. revert us' u'. induction us as [|u rest IH]; simpl; intros us' u'.
  - discriminate.
  - destruct (query u).
    + intros H. injection H as <- <-. constructor.
      * repeat split. simpl. now apply xadd_null.
      * clear. induction rest; constructor; auto.
        repeat split. apply xeq_refl.
    + destruct (findOneAndUpdate query _ rest) as [[w rest']|]; [|discriminate].
      intros H. injection H as <- <-. constructor.
      * repeat split. apply xeq_refl.
      * now apply (IH rest' w).
Qed.

Lemma updateBalance_null_increment (userId : string) (delta : xnum) (r : Q)
    (s s' : State xnum) (u' : User xnum) :
  round2 delta = XFin r -> (r == 0)%Q ->
  updateBalance userId delta s = (Return u', s') ->
  same_balances s s' /\ Transactions s' = Transactions s.
Proof.
  intros Hd Hr. unfold updateBalance. fold (round2 delta). rewrite Hd.
  destruct (castObjectId userId) as [oid|]; [|discriminate]. simpl.
  destruct (findOneAndUpdate _ _ _) as [[w us']|] eqn:Hup; [|discriminate].
  intros H. injection H as <- <-. split; [|reflexivity].
  unfold same_balances. simpl. eapply update_null_increment; eassumption.
Qed.

(** A transaction whose only fault is an amount below 0.01. *)
Lemma validate_Transaction_amount_low {num : Type} {JSN : JSNumber num}
    (t : Transaction num) :
  is_some (fromUserId t) = true -> is_some (toUserId t) = true ->
  isNaN (amount t) = false -> (amount t >=? cent)%num = false ->
  (String.length (description t) <=? 500)%nat = true ->
  validate_Transaction t = [("amount", "Amount must be greater than 0")].
Proof.
  intros H1 H2 H3 H4 H5. unfold validate_Transaction, first_failure. simpl.
  now rewrite H1, H2, H3, H4, H5.
Qed.

(** C9.  Let [a > 0] round to 0.00, between two different existing accounts,
    the sender's balance not negative, the description within its limit.
    The positivity check of [transferMoney] accepts [a]; the rounded amount
    is zero; the debit and the credit both succeed and leave every balance
    as it was; and the call throws the validation error of the transaction's
    amount, with no transaction written. *)
Theorem amount_rounding_to_zero_fails_at_the_ledger :
  forall (env : Env xnum) (from to : string) (sf rt : ObjectId) (a : Q)
         (desc : string) (s : State xnum) (f t : User xnum) (bf : Q),
    castObjectId from = Some sf ->
    castObjectId to = Some rt ->
    sf <> rt ->
    lookup sf s = Some f ->
    lookup rt s = Some t ->
    balance f = XFin bf -> (0 <= bf)%Q ->
    (String.length (trim desc) <= 500)%nat ->
    (0 < a)%Q -> (Qround2 a == 0)%Q ->
    (XFin a <=? zero)%num = false /\
    xeq (round2 (XFin a)) zero /\
    (exists u1 s1 u2 s2,
        updateBalance from (- round2 (XFin a))%num s = (Return u1, s1) /\
        updateBalance to (round2 (XFin a)) s1 = (Return u2, s2) /\
        same_balances s s2) /\
    (exists s',
        walletService.transferMoney env from to (XFin a) desc s
        = (Throw (ValidationError "Transaction"
                    [("amount", "Amount must be greater than 0")]), s') /\
        same_balances s s' /\ Transactions s' = Transactions s).
Proof.
  intros env from to sf rt a desc s f t bf Hf Ht Hne Hlf Hlt Hbf Hbf0 Hdesc
         Ha Hzero.
  assert (Hstr : from <> to) by (intros ->; congruence).
  assert (Hpos : (XFin a <=? zero)%num = false)
    by (simpl; now apply Qleb_false).
  pose proof (Qround2_opp_round a) as Hopp.
  pose proof (Qround2_idem a) as Hidem.
  assert (Hr1 : (Qround2 (- Qround2 a) == 0)%Q) by lra.
  assert (Hr2 : (Qround2 (Qround2 a) == 0)%Q) by lra.
  (* the debit *)
  destruct (updateBalance_applied from (- round2 (XFin a))%num s sf f Hf Hlf)
    as [s1 [Hdebit [Hl1 [Hoth1 [Hids1 [Htx1 Hn1]]]]]].
  { reflexivity. }
  { left. change (Qltb (Qround2 (- Qround2 a)) 0 = false).
    apply Qltb_false. lra. }
  assert (Hlt1 : lookup rt s1 = Some t)
    by (rewrite (Hoth1 rt (not_eq_sym Hne)); exact Hlt).
  (* the credit *)
  destruct (updateBalance_applied to (round2 (XFin a)) s1 rt t Ht Hlt1)
    as [s2 [Hcredit [Hl2 [Hoth2 [Hids2 [Htx2 Hn2]]]]]].
  { reflexivity. }
  { left. change (Qltb (Qround2 (Qround2 a)) 0 = false).
    apply Qltb_false. lra. }
  assert (He1 : round2 (- round2 (XFin a))%num = XFin (Qround2 (- Qround2 a)))
    by reflexivity.
  assert (He2 : round2 (round2 (XFin a)) = XFin (Qround2 (Qround2 a)))
    by reflexivity.
  destruct (updateBalance_null_increment from (- round2 (XFin a))%num
              (Qround2 (- Qround2 a)) s s1 _ He1 Hr1 Hdebit) as [Hsame1 _].
  destruct (updateBalance_null_increment to (round2 (XFin a))
              (Qround2 (Qround2 a)) s1 s2 _ He2 Hr2 Hcredit) as [Hsame2 _].
  pose proof (same_balances_trans _ _ _ Hsame1 Hsame2) as Hsame.
  split; [exact Hpos|]. split; [exact Hzero|].
  split; [do 4 eexists; repeat split; eassumption|].
  (* the whole call *)
  set (tx := mkTransaction (next_ObjectId s2) (Some sf) (Some rt)
               (round2 (round2 (XFin a))) SUCCESS (trim desc)).
  assert (Hval : validate_Transaction tx
                 = [("amount", "Amount must be greater than 0")]).
  { apply validate_Transaction_amount_low; try reflexivity.
    - change (Qleb (1 # 100) (Qround2 (Qround2 a)) = false).
      apply Qleb_false. lra.
    - now apply Nat.leb_le. }
  assert (Hdcr : walletService.debit_credit_record from to (round2 (XFin a))
                   desc s
                 = (Throw (ValidationError "Transaction"
                             [("amount", "Amount must be greater than 0")]),
                    mkState (Users s2) (Transactions s2)
                      (N.succ (next_ObjectId s2)))).
  { rewrite (debit_credit_record_checks from to sf rt _ desc s Hf Ht).
    rewrite Hlf, Hlt.
    assert (Hchk : (get_balance f <? round2 (XFin a))%num = false).
    { unfold get_balance. rewrite Hbf.
      change (Qltb (Qround2 bf) (Qround2 a) = false).
      apply Qltb_false. pose proof (Qround2_nonneg bf Hbf0). lra. }
    rewrite Hchk.
    rewrite (bind_Return _ _ _ _ _ Hdebit).
    rewrite (bind_Return _ _ _ _ _ Hcredit).
    unfold new_Transaction, new_ObjectId, Transaction_save, bind, ret.
    simpl fst. simpl snd. cbv beta iota. rewrite Hf, Ht.
    fold tx. now rewrite Hval. }
  rewrite (transferMoney_checked env from to sf rt (XFin a) desc s Hf Ht Hstr Hpos).
  destruct (supportsTransactions env).
  - unfold walletService._transferWithTransaction. rewrite Hdcr.
    eexists. split; [reflexivity|].
    split; [exact (same_balances_refl s)|reflexivity].
  - unfold walletService._transferWithAtomicOps.
    rewrite (bind_Throw _ _ _ _ _ Hdcr).
    eexists. split; [reflexivity|]. split; [exact Hsame|].
    simpl. now rewrite Htx2, Htx1.
Qed.

(** C9, a witness: 0.004 from Alice to Bob. *)
Lemma amount_rounding_to_zero_fails_at_the_ledger_witness :
  (XFin (4 # 1000) <=? zero)%num = false /\
  exists s',
    walletService.transferMoney (mkEnv (XFin 100) false) alice bob
      (XFin (4 # 1000)) "" (accounts (XFin 100) (XFin 50))
    = (Throw (ValidationError "Transaction"
                [("amount", "Amount must be greater than 0")]), s') /\
    same_balances (accounts (XFin 100) (XFin 50)) s' /\
    Transactions s' = [].
Proof.
  destruct (amount_rounding_to_zero_fails_at_the_ledger
              (mkEnv (XFin 100) false) alice bob 10%N 11%N (4 # 1000) ""
              (accounts (XFin 100) (XFin 50))
              (mkUser 10%N "Alice" "alice@example.com" (XFin 100))
              (mkUser 11%N "Bob" "bob@example.com" (XFin 50)) 100)
    as [Hpos [_ [_ Hcall]]];
    try reflexivity; try discriminate.
  - simpl. lia.
  - split; [exact Hpos | exact Hcall].
Defined.

(** The same call on binary64: the error comes from the ledger write, after
    both balances were rewritten with the values they had. *)
Example transfer_of_0_004 :
  walletService.transferMoney (mkEnv 100%float false) alice bob
    (PrimFloat.div 4%float 1000%float) "" (accounts (dec 10000) (dec 5000))
  = (Throw (ValidationError "Transaction"
              [("amount", "Amount must be greater than 0")]),
     mkState [ mkUser 10%N "Alice" "alice@example.com" (dec 10000);
               mkUser 11%N "Bob" "bob@example.com" (dec 5000) ] [] 13).
Proof. vm_compute. reflexivity. Qed.

(* ================================================================== *)
(** * C10: what a transfer stores *)

Lemma read_back_state {num : Type} {JSN : JSNumber num} (from to : string)
    (amt : num) (tx : Transaction num) (s s' : State num)
    (r : completion (TransferResult num)) :
  walletService.read_back from to amt tx s = (r, s') -> s' = s.
Proof.
  unfold walletService.read_back, bind, User_findById, ret, throw.
  destruct (castObjectId from); [|intros H; now injection H].
  destruct (castObjectId to); [|intros H; now injection H].
  destruct (find _ (Users s)); [destruct (find _ (Users s))|];
    intros H; now injection H.
Qed.

(** C10 fails on binary64: a transfer stores a balance that is no decimal
    with 2 fractional digits.  Alice holds 1.10 and Bob 0.10; 0.20 go from
    Alice to Bob, on either path.  The delta is rounded, the sum is not:
    Alice's stored balance is 1.1 - 0.2, a number strictly between 0.90 and
    0.91, and Bob's is 0.1 + 0.2, strictly between 0.30 and 0.31.  The getter
    hides it: the balances are reported as 0.90 and 0.30. *)
Theorem transfer_stores_a_sum_that_is_no_decimal :
  forall transactions : bool,
    exists (result : TransferResult float) (s' : State float) (a b : float),
      walletService.transferMoney (mkEnv 100%float transactions) alice bob
        (dec 20) "" (accounts (dec 110) (dec 10)) = (Return result, s') /\
      stored_balance 10%N s' = Some a /\
      stored_balance 11%N s' = Some b /\
      a = PrimFloat.add (dec 110) (PrimFloat.opp (dec 20)) /\
      b = PrimFloat.add (dec 10) (dec 20) /\
      PrimFloat.ltb (dec 90) a = true /\ PrimFloat.ltb a (dec 91) = true /\
      PrimFloat.ltb (dec 30) b = true /\ PrimFloat.ltb b (dec 31) = true /\
      party_balance (result_from result) = dec 90 /\
      party_balance (result_to result) = dec 30.
Proof.
  intros [|]; do 4 eexists;
    (split; [vm_compute; reflexivity|]);
    repeat split; vm_compute; reflexivity.
Qed.

(* ================================================================== *)
(** * C4: the thread machine against the sequential code *)

Section Machine.
Context {num : Type} {JSN : JSNumber num}.
Local Open Scope num_scope.

Lemma step_Called (t : Thread num) (s : State num) :
  stage t = Called ->
  isValid (arg_from t) = true -> isValid (arg_to t) = true ->
  String.eqb (arg_from t) (arg_to t) = false ->
  (arg_amount t <=? zero) = false ->
  step t s = advance t (User_findById (arg_from t) s) SenderRead.
Proof.
  intros Hst H1 H2 H3 H4. unfold step. now rewrite Hst, H1, H2, H3, H4.
Qed.

Lemma step_SenderRead (t : Thread num) (s : State num)
    (fromUser : option (User num)) :
  stage t = SenderRead fromUser ->
  step t s =
  advance t (User_findById (arg_to t) s)
    (fun toUser =>
       match fromUser, toUser with
       | None, _ => Finished (Throw (new_Error "Sender user not found"))
       | Some _, None => Finished (Throw (new_Error "Recipient user not found"))
       | Some f, Some _ =>
           if get_balance f <? round2 (arg_amount t)
           then Finished (Throw (new_Error "Insufficient balance"))
           else Checked
       end).
Proof. intros Hst. unfold step. now rewrite Hst. Qed.

Lemma step_Checked (t : Thread num) (s : State num) :
  stage t = Checked ->
  step t s =
  advance t (updateBalance (arg_from t) (- round2 (arg_amount t)) s)
    (fun _ => Debited).
Proof. intros Hst. unfold step. now rewrite Hst. Qed.

Lemma step_Debited (t : Thread num) (s : State num) :
  stage t = Debited ->
  step t s =
  advance t (updateBalance (arg_to t) (round2 (arg_amount t)) s)
    (fun _ => Credited).
Proof. intros Hst. unfold step. now rewrite Hst. Qed.

Lemma step_Credited (t : Thread num) (s : State num) :
  stage t = Credited ->
  step t s =
  advance t
    ((transaction <- new_Transaction (arg_from t) (arg_to t)
                       (round2 (arg_amount t)) SUCCESS (arg_description t) ;;
      Transaction_save transaction ;;
      ret transaction) s)
    Recorded.
Proof. intros Hst. unfold step. now rewrite Hst. Qed.

Lemma step_Recorded (t : Thread num) (s : State num) (tx : Transaction num) :
  stage t = Recorded tx ->
  step t s = advance t (User_findById (arg_from t) s) (ReadBack tx).
Proof. intros Hst. unfold step. now rewrite Hst. Qed.

Lemma step_ReadBack (t : Thread num) (s : State num) (tx : Transaction num)
    (updatedFromUser : option (User num)) :
  stage t = ReadBack tx updatedFromUser ->
  step t s =
  advance t (User_findById (arg_to t) s)
    (fun updatedToUser =>
       match updatedFromUser, updatedToUser with
       | Some f, Some u =>
           Finished (Return (mkTransferResult (transactionId tx)
                               (walletService.party_of f)
                               (walletService.party_of u)
                               (round2 (arg_amount t))))
       | _, _ =>
           Finished (Throw (mkError "TypeError"
              "Cannot read properties of null (reading '_id')"))
       end).
Proof. intros Hst. unfold step. now rewrite Hst. Qed.

Lemma step_Finished (t : Thread num) (s : State num)
    (c : completion (TransferResult num)) :
  stage t = Finished c -> step t s = (t, s).
Proof. intros Hst. unfold step. now rewrite Hst. Qed.

(** Each operation brings a thread nearer to its end. *)
Lemma step_remaining (t : Thread num) (s : State num) :
  (remaining (fst (step t s)) <= pred (remaining t))%nat.
Proof.
  unfold step, remaining.
  destruct (stage t) as [|fu| | | |tx|tx uf|c] eqn:Hst; simpl.
  - destruct (negb (isValid (arg_from t))); simpl; [lia|].
    destruct (negb (isValid (arg_to t))); simpl; [lia|].
    destruct (String.eqb (arg_from t) (arg_to t)); simpl; [lia|].
    destruct (arg_amount t <=? zero); simpl; [lia|].
    destruct (User_findById _ s) as [[u|e] s1]; simpl; lia.
  - destruct (User_findById _ s) as [[u|e] s1]; simpl; [|lia].
    destruct fu as [f|]; [|simpl; lia].
    destruct u as [u|]; [|simpl; lia].
    destruct (get_balance f <? _); simpl; lia.
  - destruct (updateBalance _ _ s) as [[u|e] s1]; simpl; lia.
  - destruct (updateBalance _ _ s) as [[u|e] s1]; simpl; lia.
  - match goal with |- context [bind ?m ?k s] =>
      destruct (bind m k s) as [[u|e] s1] end; simpl; lia.
  - destruct (User_findById _ s) as [[u|e] s1]; simpl; lia.
  - destruct (User_findById _ s) as [[u|e] s1]; simpl; [|lia].
    destruct uf as [f|]; [|simpl; lia].
    destruct u as [u|]; simpl; lia.
  - rewrite Hst. lia.
Qed.
End Machine.

Section Refinement.
Context {num : Type} {JSN : JSNumber num}.
Variable env : Env num.
Local Open Scope num_scope.

Lemma alone_finished (n : nat) (t : Thread num) (s : State num)
    (c : completion (TransferResult num)) :
  stage t = Finished c -> alone n t s = (t, s).
Proof.
  intros Hst. induction n as [|n IH]; simpl; [reflexivity|].
  now rewrite (step_Finished t s c Hst).
Qed.

Lemma alone_step (n : nat) (t t' : Thread num) (s s' : State num) :
  step t s = (t', s') -> alone (S n) t s = alone n t' s'.
Proof. simpl. now intros ->. Qed.

Lemma alone_S (n : nat) (t : Thread num) (s : State num) :
  alone (S n) t s = alone n (fst (step t s)) (snd (step t s)).
Proof. simpl. now destruct (step t s). Qed.

(** A thread run alone is the call of [transferMoney] on the path of the
    atomic operations: the thread ends with the outcome of the call, in the
    state the call leaves. *)
Lemma alone_is_transferMoney (from to : string) (requested : num)
    (desc : string) (s : State num) :
  supportsTransactions env = false ->
  alone 7 (call from to requested desc) s =
  (at_stage (call from to requested desc)
     (Finished (fst (walletService.transferMoney env from to requested desc s))),
   snd (walletService.transferMoney env from to requested desc s)).
Proof.
  intros Hmode. set (t := call from to requested desc).
  assert (Hfail : forall msg,
             step t s = (at_stage t (Finished (Throw (new_Error msg))), s) ->
             alone 7 t s = (at_stage t (Finished (Throw (new_Error msg))), s)).
  { intros msg Hstep. rewrite (alone_step _ _ _ _ _ Hstep).
    now apply alone_finished with (c := Throw (new_Error msg)). }
  unfold walletService.transferMoney.
  destruct (isValid from) eqn:H1; cbn [negb];
    [|apply Hfail; unfold step, t; simpl; now rewrite H1].
  destruct (isValid to) eqn:H2; cbn [negb];
    [|apply Hfail; unfold step, t; simpl; now rewrite H1, H2].
  destruct (String.eqb from to) eqn:H3;
    [apply Hfail; unfold step, t; simpl; now rewrite H1, H2, H3|].
  destruct (requested <=? zero) eqn:H4;
    [apply Hfail; unfold step, t; simpl; now rewrite H1, H2, H3, H4|].
  rewrite Hmode.
  apply isValid_cast in H1. destruct H1 as [sf Hf].
  apply isValid_cast in H2. destruct H2 as [rt Ht].
  assert (Hv1 : isValid from = true) by (apply isValid_cast; eauto).
  assert (Hv2 : isValid to = true) by (apply isValid_cast; eauto).
  unfold walletService._transferWithAtomicOps.
  change (Math_round (requested * hundred) / hundred) with (round2 requested).
  unfold bind.
  rewrite (debit_credit_record_checks from to sf rt _ desc s Hf Ht).
  (* findById(from) *)
  rewrite alone_S, (step_Called t s eq_refl Hv1 Hv2 H3 H4).
  change (arg_from t) with from.
  rewrite (User_findById_cast from sf s Hf). cbn [advance fst snd].
  (* findById(to) and the checks *)
  set (t1 := at_stage t (SenderRead (lookup sf s))).
  rewrite alone_S, (step_SenderRead t1 s (lookup sf s) eq_refl).
  change (arg_to t1) with to. change (arg_amount t1) with requested.
  rewrite (User_findById_cast to rt s Ht). cbn [advance fst snd].
  destruct (lookup sf s) as [f|];
    [|erewrite alone_finished; reflexivity].
  destruct (lookup rt s) as [r|];
    [|erewrite alone_finished; reflexivity].
  destruct (get_balance f <? round2 requested);
    [erewrite alone_finished; reflexivity|].
  (* the debit *)
  set (t2 := at_stage t1 Checked).
  rewrite alone_S, (step_Checked t2 s eq_refl).
  change (arg_from t2) with from. change (arg_amount t2) with requested.
  unfold bind.
  destruct (updateBalance from (- round2 requested) s) as [[u1|e1] s1];
    cbn [advance fst snd]; [|erewrite alone_finished; reflexivity].
  (* the credit *)
  set (t3 := at_stage t2 Debited).
  rewrite alone_S, (step_Debited t3 s1 eq_refl).
  change (arg_to t3) with to. change (arg_amount t3) with requested.
  destruct (updateBalance to (round2 requested) s1) as [[u2|e2] s2];
    cbn [advance fst snd]; [|erewrite alone_finished; reflexivity].
  (* the record *)
  set (t4 := at_stage t3 Credited).
  rewrite alone_S, (step_Credited t4 s2 eq_refl).
  change (arg_from t4) with from. change (arg_to t4) with to.
  change (arg_amount t4) with requested. change (arg_description t4) with desc.
  unfold bind.
  destruct (new_Transaction from to (round2 requested) SUCCESS desc s2)
    as [[tx0|e0] s2'];
    cbn [advance fst snd]; [|erewrite alone_finished; reflexivity].
  destruct (Transaction_save tx0 s2') as [[[]|e3] s3];
    cbn [advance fst snd ret]; [|erewrite alone_finished; reflexivity].
  (* the two reads *)
  set (t5 := at_stage t4 (Recorded tx0)).
  rewrite alone_S, (step_Recorded t5 s3 tx0 eq_refl).
  change (arg_from t5) with from.
  unfold walletService.read_back, bind.
  rewrite (User_findById_cast from sf s3 Hf).
  rewrite (User_findById_cast to rt s3 Ht). cbn [advance fst snd].
  set (t6 := at_stage t5 (ReadBack tx0 (lookup sf s3))).
  rewrite alone_S, (step_ReadBack t6 s3 tx0 _ eq_refl).
  change (arg_to t6) with to. change (arg_amount t6) with requested.
  rewrite (User_findById_cast to rt s3 Ht). cbn [advance fst snd alone].
  destruct (lookup sf s3) as [f'|]; [|reflexivity].
  destruct (lookup rt s3) as [r'|]; reflexivity.
Qed.
End Refinement.

(* ================================================================== *)
(** * C4: concurrent debits of one account *)

Lemma ids_of_identities {num : Type} (s : State num) :
  map _id (Users s) = map (fun p => fst (fst p)) (identities s).
Proof. unfold identities. rewrite map_map. now apply map_ext. Qed.

(** An account of a state is an account of every state with the same
    identities. *)
Lemma lookup_identities {num : Type} (s s' : State num) (o : ObjectId) :
  identities s = identities s' -> lookup o s' <> None -> lookup o s <> None.
Proof.
  intros Hids Hsome Hnone. apply Hsome. clear Hsome.
  apply (find_by_id_None o) in Hnone.
  rewrite ids_of_identities, Hids, <- ids_of_identities in Hnone.
  destruct (lookup o s') as [u|] eqn:Hu; [|reflexivity].
  exfalso. apply Hnone. apply (find_by_id_In o) in Hu.
  destruct Hu as [Hin Hid]. apply in_map_iff. now exists u.
Qed.

Lemma debits_set_nth {num : Type} (ts : list (Thread num)) (i : nat)
    (t t' : Thread num) :
  nth_error ts i = Some t ->
  (debits (set_nth i t' ts) + debit_unit t = debits ts + debit_unit t')%nat.
Proof.
  unfold debits, debit_unit. revert i.
  induction ts as [|u rest IH]; intros [|i]; simpl; try discriminate.
  - intros H. injection H as ->.
    destruct (debited t), (debited t'); simpl; lia.
  - intros H. specialize (IH i H).
    destruct (debited u); simpl; lia.
Qed.

Lemma set_nth_Forall {A : Type} (P : Thread A -> Prop) (ts : list (Thread A))
    (i : nat) (t' : Thread A) :
  Forall P ts -> P t' -> Forall P (set_nth i t' ts).
Proof.
  intros Hall Ht'. revert i.
  induction Hall as [|u rest Hu Hrest IH]; intros [|i]; simpl;
    try constructor; auto.
Qed.

#[local] Arguments Qround2 : simpl never.

Section Debits.
Context {num : Type} {JSN : JSNumber num}.
Local Open Scope num_scope.
Variable s0 : State num.
Variable from : string.
Variable sf : ObjectId.
Variable a0 : num.
Variable B : num.
Hypothesis Hfrom : castObjectId from = Some sf.
Hypothesis Hpos : (a0 <=? zero) = false.
Hypothesis HnanD : isNaN (debit_delta a0) = false.
Hypothesis HnanR : isNaN (credit_delta a0) = false.
Hypothesis Hcredit : (credit_delta a0 <? zero) = false.
Hypothesis Hcent : (credit_delta a0 >=? cent) = true.

Lemma recipient_ok_inv (to desc : string) :
  recipient_ok sf s0 (to, desc) = true ->
  exists rt,
    castObjectId to = Some rt /\ rt <> sf /\ lookup rt s0 <> None /\
    (String.length (trim desc) <= 500)%nat /\
    isValid to = true /\ String.eqb from to = false.
Proof.
  unfold recipient_ok. simpl. intros H. apply andb_prop in H.
  destruct H as [H1 H2].
  destruct (castObjectId to) as [rt|] eqn:Ht; [|discriminate].
  apply andb_prop in H1. destruct H1 as [Hne Hex].
  apply negb_true_iff, N.eqb_neq in Hne.
  exists rt. split; [reflexivity|]. split; [assumption|].
  split; [destruct (lookup rt s0); [discriminate|discriminate]|].
  split; [now apply Nat.leb_le|].
  split; [unfold isValid; now rewrite Ht|].
  apply String.eqb_neq. intros ->. congruence.
Qed.

(** One more debit, applied to a balance that covers it. *)
Lemma state_inv_debit (s s' : State num) (k : nat) (u : User num) :
  state_inv sf s0 (debit_delta a0) B s k ->
  lookup sf s = Some u ->
  covers (debit_delta a0) (balance u) = true ->
  lookup sf s' = Some (inc_balance (debit_delta a0) u) ->
  identities s' = identities s ->
  state_inv sf s0 (debit_delta a0) B s' (S k).
Proof.
  intros [Hnd [Hids [Hb Hcov]]] Hu Hc Hu' Hids'.
  unfold stored_balance in Hb. rewrite Hu in Hb. simpl in Hb.
  injection Hb as Hb.
  split; [exact (identities_unique s s' Hids' Hnd)|].
  split; [now rewrite Hids'|]. split.
  - unfold stored_balance. rewrite Hu'. simpl. now rewrite Hb.
  - intros j Hj. destruct (Nat.eq_dec j k) as [->|Hne].
    + now rewrite <- Hb.
    + apply Hcov. lia.
Qed.

(** A state with the same users satisfies the same invariant. *)
Lemma state_inv_users (s s' : State num) (k : nat) :
  Users s' = Users s ->
  state_inv sf s0 (debit_delta a0) B s k ->
  state_inv sf s0 (debit_delta a0) B s' k.
Proof.
  unfold state_inv, unique_ids, identities, stored_balance, lookup.
  now intros ->.
Qed.

(** One operation of one thread: the thread stays well-formed and the
    store keeps its invariant, with one more debit exactly when the thread
    passes from not having debited to having debited. *)
Lemma step_invariant (t : Thread num) (s : State num) (k : nat) :
  thread_ok from sf a0 s0 t ->
  state_inv sf s0 (debit_delta a0) B s k ->
  thread_ok from sf a0 s0 (fst (step t s)) /\
  state_inv sf s0 (debit_delta a0) B (snd (step t s))
    (k + debit_unit (fst (step t s)) - debit_unit t) /\
  (debit_unit t <= debit_unit (fst (step t s)))%nat.
Proof.
  intros [Hargf [Harga [Hrec Hst]]] Hinv.
  destruct (recipient_ok_inv _ _ Hrec)
    as [rt [Hto [Hne [Hex [Hdesc [Hvto Hstr]]]]]].
  pose proof Hinv as [Hnd [Hids [Hstored Hcov]]].
  destruct (stored_balance_lookup _ _ _ Hstored) as [u [Hu Hbal]].
  assert (Hrt : exists r, lookup rt s = Some r).
  { destruct (lookup rt s) as [r|] eqn:Hr; [now exists r|].
    exfalso. revert Hr. apply (lookup_identities s s0 rt Hids Hex). }
  destruct Hrt as [r Hr].
  assert (Hvfrom : isValid from = true) by (unfold isValid; now rewrite Hfrom).
  assert (Hsame : forall st,
             thread_ok from sf a0 s0 (at_stage t st) <-> stage_ok st).
  { intros st. unfold thread_ok. simpl. tauto. }
  assert (Hkeep : forall st s',
             debit_unit (at_stage t st) = debit_unit t ->
             state_inv sf s0 (debit_delta a0) B s' k ->
             state_inv sf s0 (debit_delta a0) B s'
               (k + debit_unit (at_stage t st) - debit_unit t) /\
             (debit_unit t <= debit_unit (at_stage t st))%nat).
  { intros st s' -> H. split; [|lia].
    replace (k + debit_unit t - debit_unit t)%nat with k by lia. exact H. }
  destruct (stage t) as [|fu| | | |tx|tx uf|c] eqn:Hstage.
  - (* findById(from) *)
    rewrite (step_Called t s Hstage); rewrite ?Hargf, ?Harga; try assumption.
    rewrite (User_findById_cast from sf s Hfrom), Hu. cbn [advance fst snd].
    split; [apply Hsame; exact I|].
    apply Hkeep; [|exact Hinv].
    unfold debit_unit, debited. now rewrite Hstage.
  - (* findById(to), the checks *)
    destruct fu as [f|]; [|contradiction].
    rewrite (step_SenderRead t s _ Hstage).
    rewrite (User_findById_cast _ rt s Hto), Hr. cbn [advance fst snd].
    split.
    + apply Hsame.
      destruct (get_balance f <? round2 (arg_amount t))%num; simpl; auto.
    + apply Hkeep; [|exact Hinv].
      unfold debit_unit, debited. rewrite Hstage.
      now destruct (get_balance f <? round2 (arg_amount t))%num.
  - (* the debit *)
    rewrite (step_Checked t s Hstage), Hargf, Harga.
    fold (debit_delta a0) in *.
    destruct (covers (debit_delta a0) (balance u)) eqn:Hguard.
    + destruct (updateBalance_applied from (- round2 a0)%num s sf u
                  Hfrom Hu HnanD) as [s' [Hrun [Hl [_ [Hids' _]]]]].
      { fold (debit_delta a0). unfold covers in Hguard.
        destruct (debit_delta a0 <? zero)%num; [now right|now left]. }
      rewrite Hrun. cbn [advance fst snd].
      split; [apply Hsame; exact I|].
      assert (E0 : debit_unit t = 0%nat)
        by (unfold debit_unit, debited; now rewrite Hstage).
      assert (E1 : debit_unit (at_stage t Debited) = 1%nat) by reflexivity.
      rewrite E0, E1. split; [|lia].
      replace (k + 1 - 0)%nat with (S k) by lia.
      now apply (state_inv_debit s s' k u).
    + unfold covers in Hguard.
      destruct (debit_delta a0 <? zero)%num eqn:Hneg; [|discriminate].
      rewrite (updateBalance_refused from (- round2 a0)%num s sf u
                 Hnd Hfrom Hu HnanD Hneg Hguard).
      cbn [advance fst snd]. split; [apply Hsame; reflexivity|].
      apply Hkeep; [|exact Hinv].
      unfold debit_unit, debited. now rewrite Hstage.
  - (* the credit *)
    rewrite (step_Debited t s Hstage), Harga.
    destruct (updateBalance_applied (arg_to t) (round2 a0) s rt r
                Hto Hr HnanR) as [s' [Hrun [_ [Hoth [Hids' _]]]]].
    { left. exact Hcredit. }
    rewrite Hrun. cbn [advance fst snd].
    split; [apply Hsame; exact I|].
    apply Hkeep; [unfold debit_unit, debited; now rewrite Hstage|].
    split; [exact (identities_unique s s' Hids' Hnd)|].
    split; [now rewrite Hids'|]. split; [|assumption].
    unfold stored_balance. now rewrite (Hoth sf (not_eq_sym Hne)).
  - (* the record *)
    rewrite (step_Credited t s Hstage), Hargf, Harga.
    unfold new_Transaction, new_ObjectId, Transaction_save, bind, ret.
    cbn [fst snd]. cbv beta iota. rewrite Hfrom, Hto.
    set (tx := mkTransaction _ _ _ _ _ _).
    assert (Hval : validate_Transaction tx = []).
    { apply validate_Transaction_ok. repeat split.
      - exact HnanR.
      - exact Hcent.
      - now apply Nat.leb_le. }
    rewrite Hval. cbn [advance fst snd].
    split; [apply Hsame; exact I|].
    apply Hkeep; [unfold debit_unit, debited; now rewrite Hstage|].
    now apply (state_inv_users s).
  - (* findById(from) again *)
    rewrite (step_Recorded t s tx Hstage), Hargf.
    rewrite (User_findById_cast from sf s Hfrom), Hu. cbn [advance fst snd].
    split; [apply Hsame; exact I|].
    apply Hkeep; [unfold debit_unit, debited; now rewrite Hstage|exact Hinv].
  - (* findById(to) again *)
    destruct uf as [f|]; [|contradiction].
    rewrite (step_ReadBack t s tx _ Hstage).
    rewrite (User_findById_cast _ rt s Hto), Hr. cbn [advance fst snd].
    split; [apply Hsame; exact I|].
    apply Hkeep; [unfold debit_unit, debited; now rewrite Hstage|exact Hinv].
  - (* finished *)
    rewrite (step_Finished t s c Hstage). cbn [fst snd].
    split; [unfold thread_ok; rewrite Hstage; auto|].
    split; [|lia].
    replace (k + debit_unit t - debit_unit t)%nat with k by lia. exact Hinv.
Qed.

Lemma schedule1_invariant (i : nat) (cfg : list (Thread num) * State num) :
  config_inv s0 from sf a0 B cfg ->
  config_inv s0 from sf a0 B (schedule1 i cfg).
Proof.
  intros [Hall Hinv]. unfold schedule1.
  destruct (nth_error (fst cfg) i) as [t|] eqn:Hnth; [|now split].
  assert (Ht : thread_ok from sf a0 s0 t).
  { rewrite Forall_forall in Hall. apply Hall.
    now apply nth_error_In with (n := i). }
  destruct (step_invariant t (snd cfg) _ Ht Hinv) as [Ht' [Hinv' Hmono]].
  pose proof (debits_set_nth (fst cfg) i t (fst (step t (snd cfg))) Hnth)
    as Hcount.
  destruct (step t (snd cfg)) as [t' s'] eqn:Hrun. cbn [fst snd] in *.
  split; [now apply set_nth_Forall|]. cbn [fst snd].
  replace (debits (set_nth i t' (fst cfg)))
    with (debits (fst cfg) + debit_unit t' - debit_unit t)%nat; [exact Hinv'|].
  assert (debit_unit t <= debits (fst cfg))%nat; [|lia].
  clear - Hnth. unfold debits, debit_unit. revert i Hnth.
  induction (fst cfg) as [|v rest IH]; intros [|i]; simpl; try discriminate.
  - intros H. injection H as ->. destruct (debited t); simpl; lia.
  - intros H. specialize (IH i H). destruct (debited v); simpl; lia.
Qed.

Lemma interleave_invariant (picks : list nat)
    (cfg : list (Thread num) * State num) :
  config_inv s0 from sf a0 B cfg ->
  config_inv s0 from sf a0 B (interleave picks cfg).
Proof.
  unfold interleave. revert cfg.
  induction picks as [|i rest IH]; intros cfg Hinv; simpl; [assumption|].
  apply IH. now apply schedule1_invariant.
Qed.

Lemma attempts_invariant (recipients : list (string * string)) :
  unique_ids s0 ->
  stored_balance sf s0 = Some B ->
  forallb (recipient_ok sf s0) recipients = true ->
  config_inv s0 from sf a0 B (attempts from a0 recipients, s0).
Proof.
  intros Hnd Hbal Hrec. split; cbn [fst snd].
  - unfold attempts. apply Forall_forall. intros t Hin.
    apply in_map_iff in Hin. destruct Hin as [[to desc] [<- Hin]].
    rewrite forallb_forall in Hrec. specialize (Hrec _ Hin).
    unfold thread_ok. simpl. auto.
  - assert (E : debits (attempts from a0 recipients) = 0%nat).
    { clear Hrec. unfold debits, attempts.
      induction recipients; simpl; auto. }
    rewrite E. repeat split; try assumption. intros j Hj. lia.
Qed.
End Debits.

(* ------------------------------------------------------------------ *)
(** ** Every thread can be run to its end *)

Section Fairness.
Context {num : Type} {JSN : JSNumber num}.

Lemma set_nth_length (i : nat) (t : Thread num) (ts : list (Thread num)) :
  List.length (set_nth i t ts) = List.length ts.
Proof.
  revert i. induction ts as [|u rest IH]; intros [|i]; simpl; auto.
Qed.

Lemma set_nth_same (i : nat) (t u : Thread num) (ts : list (Thread num)) :
  nth_error ts i = Some u -> nth_error (set_nth i t ts) i = Some t.
Proof.
  revert i. induction ts as [|v rest IH]; intros [|i]; simpl;
    try discriminate; auto.
Qed.

Lemma set_nth_other (i j : nat) (t : Thread num) (ts : list (Thread num)) :
  i <> j -> nth_error (set_nth i t ts) j = nth_error ts j.
Proof.
  revert i j. induction ts as [|v rest IH]; intros [|i] [|j] Hne; simpl;
    try reflexivity; try congruence.
  apply IH. congruence.
Qed.

Lemma schedule1_length (i : nat) (cfg : list (Thread num) * State num) :
  List.length (fst (schedule1 i cfg)) = List.length (fst cfg).
Proof.
  unfold schedule1. destruct (nth_error (fst cfg) i) as [t|]; [|reflexivity].
  destruct (step t (snd cfg)). simpl. apply set_nth_length.
Qed.

Lemma interleave_length (picks : list nat)
    (cfg : list (Thread num) * State num) :
  List.length (fst (interleave picks cfg)) = List.length (fst cfg).
Proof.
  unfold interleave. revert cfg.
  induction picks as [|i rest IH]; intros cfg; simpl; [reflexivity|].
  now rewrite IH, schedule1_length.
Qed.

Lemma schedule1_other (i j : nat) (cfg : list (Thread num) * State num) :
  i <> j ->
  nth_error (fst (schedule1 i cfg)) j = nth_error (fst cfg) j.
Proof.
  intros Hne. unfold schedule1.
  destruct (nth_error (fst cfg) i) as [t|]; [|reflexivity].
  destruct (step t (snd cfg)). simpl. now apply set_nth_other.
Qed.

Lemma finished_remaining (t : Thread num) :
  finished t = true <-> remaining t = 0%nat.
Proof.
  unfold finished, remaining. destruct (stage t); split; congruence.
Qed.

(** Picking a thread [n] times leaves it with at most [remaining - n]
    operations, and leaves every other thread as it was. *)
Lemma repeat_pick (i n : nat) (cfg : list (Thread num) * State num)
    (t : Thread num) :
  nth_error (fst cfg) i = Some t ->
  (exists t', nth_error (fst (interleave (repeat i n) cfg)) i = Some t' /\
              (remaining t' <= remaining t - n)%nat) /\
  (forall j, j <> i ->
             nth_error (fst (interleave (repeat i n) cfg)) j
             = nth_error (fst cfg) j).
Proof.
  unfold interleave. revert cfg t.
  induction n as [|n IH]; intros cfg t Hnth; simpl.
  - split; [exists t; split; [assumption|lia]|reflexivity].
  - assert (Hnext : nth_error (fst (schedule1 i cfg)) i
                    = Some (fst (step t (snd cfg)))).
    { unfold schedule1. rewrite Hnth.
      destruct (step t (snd cfg)) as [t1 s1]. simpl.
      now apply set_nth_same with (u := t). }
    destruct (IH (schedule1 i cfg) _ Hnext) as [[t' [Ht' Hrem]] Hoth].
    split.
    + exists t'. split; [assumption|].
      pose proof (step_remaining t (snd cfg)). lia.
    + intros j Hj. rewrite (Hoth j Hj). now apply schedule1_other.
Qed.

Lemma interleave_app (p q : list nat) (cfg : list (Thread num) * State num) :
  interleave (p ++ q) cfg = interleave q (interleave p cfg).
Proof. unfold interleave. apply fold_left_app. Qed.

(** Running the threads one after another finishes the first [k]. *)
Lemma one_after_another_prefix (k : nat) (ts : list (Thread num))
    (s : State num) :
  (k <= List.length ts)%nat ->
  forall j, (j < k)%nat ->
    exists t, nth_error (fst (interleave (one_after_another k) (ts, s))) j
              = Some t /\ finished t = true.
Proof.
  unfold one_after_another. induction k as [|k IH]; intros Hk j Hj; [lia|].
  rewrite seq_S, map_app, concat_app. cbn [map List.concat Nat.add].
  rewrite app_nil_r.
  rewrite interleave_app.
  set (cfg := interleave (List.concat (map (fun i => repeat i 7) (seq 0 k)))
                (ts, s)) in *.
  assert (Hlen : List.length (fst cfg) = List.length ts)
    by apply interleave_length.
  destruct (nth_error (fst cfg) k) as [tk|] eqn:Hnth;
    [|apply nth_error_None in Hnth; lia].
  destruct (repeat_pick k 7 cfg tk Hnth) as [[t' [Ht' Hrem]] Hoth].
  destruct (Nat.eq_dec j k) as [->|Hne].
  - exists t'. split; [assumption|]. apply finished_remaining.
    assert (remaining tk <= 7)%nat
      by (unfold remaining; destruct (stage tk); lia).
    lia.
  - rewrite (Hoth j Hne). apply IH; lia.
Qed.

(** There is an interleaving in which every thread finishes. *)
Lemma one_after_another_finishes (ts : list (Thread num)) (s : State num) :
  forallb finished
    (fst (interleave (one_after_another (List.length ts)) (ts, s))) = true.
Proof.
  apply forallb_forall. intros t Hin.
  apply In_nth_error in Hin. destruct Hin as [j Hj].
  assert (Hlt : (j < List.length ts)%nat).
  { pose proof (interleave_length (one_after_another (List.length ts)) (ts, s))
      as Hl. cbn [fst] in Hl. rewrite <- Hl.
    apply nth_error_Some. congruence. }
  destruct (one_after_another_prefix (List.length ts) ts s (le_n _) j Hlt)
    as [t' [Ht' Hfin]].
  congruence.
Qed.
End Fairness.

(* ------------------------------------------------------------------ *)
(** ** The theorem *)

Lemma successes_le_debits {num : Type} (ts : list (Thread num)) :
  (successes ts <= debits ts)%nat.
Proof.
  unfold successes, debits, succeeded, debited.
  induction ts as [|t rest IH]; simpl; [lia|].
  destruct (stage t) as [| | | | | | |[r|e]]; simpl; lia.
Qed.

Lemma finished_debits {num : Type} (ts : list (Thread num)) :
  forallb finished ts = true -> debits ts = successes ts.
Proof.
  unfold successes, debits, succeeded, debited, finished.
  induction ts as [|t rest IH]; simpl; [reflexivity|].
  intros H. apply andb_prop in H. destruct H as [Ht Hrest].
  specialize (IH Hrest).
  destruct (stage t) as [| | | | | | |[r|e]]; try discriminate; simpl; lia.
Qed.

Lemma floor_bound (n : nat) (a B : Q) :
  (0 < a)%Q -> (a * inject_Z (Z.of_nat n) <= B)%Q ->
  (Z.of_nat n <= Qfloor (B / a))%Z.
Proof.
  intros Ha H. rewrite <- (Qfloor_Z (Z.of_nat n)). apply Qfloor_resp_le.
  apply Qle_shift_div_l; [assumption|]. now rewrite Qmult_comm.
Qed.

(** Concurrent debits of one account are serialized.  Any number of
    transfers out of one account, each for the same amount and each to
    another existing account, with a description of at most 500 characters,
    run concurrently on the path of the atomic operations: their database
    operations interleave in an arbitrary order [picks].  The amount passes
    the amount checks: it is greater than 0, its debit and credit increments
    are numbers, and the credit increment is not negative and at least 0.01.
    Then at every point of every interleaving, [k] attempts having debited:
    the sender's stored balance is its initial balance after [k] debits, one
    applied after the other; each of them was applied to a balance that
    covered it; at most [k] attempts have succeeded; every attempt that
    finished without succeeding failed with 'Insufficient balance'; once
    all attempts have finished those that debited are those that succeeded;
    and an interleaving in which all attempts finish exists. *)
Theorem concurrent_debits_are_serialized :
  forall (num : Type) (JSN : JSNumber num) (s0 : State num) (from : string)
         (sf : ObjectId) (requested B : num)
         (recipients : list (string * string)) (picks : list nat),
    unique_ids s0 ->
    castObjectId from = Some sf ->
    stored_balance sf s0 = Some B ->
    (requested <=? zero)%num = false ->
    isNaN (debit_delta requested) = false ->
    isNaN (credit_delta requested) = false ->
    (credit_delta requested <? zero)%num = false ->
    (credit_delta requested >=? cent)%num = true ->
    forallb (recipient_ok sf s0) recipients = true ->
    let start := (attempts from requested recipients, s0) in
    let final := interleave picks start in
    stored_balance sf (snd final)
    = Some (after_increments (debits (fst final)) (debit_delta requested) B) /\
    (forall j, (j < debits (fst final))%nat ->
               covers (debit_delta requested)
                 (after_increments j (debit_delta requested) B) = true) /\
    (successes (fst final) <= debits (fst final))%nat /\
    (forall t, In t (fst final) -> finished t = true ->
               succeeded t = true \/
               failed_with "Insufficient balance" t = true) /\
    (forallb finished (fst final) = true ->
     debits (fst final) = successes (fst final)) /\
    List.length (fst final) = List.length recipients /\
    forallb finished
      (fst (interleave (one_after_another (List.length recipients)) start))
    = true.
Proof.
  intros num JSN s0 from sf requested B recipients picks Hnd Hfrom Hbal
         Hpos HnanD HnanR Hcredit Hcent Hrec start final.
  pose proof (interleave_invariant s0 from sf requested B Hfrom Hpos HnanD
                HnanR Hcredit Hcent picks start
                (attempts_invariant s0 from sf requested B recipients
                   Hnd Hbal Hrec)) as [Hall [_ [_ [Hstored Hcov]]]].
  fold final in Hall, Hstored, Hcov.
  assert (Hlen : List.length (attempts from requested recipients)
                 = List.length recipients)
    by (unfold attempts; apply length_map).
  split; [exact Hstored|]. split; [exact Hcov|].
  split; [apply successes_le_debits|]. split; [|split; [|split]].
  - intros t Hin Hfin. rewrite Forall_forall in Hall.
    destruct (Hall t Hin) as [_ [_ [_ Hst]]].
    unfold finished, succeeded, failed_with in *.
    destruct (stage t) as [| | | | | | |[r|e]]; try discriminate.
    + now left.
    + right. simpl in Hst. now rewrite Hst.
  - apply finished_debits.
  - unfold final. rewrite interleave_length. exact Hlen.
  - rewrite <- Hlen. apply one_after_another_finishes.
Qed.

(** A witness on binary64: Alice holds 100 and three transfers of 40 race;
    all three pass the balance check on the balance 100 they read, two
    debits are applied, the third is refused by the conditional update, and
    Alice is left with 20. *)
Lemma concurrent_debits_are_serialized_witness :
  map (fun t => (succeeded t, failed_with "Insufficient balance" t))
    (fst (interleave race_picks
            (attempts alice (dec 4000) race_recipients,
             accounts (dec 10000) (dec 5000))))
  = [(true, false); (true, false); (false, true)] /\
  stored_balance 10%N
    (snd (interleave race_picks
            (attempts alice (dec 4000) race_recipients,
             accounts (dec 10000) (dec 5000))))
  = Some (dec 2000).
Proof.
  destruct (concurrent_debits_are_serialized float _
              (accounts (dec 10000) (dec 5000)) alice 10%N (dec 4000)
              (dec 10000) race_recipients race_picks)
    as [Hb _].
  - unfold unique_ids. simpl.
    constructor; [simpl; intros [H|[]]; discriminate|].
    constructor; [intros []|constructor].
  - reflexivity.
  - reflexivity.
  - vm_compute. reflexivity.
  - vm_compute. reflexivity.
  - vm_compute. reflexivity.
  - vm_compute. reflexivity.
  - vm_compute. reflexivity.
  - reflexivity.
  - split; [vm_compute; reflexivity|].
    rewrite Hb. vm_compute. reflexivity.
Defined.

(** On exact numbers the balance after [k] increments is [B + k * d]. *)
Lemma after_increments_exact (k : nat) (d B : Q) :
  exists q,
    after_increments k (XFin d) (XFin B) = XFin q /\
    (q == B + inject_Z (Z.of_nat k) * d)%Q.
Proof.
  induction k as [|k [q [Hq Hsum]]].
  - exists B. split; [reflexivity|]. simpl. change (inject_Z 0) with 0%Q. lra.
  - exists (q + d)%Q. split; [simpl; now rewrite Hq|].
    rewrite Nat2Z.inj_succ, <- Z.add_1_r, inject_Z_plus.
    change (inject_Z 1) with 1%Q. lra.
Qed.

(** The invariant of the concurrent debits, read on exact numbers, is what
    the specification says: when each of [k] debits of an amount that
    rounds to [a >= 0.01] was applied to a balance that covered it, [k] is at
    most [floor (B / a)], and the balance after them is [B - a * k]. *)
Lemma exact_debits_floor (requested B : Q) (k : nat) :
  (0 <= B)%Q ->
  (1 # 100 <= Qround2 requested)%Q ->
  (forall j, (j < k)%nat ->
             covers (debit_delta (XFin requested))
               (after_increments j (debit_delta (XFin requested)) (XFin B))
             = true) ->
  (Z.of_nat k <= Qfloor (B / Qround2 requested))%Z /\
  xeq (after_increments k (debit_delta (XFin requested)) (XFin B))
      (XFin (B - Qround2 requested * inject_Z (Z.of_nat k))).
Proof.
  intros HB Ha Hcov.
  change (debit_delta (XFin requested))
    with (XFin (Qround2 (- Qround2 requested))) in *.
  pose proof (Qround2_opp_round requested) as Hopp.
  set (d := Qround2 (- Qround2 requested)) in *.
  split.
  - apply floor_bound; [lra|].
    destruct k as [|k]; [simpl; change (inject_Z 0) with 0%Q; lra|].
    specialize (Hcov k (Nat.lt_succ_diag_r k)).
    destruct (after_increments_exact k d B) as [q [Hq Hsum]].
    rewrite Hq in Hcov. unfold covers in Hcov.
    assert (Hneg : (d < 0)%Q) by lra.
    change (if Qltb d 0 then Qleb (Qabs d) q else true) with
      (if Qltb d 0 then Qleb (Qabs d) q else true) in Hcov.
    assert (Hlt : Qltb d 0 = true) by now apply Qltb_true.
    change ((if Qltb d 0 then Qleb (Qabs d) q else true) = true) in Hcov.
    rewrite Hlt in Hcov. apply Qleb_true in Hcov.
    rewrite (Qabs_of_neg _ Hneg) in Hcov.
    assert (E : (inject_Z (Z.of_nat k) * d
                 == - (Qround2 requested * inject_Z (Z.of_nat k)))%Q)
      by (rewrite Hopp; ring).
    rewrite E in Hsum.
    rewrite Nat2Z.inj_succ, <- Z.add_1_r, inject_Z_plus.
    change (inject_Z 1) with 1%Q. lra.
  - destruct (after_increments_exact k d B) as [q [Hq Hsum]].
    rewrite Hq. simpl.
    assert (E : (inject_Z (Z.of_nat k) * d
                 == - (Qround2 requested * inject_Z (Z.of_nat k)))%Q)
      by (rewrite Hopp; ring).
    rewrite E in Hsum. lra.
Qed.

(** C4 fails on the path of the atomic operations, on binary64.  Alice holds
    100 and three transfers of 40 to Bob race, each with a description of
    501 characters: all three pass the balance check, two debits and two
    credits are applied and the third debit is refused; the two attempts
    that debited then fail the validation of their transaction.  No attempt
    has succeeded, two have failed with another error than 'Insufficient
    balance', and Alice is left with 20, not with 100: 80 have moved without
    a record.  And two transfers of 60 from Alice to herself, her identifier
    written in upper case, run one after the other, both succeed, where
    [floor (100 / 60)] is 1. *)
Theorem concurrent_attempts_fail_after_their_debit :
  (let final :=
     interleave race_picks
       (attempts alice (dec 4000)
          [(bob, long_description); (bob, long_description);
           (bob, long_description)],
        accounts (dec 10000) (dec 5000)) in
   map stage (fst final)
   = [ Finished (Throw (ValidationError "Transaction"
         [("description", "Description cannot exceed 500 characters")]));
       Finished (Throw (ValidationError "Transaction"
         [("description", "Description cannot exceed 500 characters")]));
       Finished (Throw (new_Error "Insufficient balance")) ] /\
   successes (fst final) = 0%nat /\
   snd final
   = mkState [ mkUser 10%N "Alice" "alice@example.com" (dec 2000);
               mkUser 11%N "Bob" "bob@example.com" (dec 13000) ] [] 14) /\
  (let final :=
     interleave (one_after_another 2)
       (attempts alice (dec 6000) [(ALICE, "first"); (ALICE, "second")],
        accounts (dec 10000) (dec 5000)) in
   map succeeded (fst final) = [true; true] /\
   stored_balance 10%N (snd final) = Some (dec 10000) /\
   List.length (Transactions (snd final)) = 2%nat).
Proof.
  split; cbv zeta; repeat split; vm_compute; reflexivity.
Qed.

(* ================================================================== *)
(** * Further properties of the code *)

(** On binary64 the stored balance and the balance that is read part ways:
    after 0.10 has left an account of 0.30 the balance reads 0.20, the stored
    number is below 0.20, and a transfer of 0.20 is refused. *)
Example the_balance_read_cannot_be_sent :
  exists s : State float,
    snd (walletService.transferMoney (mkEnv 100%float false) alice bob
           (dec 10) "" (accounts (dec 30) (dec 0))) = s /\
    fst (walletService.getBalance alice s)
    = Return (mkAccount 10%N "Alice" "alice@example.com" (dec 20)) /\
    option_map (fun b => PrimFloat.ltb b (dec 20)) (stored_balance 10%N s)
    = Some true /\
    walletService.transferMoney (mkEnv 100%float false) alice bob (dec 20) "" s
    = (Throw (new_Error "Insufficient balance"), s).
Proof.
  eexists. split; [reflexivity|]. repeat split; vm_compute; reflexivity.
Qed.

(** A description of 501 characters fails the validation of the transaction
    after the debit and the credit.  On the path of the atomic operations
    the money has then moved and no transaction records it; on the
    transactional path the state is as before. *)
Example long_description_after_the_money_moved :
  walletService.transferMoney (mkEnv 100%float false) alice bob (dec 3000)
    (String.concat "" (repeat "x" 501)) (accounts (dec 10000) (dec 5000))
  = (Throw (ValidationError "Transaction"
              [("description", "Description cannot exceed 500 characters")]),
     mkState [ mkUser 10%N "Alice" "alice@example.com" (dec 7000);
               mkUser 11%N "Bob" "bob@example.com" (dec 8000) ] [] 13) /\
  walletService.transferMoney (mkEnv 100%float true) alice bob (dec 3000)
    (String.concat "" (repeat "x" 501)) (accounts (dec 10000) (dec 5000))
  = (Throw (ValidationError "Transaction"
              [("description", "Description cannot exceed 500 characters")]),
     mkState [ mkUser 10%N "Alice" "alice@example.com" (dec 10000);
               mkUser 11%N "Bob" "bob@example.com" (dec 5000) ] [] 13).
Proof. split; vm_compute; reflexivity. Qed.

(** [updateBalance] has one error for a filter that matches nothing: an
    identifier that no account has is reported as 'Insufficient balance',
    for a credit as for a debit. *)
Theorem missing_account_is_reported_as_insufficient_balance :
  forall (num : Type) (JSN : JSNumber num) (userId : string) (oid : ObjectId)
         (delta : num) (s : State num),
    castObjectId userId = Some oid ->
    lookup oid s = None ->
    isNaN (round2 delta) = false ->
    updateBalance userId delta s
    = (Throw (new_Error "Insufficient balance"), s).
Proof.
  intros num JSN userId oid delta s. apply updateBalance_absent.
Qed.

Lemma missing_account_is_reported_as_insufficient_balance_witness :
  updateBalance "00000000000000000000000c" (dec 1000)
    (accounts (dec 10000) (dec 5000))
  = (Throw (new_Error "Insufficient balance"), accounts (dec 10000) (dec 5000)).
Proof.
  apply (missing_account_is_reported_as_insufficient_balance float _
           "00000000000000000000000c" 12%N);
    vm_compute; reflexivity.
Defined.

(** C5, a witness: the six ways out of the validation, in their order, on
    the accounts of Alice and Bob. *)
Lemma transferMoney_validation_order_witness :
  walletService.transferMoney (mkEnv 100%float true) "alice" bob (dec 1000) ""
    (accounts (dec 10000) (dec 5000))
  = (Throw (new_Error "Invalid sender user ID format"),
     accounts (dec 10000) (dec 5000)) /\
  walletService.transferMoney (mkEnv 100%float true) alice "bob" (dec 1000) ""
    (accounts (dec 10000) (dec 5000))
  = (Throw (new_Error "Invalid recipient user ID format"),
     accounts (dec 10000) (dec 5000)) /\
  walletService.transferMoney (mkEnv 100%float true) alice alice (dec 1000) ""
    (accounts (dec 10000) (dec 5000))
  = (Throw (new_Error "Cannot transfer money to yourself"),
     accounts (dec 10000) (dec 5000)) /\
  walletService.transferMoney (mkEnv 100%float true) alice bob (dec 0) ""
    (accounts (dec 10000) (dec 5000))
  = (Throw (new_Error "Transfer amount must be greater than 0"),
     accounts (dec 10000) (dec 5000)) /\
  walletService.transferMoney (mkEnv 100%float true)
    "00000000000000000000000c" bob (dec 1000) ""
    (accounts (dec 10000) (dec 5000))
  = (Throw (new_Error "Sender user not found"),
     accounts (dec 10000) (dec 5000)) /\
  walletService.transferMoney (mkEnv 100%float true)
    alice "00000000000000000000000c" (dec 1000) ""
    (accounts (dec 10000) (dec 5000))
  = (Throw (new_Error "Recipient user not found"),
     accounts (dec 10000) (dec 5000)).
Proof.
  split; [|split; [|split; [|split; [|split]]]].
  - apply (transferMoney_validation_order (mkEnv 100%float true)
             "alice" bob (dec 1000) "" (accounts (dec 10000) (dec 5000))).
    reflexivity.
  - apply (transferMoney_validation_order (mkEnv 100%float true)
             alice "bob" (dec 1000) "" (accounts (dec 10000) (dec 5000)));
      reflexivity.
  - apply (transferMoney_validation_order (mkEnv 100%float true)
             alice alice (dec 1000) "" (accounts (dec 10000) (dec 5000)));
      reflexivity.
  - apply (transferMoney_validation_order (mkEnv 100%float true)
             alice bob (dec 0) "" (accounts (dec 10000) (dec 5000)));
      first [ reflexivity | discriminate | vm_compute; reflexivity ].
  - destruct (transferMoney_validation_order (mkEnv 100%float true)
                "00000000000000000000000c" bob (dec 1000) ""
                (accounts (dec 10000) (dec 5000))) as [_ [_ [_ [_ Hlast]]]].
    destruct (Hlast 12%N 11%N) as [Hsender _].
    + reflexivity.
    + reflexivity.
    + discriminate.
    + vm_compute. reflexivity.
    + apply Hsender. reflexivity.
  - destruct (transferMoney_validation_order (mkEnv 100%float true)
                alice "00000000000000000000000c" (dec 1000) ""
                (accounts (dec 10000) (dec 5000))) as [_ [_ [_ [_ Hlast]]]].
    destruct (Hlast 10%N 12%N) as [_ Hrecipient].
    + reflexivity.
    + reflexivity.
    + discriminate.
    + vm_compute. reflexivity.
    + apply Hrecipient; [discriminate | reflexivity].
Defined.

(* ================================================================== *)
(** * The endpoint of account creation *)

(* spec-level definitions *)
Section Endpoints.
Context {num : Type} {JSN : JSNumber num}.
Variable env : Env num.
Local Open Scope num_scope.

Lemma length_zero_iff (s : string) :
  String.eqb s "" = true <-> String.length s = 0%nat.
Proof. destruct s; simpl; split; intros; try reflexivity; discriminate. Qed.

Lemma email_pattern_nonempty (e : string) :
  email_pattern e = true -> String.eqb e "" = false.
Proof. destruct e; [unfold email_pattern; simpl; discriminate|reflexivity]. Qed.

Lemma validate_User_ok (o : ObjectId) (name e : string) (b : num) :
  validate_User (mkUser o (trim name) (toLowerCase (trim e)) (round2 b)) = []
  <-> acceptable name e b = true.
Proof.
  unfold validate_User, first_failure, acceptable.
  cbn [name_ email balance find fst snd].
  destruct (String.eqb (trim name) "") eqn:Hn.
  - apply length_zero_iff in Hn. rewrite Hn. simpl. split; discriminate.
  - cbn [negb].
    destruct (2 <=? String.length (trim name))%nat; cbn [negb andb];
      [|split; discriminate].
    destruct (String.length (trim name) <=? 100)%nat; cbn [negb andb];
      [|split; discriminate].
    destruct (email_pattern (toLowerCase (trim e))) eqn:He.
    + rewrite (email_pattern_nonempty _ He). cbn [negb andb app].
      destruct (isNaN (round2 b)); cbn [negb andb]; [split; discriminate|].
      destruct (zero <=? round2 b); cbn [negb]; split; try discriminate; reflexivity.
    + cbn [andb]. destruct (String.eqb (toLowerCase (trim e)) "");
        cbn [negb app]; split; discriminate.
Qed.

Lemma User_validation_message (u : User num) :
  includes (message (ValidationError "User" (validate_User u))) "already exists"
  = false.
Proof.
  unfold validate_User, first_failure.
  destruct (String.eqb (name_ u) ""),
    (2 <=? String.length (name_ u))%nat,
    (String.length (name_ u) <=? 100)%nat,
    (String.eqb (email u) ""), (email_pattern (email u)),
    (isNaN (balance u)), (balance u >=? zero); vm_compute; reflexivity.
Qed.

Lemma find_existsb {A : Type} (p : A -> bool) (l : list A) :
  existsb p l = match find p l with Some _ => true | None => false end.
Proof.
  induction l as [|a l IH]; simpl; [reflexivity|].
  destruct (p a); simpl; [reflexivity|exact IH].
Qed.

(** [createAccount] as one case distinction. *)
Lemma createAccount_outcome (name e : string) (initialBalance : option num)
    (s : State num) :
  let u := mkUser (next_ObjectId s) (trim name) (toLowerCase (trim e))
             (round2 (match initialBalance with
                      | Some b => b
                      | None => INITIAL_BALANCE env
                      end)) in
  walletService.createAccount env name e initialBalance s =
  if existsb (fun v => String.eqb (email v) (toLowerCase (trim e))) (Users s)
  then (Throw (new_Error "User with this email already exists"), s)
  else
    match validate_User u with
    | [] =>
        (Return (walletService.account_of u),
         mkState (Users s ++ [u]) (Transactions s) (N.succ (next_ObjectId s)))
    | fs =>
        (Throw (ValidationError "User" fs),
         mkState (Users s) (Transactions s) (N.succ (next_ObjectId s)))
    end.
Proof.
  intros u.
  unfold walletService.createAccount, bind, User_findOne_email.
  rewrite find_existsb.
  destruct (find _ (Users s)) as [v|] eqn:Hfind; [reflexivity|].
  unfold new_User, new_ObjectId, bind, ret, User_save.
  cbn [fst snd Users Transactions next_ObjectId email].
  fold u.
  destruct (validate_User u) as [|bad rest]; [|reflexivity].
  change (email u) with (toLowerCase (trim e)).
  rewrite find_existsb, Hfind. reflexivity.
Qed.

(** [POST /api/accounts].  A request without a name or without an address
    is answered 400 and writes nothing.  Otherwise: when an account is
    stored under the address, trimmed and in lower case, the reply is 409
    with the message of the service, and nothing is written; when none is
    and the validators of the schema accept the document, the reply is 201
    with the new account, which is appended to the accounts; when they
    reject it, the reply is 500, 'Failed to create account', and both
    collections are as before. *)
Theorem createAccount_replies (body : AccountBody num) (s : State num) :
  let reply := walletController.createAccount env body s in
  (walletController.falsy (body_name body)
   || walletController.falsy (body_email body) = true ->
   reply = (mkReply 400 false (Some "Name and email are required") None None,
            s)) /\
  (forall name e : string,
      body_name body = Some name -> body_email body = Some e ->
      name <> "" -> e <> "" ->
      let b := match body_initialBalance body with
               | Some b => b
               | None => INITIAL_BALANCE env
               end in
      let u := mkUser (next_ObjectId s) (trim name) (toLowerCase (trim e))
                 (round2 b) in
      let stored :=
        existsb (fun v => String.eqb (email v) (toLowerCase (trim e)))
          (Users s) in
      (stored = true ->
       reply = (mkReply 409 false (Some "User with this email already exists")
                  None None, s)) /\
      (stored = false -> acceptable name e b = true ->
       reply = (mkReply 201 true (Some "Account created successfully") None
                  (Some (walletService.account_of u)),
                mkState (Users s ++ [u]) (Transactions s)
                  (N.succ (next_ObjectId s)))) /\
      (stored = false -> acceptable name e b = false ->
       reply_status (fst reply) = 500%nat /\
       reply_message (fst reply) = Some "Failed to create account" /\
       reply_data (fst reply) = None /\
       Users (snd reply) = Users s /\
       Transactions (snd reply) = Transactions s)).
Proof.
  intros reply. split.
  - unfold reply, walletController.createAccount.
    destruct (body_name body) as [name|]; [|reflexivity].
    destruct (body_email body) as [e|]; [|reflexivity].
    now intros ->.
  - intros name e Hbn Hbe Hname He b u stored.
    assert (Hfalsy : walletController.falsy (Some name)
                     || walletController.falsy (Some e) = false).
    { apply String.eqb_neq in Hname, He. simpl. now rewrite Hname, He. }
    unfold reply, walletController.createAccount.
    rewrite Hbn, Hbe, Hfalsy.
    rewrite createAccount_outcome. fold b. fold u. fold stored.
    pose proof (validate_User_ok (next_ObjectId s) name e b) as Hok.
    fold u in Hok.
    destruct stored.
    + split; [reflexivity|]. split; discriminate.
    + split; [discriminate|].
      split; intros _ Hacc.
      * apply Hok in Hacc. rewrite Hacc. reflexivity.
      * destruct (validate_User u) as [|bad rest] eqn:Hval.
        { destruct Hok as [Hok _]. rewrite (Hok eq_refl) in Hacc.
          discriminate. }
        rewrite <- Hval, User_validation_message. simpl.
        repeat split; reflexivity.
Qed.
End Endpoints.

(* ================================================================== *)
(** * What the operations can write *)

Section Footprint.
Context {num : Type} {JSN : JSNumber num}.
Variable env : Env num.
Local Open Scope num_scope.

Lemma update_identities (query : User num -> bool) (delta : num)
    (us us' : list (User num)) (u' : User num) :
  findOneAndUpdate query (inc_balance delta) us = Some (u', us') ->
  map (fun v => (_id v, name_ v, email v)) us'
  = map (fun v => (_id v, name_ v, email v)) us.
Proof.
  revert us' u'. induction us as [|u rest IH]; simpl; intros us' u'.
  - discriminate.
  - destruct (query u).
    + intros H. injection H as <- <-. reflexivity.
    + destruct (findOneAndUpdate query _ rest) as [[w rest']|]; [|discriminate].
      intros H. injection H as <- <-. simpl. now rewrite (IH rest' w).
Qed.

(** [updateBalance] touches balances only, whatever its outcome. *)
Lemma updateBalance_footprint (userId : string) (delta : num)
    (s s' : State num) (r : completion (User num)) :
  updateBalance userId delta s = (r, s') ->
  identities s' = identities s /\ Transactions s' = Transactions s /\
  next_ObjectId s' = next_ObjectId s.
Proof.
  unfold updateBalance.
  destruct (castObjectId userId) as [oid|];
    [|intros H; injection H as <- <-; now repeat split].
  destruct (isNaN _); [intros H; injection H as <- <-; now repeat split|].
  destruct (findOneAndUpdate _ _ (Users s)) as [[u us']|] eqn:Hup;
    intros H; injection H as <- <-; [|now repeat split].
  unfold identities. simpl. split; [|now split].
  exact (update_identities _ _ _ _ _ Hup).
Qed.

(** What [debit_credit_record] can have written. *)
Lemma debit_credit_record_footprint (from to : string) (amt : num)
    (desc : string) (s s1 : State num) (r : completion (Transaction num)) :
  walletService.debit_credit_record from to amt desc s = (r, s1) ->
  identities s1 = identities s /\
  match r with
  | Return tx =>
      exists sf rt,
        castObjectId from = Some sf /\ castObjectId to = Some rt /\
        lookup sf s <> None /\ lookup rt s <> None /\
        tx = mkTransaction (next_ObjectId s) (Some sf) (Some rt) (round2 amt)
               SUCCESS (trim desc) /\
        validate_Transaction tx = [] /\
        Transactions s1 = Transactions s ++ [tx] /\
        next_ObjectId s1 = N.succ (next_ObjectId s)
  | Throw _ => Transactions s1 = Transactions s
  end.
Proof.
  destruct (castObjectId from) as [sf|] eqn:Hf.
  2:{ unfold walletService.debit_credit_record, bind, User_findById.
      rewrite Hf. intros H. injection H as <- <-. now split. }
  destruct (castObjectId to) as [rt|] eqn:Ht.
  2:{ unfold walletService.debit_credit_record, bind, User_findById.
      rewrite Hf, Ht. intros H. injection H as <- <-. now split. }
  rewrite (debit_credit_record_checks from to sf rt amt desc s Hf Ht).
  destruct (lookup sf s) as [f|] eqn:Hlf;
    [|intros H; injection H as <- <-; now split].
  destruct (lookup rt s) as [t|] eqn:Hlt;
    [|intros H; injection H as <- <-; now split].
  destruct (get_balance f <? amt);
    [intros H; injection H as <- <-; now split|].
  unfold bind at 1.
  destruct (updateBalance from (- amt) s) as [[u1|e1] sa] eqn:Hdebit;
    destruct (updateBalance_footprint _ _ _ _ _ Hdebit) as [Hia [Hta Hna]];
    [|intros H; injection H as <- <-; now split].
  unfold bind at 1.
  destruct (updateBalance to amt sa) as [[u2|e2] sb] eqn:Hcredit;
    destruct (updateBalance_footprint _ _ _ _ _ Hcredit) as [Hib [Htb Hnb]];
    [|intros H; injection H as <- <-; split; congruence].
  unfold new_Transaction, new_ObjectId, Transaction_save, bind, ret.
  cbn [fst snd Users Transactions next_ObjectId]. rewrite Hf, Ht.
  destruct (validate_Transaction _) as [|bad rest] eqn:Hval;
    intros H; injection H as <- <-.
  - split; [unfold identities in *; simpl; congruence|].
    exists sf, rt. rewrite Hnb, Hna, Htb, Hta.
    repeat split; try assumption; try congruence.
  - split; [unfold identities in *; simpl; congruence|]. simpl. congruence.
Qed.

Lemma read_back_returns (from to : string) (sf rt : ObjectId) (amt : num)
    (tx : Transaction num) (s : State num) :
  castObjectId from = Some sf -> castObjectId to = Some rt ->
  lookup sf s <> None -> lookup rt s <> None ->
  exists f t,
    lookup sf s = Some f /\ lookup rt s = Some t /\
    walletService.read_back from to amt tx s
    = (Return (mkTransferResult (transactionId tx) (walletService.party_of f)
                 (walletService.party_of t) amt), s).
Proof.
  intros Hf Ht Hlf Hlt. unfold walletService.read_back.
  rewrite (bind_Return _ _ _ _ _ (User_findById_cast from sf s Hf)).
  rewrite (bind_Return _ _ _ _ _ (User_findById_cast to rt s Ht)).
  destruct (lookup sf s) as [f|]; [|congruence].
  destruct (lookup rt s) as [t|]; [|congruence].
  now exists f, t.
Qed.

(** What [transferMoney] can have written, on either path. *)
Lemma transferMoney_footprint (from to : string) (amount : num)
    (desc : string) (s s' : State num) (r : completion (TransferResult num)) :
  walletService.transferMoney env from to amount desc s = (r, s') ->
  identities s' = identities s /\
  match r with
  | Return result =>
      exists sf rt tx,
        castObjectId from = Some sf /\ castObjectId to = Some rt /\
        lookup sf s <> None /\ lookup rt s <> None /\
        tx = mkTransaction (next_ObjectId s) (Some sf) (Some rt)
               (round2 (round2 amount)) SUCCESS (trim desc) /\
        validate_Transaction tx = [] /\
        Transactions s' = Transactions s ++ [tx] /\
        exists f t,
          lookup sf s' = Some f /\ lookup rt s' = Some t /\
          result = mkTransferResult (next_ObjectId s)
                     (walletService.party_of f) (walletService.party_of t)
                     (round2 amount)
  | Throw _ =>
      Transactions s' = Transactions s /\
      (supportsTransactions env = true -> Users s' = Users s)
  end.
Proof.
  unfold walletService.transferMoney.
  destruct (negb (isValid from));
    [intros H; injection H as <- <-; now repeat split|].
  destruct (negb (isValid to));
    [intros H; injection H as <- <-; now repeat split|].
  destruct (String.eqb from to);
    [intros H; injection H as <- <-; now repeat split|].
  destruct (amount <=? zero);
    [intros H; injection H as <- <-; now repeat split|].
  fold (round2 amount).
  destruct (walletService.debit_credit_record from to (round2 amount) desc s)
    as [[tx|e] s1] eqn:Hd;
    destruct (debit_credit_record_footprint _ _ _ _ _ _ _ Hd) as [Hids Hw].
  - destruct Hw as [sf [rt [Hf [Ht [Hlf [Hlt [Htx [Hval [Htxs Hn]]]]]]]]].
    assert (Hlf1 : lookup sf s1 <> None)
      by (apply (lookup_identities s1 s sf Hids Hlf)).
    assert (Hlt1 : lookup rt s1 <> None)
      by (apply (lookup_identities s1 s rt Hids Hlt)).
    destruct (read_back_returns from to sf rt (round2 amount) tx s1
                Hf Ht Hlf1 Hlt1) as [f [t [Hf1 [Ht1 Hread]]]].
    assert (Hres : (if supportsTransactions env
                    then walletService._transferWithTransaction from to
                           (round2 amount) desc
                    else walletService._transferWithAtomicOps from to
                           (round2 amount) desc) s
                   = (Return (mkTransferResult (transactionId tx)
                                (walletService.party_of f)
                                (walletService.party_of t) (round2 amount)), s1)).
    { destruct (supportsTransactions env).
      - unfold walletService._transferWithTransaction. rewrite Hd.
        unfold try_catch. now rewrite Hread.
      - unfold walletService._transferWithAtomicOps.
        now rewrite (bind_Return _ _ _ _ _ Hd). }
    destruct (supportsTransactions env); rewrite Hres;
      intros H; injection H as <- <-; (split; [exact Hids|]);
      exists sf, rt, tx; (repeat (split; [assumption|]));
      exists f, t; (repeat (split; [assumption|]));
      rewrite Htx; reflexivity.
  - destruct (supportsTransactions env).
    + unfold walletService._transferWithTransaction. rewrite Hd.
      intros H. injection H as <- <-. unfold walletService.abortTransaction.
      now repeat split.
    + unfold walletService._transferWithAtomicOps.
      rewrite (bind_Throw _ _ _ _ _ Hd).
      intros H. injection H as <- <-. split; [exact Hids|].
      split; [exact Hw|discriminate].
Qed.
End Footprint.

(* ================================================================== *)
(** * C7: where and how balances are rounded *)



Section Rounding.
Context {num : Type} {JSN : JSNumber num}.
Variable env : Env num.

End Rounding.





(* ================================================================== *)
(** * The transaction history *)

Section History.
Context {num : Type} {JSN : JSNumber num}.
Local Open Scope num_scope.

Lemma Query_limit_incl {A : Type} (n : N) (l : list A) (a : A) :
  In a (Query_limit n l) -> In a l.
Proof.
  unfold Query_limit. destruct (n =? 0)%N; [trivial|].
  intros H. rewrite <- (firstn_skipn (N.to_nat n) l).
  apply in_or_app. now left.
Qed.

Lemma Query_limit_map {A B : Type} (f : A -> B) (n : N) (l : list A) :
  map f (Query_limit n l) = Query_limit n (map f l).
Proof.
  unfold Query_limit. destruct (n =? 0)%N; [reflexivity|].
  symmetry. apply firstn_map.
Qed.

Lemma Query_limit_length {A : Type} (n : N) (l : list A) :
  List.length (Query_limit n l)
  = if (n =? 0)%N then List.length l else Nat.min (N.to_nat n) (List.length l).
Proof.
  unfold Query_limit. destruct (n =? 0)%N; [reflexivity|]. apply length_firstn.
Qed.

(** When every reference is populated, [map] yields an entry for each
    transaction, in their order. *)
Lemma Array_map_history (users : list (User num)) (ts : list (Transaction num)) :
  Forall (fun t => populate (fromUserId t) users <> None /\
                   populate (toUserId t) users <> None) ts ->
  exists h,
    walletService.Array_map walletService.history_entry_of
      (map (fun t => (t, populate (fromUserId t) users,
                         populate (toUserId t) users)) ts) = Return h /\
    Forall2 (entry_for users) ts h.
Proof.
  induction 1 as [|t rest [Hf Ht] _ [h [IH Hall]]].
  - exists []. split; constructor.
  - cbn [map walletService.Array_map walletService.history_entry_of].
    destruct (populate (fromUserId t) users) as [f|] eqn:Ef; [|congruence].
    destruct (populate (toUserId t) users) as [r|] eqn:Er; [|congruence].
    rewrite IH. eexists. split; [reflexivity|].
    constructor; [|exact Hall]. exists f, r. now repeat split.
Qed.

Lemma entry_for_id (users : list (User num)) (ts : list (Transaction num))
    (h : list (HistoryEntry num)) :
  Forall2 (entry_for users) ts h -> map entry_id h = map transactionId ts.
Proof.
  induction 1 as [|t e ts h [f [r [_ [_ ->]]]] _ IH]; simpl;
    [reflexivity|now rewrite IH].
Qed.

Lemma entry_for_party (users : list (User num)) (oid : ObjectId)
    (t : Transaction num) (e : HistoryEntry num) :
  entry_for users t e -> sent_or_received oid t = true ->
  history_party_id (entry_from e) = oid \/
  history_party_id (entry_to e) = oid.
Proof.
  intros [f [r [Ef [Er ->]]]] Hm.
  cbn [entry_from entry_to walletService.history_party_of history_party_id].
  unfold sent_or_received in Hm. apply orb_prop in Hm.
  unfold populate in Ef, Er.
  destruct Hm as [Hm|Hm]; [left|right].
  - destruct (fromUserId t) as [o|]; [|discriminate].
    apply N.eqb_eq in Hm. subst o.
    apply find_some in Ef. destruct Ef as [_ E]. now apply N.eqb_eq in E.
  - destruct (toUserId t) as [o|]; [|discriminate].
    apply N.eqb_eq in Hm. subst o.
    apply find_some in Er. destruct Er as [_ E]. now apply N.eqb_eq in E.
Qed.

(** [getTransactionHistory] on a consistent ledger. *)
Lemma getTransactionHistory_returns (userId : string) (oid : ObjectId)
    (limit : option N) (s : State num) :
  ledger_ok s ->
  castObjectId userId = Some oid ->
  exists h,
    walletService.getTransactionHistory userId limit s = (Return h, s) /\
    Forall2 (entry_for (Users s))
      (Query_limit (match limit with Some n => n | None => 10%N end)
         (rev (filter (sent_or_received oid) (Transactions s)))) h.
Proof.
  intros Hok Hid.
  unfold walletService.getTransactionHistory, isValid. rewrite Hid.
  cbn [negb]. unfold bind, Transaction_find_populated. rewrite Hid.
  set (n := match limit with Some n => n | None => 10%N end).
  destruct (Array_map_history (Users s)
              (Query_limit n (rev (filter (sent_or_received oid)
                                     (Transactions s)))))
    as [h [Hrun Hall]].
  { apply Forall_forall. intros t Hin. apply Query_limit_incl in Hin.
    apply in_rev in Hin. apply filter_In in Hin.
    destruct Hin as [Hin Hm]. unfold ledger_ok in Hok.
    rewrite Forall_forall in Hok. exact (Hok t Hin). }
  exists h. rewrite Hrun. now split.
Qed.

(** On a consistent ledger [getTransactionHistory] returns for every
    well-formed identifier and writes nothing.  Its entries are those of the
    transactions that name the account as sender or as recipient, newest
    first, cut to the limit: 10 when none is given, and all of them when the
    limit is 0.  Every entry has the account as one of its parties. *)
Theorem history_of_a_consistent_ledger (userId : string) (oid : ObjectId)
    (limit : option N) (s : State num) :
  ledger_ok s ->
  castObjectId userId = Some oid ->
  let n := match limit with Some n => n | None => 10%N end in
  let matching := filter (sent_or_received oid) (Transactions s) in
  exists h,
    walletService.getTransactionHistory userId limit s = (Return h, s) /\
    map entry_id h = Query_limit n (rev (map transactionId matching)) /\
    List.length h = (if (n =? 0)%N then List.length matching
                     else Nat.min (N.to_nat n) (List.length matching)) /\
    Forall (fun e => history_party_id (entry_from e) = oid \/
                     history_party_id (entry_to e) = oid) h.
Proof.
  intros Hok Hid n matching.
  destruct (getTransactionHistory_returns userId oid limit s Hok Hid)
    as [h [Hrun Hall]].
  fold n in Hall. fold matching in Hall.
  pose proof (entry_for_id _ _ _ Hall) as Hids.
  exists h. split; [exact Hrun|].
  split; [now rewrite Hids, Query_limit_map, map_rev|].
  split.
  - rewrite <- (length_map entry_id), Hids, length_map, Query_limit_length.
    now rewrite length_rev.
  - clear Hids Hrun.
    assert (Hm : Forall (fun t => sent_or_received oid t = true)
                   (Query_limit n (rev matching))).
    { apply Forall_forall. intros t Hin. apply Query_limit_incl in Hin.
      apply in_rev in Hin. apply filter_In in Hin. tauto. }
    induction Hall as [|t e ts h He _ IH]; constructor.
    + inversion Hm; subst. now apply (entry_for_party (Users s) oid t).
    + apply IH. now inversion Hm.
Qed.
End History.

(* ================================================================== *)
(** * Invariants of the store *)

Section Invariants.
Context {num : Type} {JSN : JSNumber num}.
Variable env : Env num.
Local Open Scope num_scope.

Lemma emails_of_identities (s : State num) :
  map email (Users s) = map snd (identities s).
Proof. unfold identities. rewrite map_map. now apply map_ext. Qed.

Lemma populate_lookup (ref : option ObjectId) (s : State num) :
  populate ref (Users s) <> None <->
  exists o, ref = Some o /\ lookup o s <> None.
Proof.
  unfold populate, lookup. destruct ref as [o|]; split.
  - intros H. now exists o.
  - intros [o' [E H]]. now injection E as ->.
  - congruence.
  - intros [o' [E _]]. discriminate.
Qed.

Lemma populate_identities (ref : option ObjectId) (s s' : State num) :
  identities s' = identities s ->
  populate ref (Users s) <> None -> populate ref (Users s') <> None.
Proof.
  intros Hids H. apply populate_lookup in H. destruct H as [o [-> Ho]].
  apply populate_lookup. exists o. split; [reflexivity|].
  exact (lookup_identities s' s o Hids Ho).
Qed.

Lemma ledger_ok_identities (s s' : State num) :
  identities s' = identities s -> Transactions s' = Transactions s ->
  ledger_ok s -> ledger_ok s'.
Proof.
  unfold ledger_ok. intros Hids ->. apply Forall_impl.
  intros t [Hf Ht]. split; now apply (populate_identities _ s s').
Qed.

Lemma lookup_app (o : ObjectId) (us more : list (User num)) :
  find (fun u => N.eqb (_id u) o) us <> None ->
  find (fun u => N.eqb (_id u) o) (us ++ more) <> None.
Proof.
  induction us as [|u rest IH]; simpl; [congruence|].
  destruct (N.eqb (_id u) o); [discriminate|exact IH].
Qed.

Lemma createAccount_footprint (name e : string) (initialBalance : option num)
    (s s' : State num) (r : completion (Account num)) :
  walletService.createAccount env name e initialBalance s = (r, s') ->
  Transactions s' = Transactions s /\
  (Users s' = Users s \/
   exists u, Users s' = Users s ++ [u] /\
             ~ In (email u) (map email (Users s))).
Proof.
  unfold walletService.createAccount, bind, User_findOne_email.
  destruct (find _ (Users s)) as [v|] eqn:Hfind;
    [intros H; injection H as <- <-; split; [reflexivity|now left]|].
  unfold new_User, new_ObjectId, bind, ret, User_save.
  cbn [fst snd Users Transactions next_ObjectId email].
  destruct (validate_User _);
    [|intros H; injection H as <- <-; split; [reflexivity|now left]].
  destruct (existsb _ (Users s));
    intros H; injection H as <- <-; (split; [reflexivity|]); [now left|].
  right. eexists. split; [reflexivity|]. simpl.
  intros Hin. apply in_map_iff in Hin. destruct Hin as [v [Hv Hin]].
  pose proof (find_none _ _ Hfind v Hin) as Hn. simpl in Hn.
  rewrite Hv, String.eqb_refl in Hn. discriminate.
Qed.

Lemma createAccount_ledger_ok (name e : string) (initialBalance : option num)
    (s s' : State num) (r : completion (Account num)) :
  ledger_ok s ->
  walletService.createAccount env name e initialBalance s = (r, s') ->
  ledger_ok s'.
Proof.
  intros Hok Hrun.
  destruct (createAccount_footprint _ _ _ _ _ _ Hrun) as [Htx Hus].
  unfold ledger_ok in *. rewrite Htx.
  destruct Hus as [-> | [u [-> _]]]; [exact Hok|].
  revert Hok. apply Forall_impl. intros t [Hf Ht].
  unfold populate in *.
  split; [destruct (fromUserId t)|destruct (toUserId t)];
    try congruence; now apply lookup_app.
Qed.

Lemma transferMoney_ledger_ok (from to : string) (amount : num)
    (desc : string) (s s' : State num) (r : completion (TransferResult num)) :
  ledger_ok s ->
  walletService.transferMoney env from to amount desc s = (r, s') ->
  ledger_ok s'.
Proof.
  intros Hok Hrun.
  destruct (transferMoney_footprint env _ _ _ _ _ _ _ Hrun) as [Hids Hw].
  destruct r as [result|e].
  - destruct Hw as [sf [rt [tx [Hf [Ht [Hlf [Hlt [Htx [_ [Htxs _]]]]]]]]]].
    unfold ledger_ok. rewrite Htxs. apply Forall_app. split.
    + revert Hok. unfold ledger_ok. apply Forall_impl.
      intros t [H1 H2]. split; now apply (populate_identities _ s s').
    + constructor; [|constructor]. rewrite Htx. cbn [fromUserId toUserId].
      split; apply populate_lookup; eexists; (split; [reflexivity|]);
        now apply (lookup_identities s' s _ Hids).
  - destruct Hw as [Htx _].
    exact (ledger_ok_identities s s' Hids Htx Hok).
Qed.

(** The ledger stays consistent: after [createAccount], [updateBalance]
    and [transferMoney], whatever their arguments and their outcome, the
    sender and the recipient of every transaction are stored accounts. *)
Theorem operations_keep_the_ledger_consistent (s : State num) :
  ledger_ok s ->
  (forall name e initialBalance r s',
      walletService.createAccount env name e initialBalance s = (r, s') ->
      ledger_ok s') /\
  (forall userId delta r s',
      updateBalance userId delta s = (r, s') -> ledger_ok s') /\
  (forall from to amount desc r s',
      walletService.transferMoney env from to amount desc s = (r, s') ->
      ledger_ok s').
Proof.
  intros Hok. split; [|split].
  - intros name e ib r s'. now apply createAccount_ledger_ok.
  - intros userId delta r s' Hrun.
    destruct (updateBalance_footprint _ _ _ _ _ Hrun) as [Hids [Htx _]].
    exact (ledger_ok_identities s s' Hids Htx Hok).
  - intros from to amount desc r s'. now apply transferMoney_ledger_ok.
Qed.

(** No operation stores two accounts under one address: addresses that
    are pairwise different are so after [createAccount], [updateBalance] and
    [transferMoney], whatever the outcome. *)
Theorem operations_keep_addresses_unique (s : State num) :
  unique_emails s ->
  (forall name e initialBalance r s',
      walletService.createAccount env name e initialBalance s = (r, s') ->
      unique_emails s') /\
  (forall userId delta r s',
      updateBalance userId delta s = (r, s') -> unique_emails s') /\
  (forall from to amount desc r s',
      walletService.transferMoney env from to amount desc s = (r, s') ->
      unique_emails s').
Proof.
  intros Hok. split; [|split].
  - intros name e ib r s' Hrun.
    destruct (createAccount_footprint _ _ _ _ _ _ Hrun) as [_ Hus].
    unfold unique_emails in *.
    destruct Hus as [-> | [u [-> Hnew]]]; [exact Hok|].
    rewrite map_app. simpl.
    apply NoDup_app; [exact Hok|constructor; [intros []|constructor]|].
    intros x Hx [<-|[]]. contradiction.
  - intros userId delta r s' Hrun.
    destruct (updateBalance_footprint _ _ _ _ _ Hrun) as [Hids _].
    unfold unique_emails in *. now rewrite emails_of_identities, Hids, <- emails_of_identities.
  - intros from to amount desc r s' Hrun.
    destruct (transferMoney_footprint env _ _ _ _ _ _ _ Hrun) as [Hids _].
    unfold unique_emails in *. now rewrite emails_of_identities, Hids, <- emails_of_identities.
Qed.

(** With transactions, a transfer that throws has written nothing: the
    accounts and the ledger are as they were, whatever the error and wherever
    it arose, also in the validation of the transaction, after the debit and
    the credit. *)
Theorem transaction_is_all_or_nothing (from to : string) (amount : num)
    (desc : string) (s s' : State num) (e : Error) :
  supportsTransactions env = true ->
  walletService.transferMoney env from to amount desc s = (Throw e, s') ->
  Users s' = Users s /\ Transactions s' = Transactions s.
Proof.
  intros Htr Hrun.
  destruct (transferMoney_footprint env _ _ _ _ _ _ _ Hrun) as [_ [Htx Hus]].
  split; [exact (Hus Htr)|exact Htx].
Qed.
End Invariants.

Section Paths.
Context {num : Type} {JSN : JSNumber num}.
Local Open Scope num_scope.

(** The ledger holds only successes: when every transaction has status
    SUCCESS, an amount of at least 0.01 and a description of at most 500
    characters, this is so after [createAccount], [updateBalance] and
    [transferMoney], whatever the outcome.  Only a transfer that returns
    adds a record, exactly one, under the identifier of its result; a
    transfer that fails leaves no record, and neither [createAccount] nor
    [updateBalance] touches the ledger. *)
Theorem ledger_holds_only_successes (env : Env num) (s : State num) :
  records_ok s ->
  (forall name e initialBalance r s',
      walletService.createAccount env name e initialBalance s = (r, s') ->
      records_ok s' /\ Transactions s' = Transactions s) /\
  (forall userId delta r s',
      updateBalance userId delta s = (r, s') ->
      records_ok s' /\ Transactions s' = Transactions s) /\
  (forall from to amount desc r s',
      walletService.transferMoney env from to amount desc s = (r, s') ->
      records_ok s' /\
      match r with
      | Return result =>
          exists tx,
            Transactions s' = Transactions s ++ [tx] /\
            transactionId tx = result_transactionId result
      | Throw _ => Transactions s' = Transactions s
      end).
Proof.
  intros Hok. unfold records_ok in *. split; [|split].
  - intros name e ib r s' Hrun.
    destruct (createAccount_footprint env _ _ _ _ _ _ Hrun) as [-> _].
    now split.
  - intros userId delta r s' Hrun.
    destruct (updateBalance_footprint _ _ _ _ _ Hrun) as [_ [-> _]].
    now split.
  - intros from to amount desc r s' Hrun.
    destruct (transferMoney_footprint env _ _ _ _ _ _ _ Hrun) as [_ Hw].
    destruct r as [result|e].
    + destruct Hw as [sf [rt [tx [_ [_ [_ [_ [Htx [Hval
                     [Htxs [f [t [_ [_ Hres]]]]]]]]]]]]]].
      split.
      * rewrite Htxs. apply Forall_app. split; [exact Hok|].
        constructor; [|constructor].
        apply validate_Transaction_ok in Hval.
        destruct Hval as [_ [_ [Hnan [Hmin Hlen]]]].
        split; [now rewrite Htx|]. split; [assumption|].
        split; [assumption|]. now apply Nat.leb_le.
      * exists tx. split; [exact Htxs|]. now rewrite Htx, Hres.
    + destruct Hw as [-> _]. now split.
Qed.

(** The two transfer paths answer alike: for the same arguments in the
    same state, [transferMoney] returns the same result or throws the same
    error with and without transactions, and when it returns, it leaves the
    same state. *)
Theorem both_paths_give_the_same_outcome (initial : num) (from to : string)
    (amount : num) (desc : string) (s : State num) :
  let transactional :=
    walletService.transferMoney (mkEnv initial true) from to amount desc s in
  let atomic :=
    walletService.transferMoney (mkEnv initial false) from to amount desc s in
  fst transactional = fst atomic /\
  (forall result, fst atomic = Return result -> snd transactional = snd atomic).
Proof.
  unfold walletService.transferMoney. cbn [supportsTransactions].
  destruct (negb (isValid from)); [split; [reflexivity|discriminate]|].
  destruct (negb (isValid to)); [split; [reflexivity|discriminate]|].
  destruct (String.eqb from to); [split; [reflexivity|discriminate]|].
  destruct (amount <=? zero); [split; [reflexivity|discriminate]|].
  fold (round2 amount).
  unfold walletService._transferWithTransaction,
    walletService._transferWithAtomicOps, bind.
  destruct (walletService.debit_credit_record from to (round2 amount) desc s)
    as [[tx|e] s1] eqn:Hd.
  - destruct (debit_credit_record_footprint _ _ _ _ _ _ _ Hd)
      as [Hids [sf [rt [Hf [Ht [Hlf [Hlt _]]]]]]].
    destruct (read_back_returns from to sf rt (round2 amount) tx s1 Hf Ht)
      as [f [t [_ [_ Hread]]]];
      [apply (lookup_identities s1 s sf Hids Hlf)
      |apply (lookup_identities s1 s rt Hids Hlt)|].
    unfold try_catch. rewrite Hread. split; reflexivity.
  - split; [reflexivity|discriminate].
Qed.
End Paths.

(* ================================================================== *)
(** * A transfer and the history *)




(* ================================================================== *)
(** * Reading accounts *)

Section Reads.
Context {num : Type} {JSN : JSNumber num}.
Variable env : Env num.
Local Open Scope num_scope.

(** [GET /api/balance/:userId] never writes and never replies 500: it
    replies 404 'Invalid user ID format' to a string that is no ObjectId, 404
    'User not found' to an identifier that no account has, and 200 with the
    account otherwise. *)
Theorem getBalance_replies (userId : string) (s : State num) :
  walletController.getBalance userId s =
  (match castObjectId userId with
   | None => mkReply 404 false (Some "Invalid user ID format") None None
   | Some oid =>
       match lookup oid s with
       | Some u => mkReply 200 true None None (Some (walletService.account_of u))
       | None => mkReply 404 false (Some "User not found") None None
       end
   end, s).
Proof.
  unfold walletController.getBalance, walletService.getBalance, isValid.
  destruct (castObjectId userId) as [oid|] eqn:Hid; [|reflexivity].
  cbn [negb]. rewrite (bind_Return _ _ _ _ _ (User_findById_cast userId oid s Hid)).
  destruct (lookup oid s); reflexivity.
Qed.

Lemma filter_none {A : Type} (p : A -> bool) (l : list A) :
  (forall a, In a l -> p a = false) -> filter p l = [].
Proof.
  induction l as [|a l IH]; simpl; intros H; [reflexivity|].
  rewrite (H a (or_introl eq_refl)). apply IH. intros b Hb. apply H. now right.
Qed.

(** [GET /api/transactions/:userId] on a consistent ledger writes nothing.
    It replies 404 to a string that is no ObjectId and 200 otherwise, with at
    most [limit] entries, where a limit that is missing, not a number or
    zero counts as 10.  For an identifier that no account has the reply is
    200 with an empty list. *)
Theorem getTransactionHistory_replies (userId : string)
    (query_limit : option N) (s : State num) :
  ledger_ok s ->
  let limit := match query_limit with
               | Some n => if (n =? 0)%N then 10%N else n
               | None => 10%N
               end in
  match castObjectId userId with
  | None =>
      walletController.getTransactionHistory userId query_limit s
      = (mkReply 404 false (Some "Invalid user ID format") None None, s)
  | Some oid =>
      exists h,
        walletController.getTransactionHistory userId query_limit s
        = (mkReply 200 true None None (Some h), s) /\
        (List.length h <= N.to_nat limit)%nat /\
        (lookup oid s = None -> h = [])
  end.
Proof.
  intros Hok limit.
  unfold walletController.getTransactionHistory. fold limit.
  destruct (castObjectId userId) as [oid|] eqn:Hid.
  - destruct (getTransactionHistory_returns userId oid (Some limit) s Hok Hid)
      as [h [Hrun Hall]].
    exists h. rewrite Hrun. split; [reflexivity|].
    assert (Hlimit : (limit =? 0)%N = false).
    { unfold limit. destruct query_limit as [n|]; [|reflexivity].
      destruct (n =? 0)%N eqn:Hn; [reflexivity|exact Hn]. }
    pose proof (Forall2_length Hall) as Hlen.
    rewrite Query_limit_length, Hlimit in Hlen.
    split; [lia|].
    intros Hnone.
    rewrite (filter_none (sent_or_received oid) (Transactions s)) in Hall.
    + unfold Query_limit in Hall. rewrite Hlimit in Hall. simpl in Hall.
      rewrite firstn_nil in Hall. now inversion Hall.
    + intros t Hin. unfold ledger_ok in Hok. rewrite Forall_forall in Hok.
      destruct (Hok t Hin) as [Hf Ht].
      apply populate_lookup in Hf, Ht.
      destruct Hf as [o1 [E1 H1]]. destruct Ht as [o2 [E2 H2]].
      unfold sent_or_received. rewrite E1, E2.
      destruct (N.eqb o1 oid) eqn:Ho1;
        [apply N.eqb_eq in Ho1; subst o1; contradiction|].
      destruct (N.eqb o2 oid) eqn:Ho2;
        [apply N.eqb_eq in Ho2; subst o2; contradiction|].
      reflexivity.
  - unfold walletService.getTransactionHistory, isValid. rewrite Hid.
    reflexivity.
Qed.

Lemma find_app_new (o : ObjectId) (us : list (User num)) (u : User num) :
  ~ In o (map _id us) -> _id u = o ->
  find (fun v => N.eqb (_id v) o) (us ++ [u]) = Some u.
Proof.
  intros Hnew Hu. induction us as [|v rest IH]; simpl.
  - now rewrite Hu, N.eqb_refl.
  - destruct (N.eqb (_id v) o) eqn:Hv.
    + apply N.eqb_eq in Hv. exfalso. apply Hnew. now left.
    + apply IH. intros Hin. apply Hnew. now right.
Qed.

(** A created account is read back: when the identifier the driver
    generates is not in use, [getBalance] under the new identifier returns
    the account that [createAccount] returned, and [getAllUsers] lists it
    after the accounts it listed before. *)
Theorem created_account_is_read_back (name e : string)
    (initialBalance : option num) (s s' : State num) (acct : Account num)
    (userId : string) :
  ~ In (next_ObjectId s) (map _id (Users s)) ->
  walletService.createAccount env name e initialBalance s = (Return acct, s') ->
  castObjectId userId = Some (account_id acct) ->
  walletService.getBalance userId s' = (Return acct, s') /\
  exists before,
    walletService.getAllUsers s = (Return before, s) /\
    walletService.getAllUsers s' = (Return (before ++ [acct]), s').
Proof.
  intros Hfresh Hrun Hid.
  destruct (createAccount_success env _ _ _ _ _ _ Hrun)
    as [u [Hus [Hu [_ [_ [_ [_ [_ Hacct]]]]]]]].
  assert (Hacctid : account_id acct = next_ObjectId s) by (now rewrite Hacct).
  split.
  - unfold walletService.getBalance, isValid. rewrite Hid. cbn [negb].
    rewrite (bind_Return _ _ _ _ _
               (User_findById_cast userId (account_id acct) s' Hid)).
    unfold lookup. rewrite Hus, Hacctid, (find_app_new _ _ u Hfresh Hu).
    now rewrite Hacct.
  - exists (map walletService.account_of (Users s)). split; [reflexivity|].
    unfold walletService.getAllUsers, bind, User_find, ret.
    now rewrite Hus, map_app, Hacct.
Qed.
End Reads.

(* ================================================================== *)
(** * Refused transfers *)

Lemma Transaction_validation_message {num : Type} {JSN : JSNumber num}
    (t : Transaction num) :
  let msg := message (ValidationError "Transaction" (validate_Transaction t)) in
  includes msg "Insufficient balance" = false /\
  includes msg "not found" = false /\
  includes msg "Invalid" = false /\
  includes msg "Cannot transfer money to yourself" = false.
Proof.
  unfold validate_Transaction, first_failure.
  destruct (is_some (fromUserId t)), (is_some (toUserId t)),
    (isNaN (amount t)), (amount t >=? cent)%num,
    (String.length (description t) <=? 500)%nat;
    vm_compute; repeat split; reflexivity.
Qed.

Section Refused.
Context {num : Type} {JSN : JSNumber num}.
Variable env : Env num.
Local Open Scope num_scope.

(** A credit whose increment is a number that is not negative is applied to
    a stored account. *)
Lemma credit_returns (to : string) (rt : ObjectId) (transferAmount : num)
    (s : State num) :
  castObjectId to = Some rt -> lookup rt s <> None ->
  isNaN (round2 transferAmount) = false ->
  (round2 transferAmount <? zero) = false ->
  exists u s', updateBalance to transferAmount s = (Return u, s').
Proof.
  intros Ht Hlt Hnan Hpos.
  destruct (lookup rt s) as [t1|] eqn:Hl; [|congruence].
  destruct (updateBalance_applied to transferAmount s rt t1 Ht Hl Hnan)
    as [sx [Hrun _]]; [now left|].
  eexists. eexists. exact Hrun.
Qed.

(** An increment that is NaN is a CastError, and nothing is written. *)
Lemma updateBalance_NaN (userId : string) (oid : ObjectId) (delta : num)
    (s : State num) :
  castObjectId userId = Some oid -> isNaN (round2 delta) = true ->
  updateBalance userId delta s = (Throw NaN_increment, s).
Proof.
  intros Hid Hnan. unfold updateBalance. rewrite Hid.
  fold (round2 delta). now rewrite Hnan.
Qed.

(** How a transfer of an amount greater than 0, whose credit increment is
    not negative, can throw: with one of the refusals or with the CastError
    of a debit that is NaN, having written nothing; with the CastError of a
    credit that is NaN, after the debit; or with the validation of the
    transaction, after the debit and the credit. *)
Lemma transferMoney_throws_how (from to : string)
    (requested : num) (desc : string) (s s' : State num) (e : Error) :
  (requested <=? zero) = false ->
  (credit_delta requested <? zero) = false ->
  walletService.transferMoney env from to requested desc s = (Throw e, s') ->
  (s' = s /\
   (In (message e) refusals \/
    (isNaN (debit_delta requested) = true /\ e = NaN_increment))) \/
  (exists (u1 : User num) (sa : State num),
      updateBalance from (- round2 requested) s = (Return u1, sa) /\
      Transactions s' = Transactions s /\
      ((isNaN (credit_delta requested) = true /\ e = NaN_increment /\
        Users s' = if supportsTransactions env then Users s else Users sa) \/
       (exists (t : Transaction num) (u2 : User num) (sb : State num),
           e = ValidationError "Transaction" (validate_Transaction t) /\
           validate_Transaction t <> [] /\
           updateBalance to (round2 requested) sa = (Return u2, sb) /\
           Users s' = if supportsTransactions env then Users s else Users sb))).
Proof.
  intros Hpos Hcredit.
  destruct (castObjectId from) as [sf|] eqn:Hf;
    [|unfold walletService.transferMoney, isValid; rewrite Hf;
      intros H; injection H as <- <-; left; split;
      [reflexivity|left; simpl; tauto]].
  destruct (castObjectId to) as [rt|] eqn:Ht;
    [|unfold walletService.transferMoney, isValid; rewrite Hf, Ht;
      intros H; injection H as <- <-; left; split;
      [reflexivity|left; simpl; tauto]].
  destruct (String.eqb from to) eqn:Hstr;
    [unfold walletService.transferMoney, isValid; rewrite Hf, Ht, Hstr;
     intros H; injection H as <- <-; left; split;
     [reflexivity|left; simpl; tauto]|].
  apply String.eqb_neq in Hstr.
  rewrite (transferMoney_checked env from to sf rt requested desc s
             Hf Ht Hstr Hpos).
  assert (Hcore : forall e1 s1,
             walletService.debit_credit_record from to (round2 requested)
               desc s = (Throw e1, s1) ->
             (s1 = s /\
              (In (message e1) refusals \/
               (isNaN (debit_delta requested) = true /\ e1 = NaN_increment))) \/
             (exists (u1 : User num) (sa : State num),
                 updateBalance from (- round2 requested) s = (Return u1, sa) /\
                 Transactions s1 = Transactions s /\
                 ((isNaN (credit_delta requested) = true /\
                   e1 = NaN_increment /\ Users s1 = Users sa) \/
                  (exists (t : Transaction num) (u2 : User num)
                          (sb : State num),
                      e1 = ValidationError "Transaction"
                             (validate_Transaction t) /\
                      validate_Transaction t <> [] /\
                      updateBalance to (round2 requested) sa
                      = (Return u2, sb) /\
                      Users s1 = Users sb)))).
  { intros e1 s1.
    rewrite (debit_credit_record_checks from to sf rt _ desc s Hf Ht).
    destruct (lookup sf s) as [f|] eqn:Hlf;
      [|intros H; injection H as <- <-; left; split;
        [reflexivity|left; simpl; tauto]].
    destruct (lookup rt s) as [t|] eqn:Hlt;
      [|intros H; injection H as <- <-; left; split;
        [reflexivity|left; simpl; tauto]].
    destruct (get_balance f <? round2 requested)%num;
      [intros H; injection H as <- <-; left; split;
       [reflexivity|left; simpl; tauto]|].
    unfold bind at 1.
    destruct (updateBalance from (- round2 requested)%num s)
      as [[u1|e0] sa] eqn:Hdebit.
    2:{ intros H. injection H as <- <-. left.
        split; [exact (updateBalance_failure_unchanged _ _ _ _ _ Hdebit)|].
        destruct (isNaN (debit_delta requested)) eqn:Hn.
        - right. split; [reflexivity|].
          rewrite (updateBalance_NaN from sf _ s Hf Hn) in Hdebit.
          now injection Hdebit as <-.
        - left. unfold updateBalance in Hdebit. rewrite Hf in Hdebit.
          fold (round2 (- round2 requested)) in Hdebit.
          fold (debit_delta requested) in Hdebit. rewrite Hn in Hdebit.
          destruct (findOneAndUpdate _ _ _) as [[w us]|]; [discriminate|].
          injection Hdebit as <-. simpl. tauto. }
    destruct (updateBalance_footprint _ _ _ _ _ Hdebit) as [Hids [Htxa _]].
    intros Hrest. right. exists u1, sa. split; [reflexivity|].
    revert Hrest. unfold bind at 1.
    destruct (isNaN (credit_delta requested)) eqn:Hn.
    - rewrite (updateBalance_NaN to rt _ sa Ht Hn).
      intros H. injection H as <- <-. split; [assumption|]. left. now split.
    - destruct (credit_returns to rt (round2 requested) sa Ht)
        as [u2 [sb Hc]];
        [apply (lookup_identities sa s rt Hids); congruence
        |exact Hn|exact Hcredit|].
      destruct (updateBalance_footprint _ _ _ _ _ Hc) as [_ [Htxb _]].
      rewrite Hc.
      unfold new_Transaction, new_ObjectId, Transaction_save, bind, ret.
      cbn [fst snd Users Transactions next_ObjectId].
      destruct (validate_Transaction _) as [|bad rest] eqn:Hval;
        [discriminate|].
      intros H. injection H as <- <-. cbn [Users Transactions].
      split; [congruence|]. right.
      exists (mkTransaction (next_ObjectId sb) (castObjectId from)
                (castObjectId to) (round2 (round2 requested)) SUCCESS
                (trim desc)), u2, sb.
      rewrite Hval. split; [reflexivity|]. split; [discriminate|].
      now split. }
  assert (Hnever : forall tx s1,
             walletService.debit_credit_record from to (round2 requested)
               desc s = (Return tx, s1) ->
             exists r, walletService.read_back from to (round2 requested) tx s1
                       = (Return r, s1)).
  { intros tx s1 Hd.
    destruct (debit_credit_record_footprint _ _ _ _ _ _ _ Hd)
      as [Hids [sf' [rt' [Hf' [Ht' [Hlf [Hlt _]]]]]]].
    destruct (read_back_returns from to sf' rt' (round2 requested) tx s1
                Hf' Ht')
      as [f [t [_ [_ Hread]]]];
      [apply (lookup_identities s1 s sf' Hids Hlf)
      |apply (lookup_identities s1 s rt' Hids Hlt)|].
    eexists. exact Hread. }
  destruct (supportsTransactions env).
  - unfold walletService._transferWithTransaction.
    destruct (walletService.debit_credit_record _ _ _ _ s) as [[tx|e1] s1] eqn:Hd.
    + destruct (Hnever tx s1 eq_refl) as [r Hread].
      unfold try_catch. rewrite Hread. discriminate.
    + intros H. injection H as <- <-.
      destruct (Hcore _ _ eq_refl) as [[-> Hmsg] | Hv].
      * left. split; [|exact Hmsg].
        unfold walletService.abortTransaction. apply State_eta.
      * right. destruct Hv as [u1 [sa [Hd1 [_ Hv]]]].
        exists u1, sa. split; [exact Hd1|]. split; [reflexivity|].
        destruct Hv as [[Hn [He _]] | [t [u2 [sb [He [Hne [Hc _]]]]]]].
        -- left. now split.
        -- right. exists t, u2, sb. now repeat split.
  - unfold walletService._transferWithAtomicOps, bind.
    destruct (walletService.debit_credit_record _ _ _ _ s) as [[tx|e1] s1] eqn:Hd.
    + destruct (Hnever tx s1 eq_refl) as [r Hread].
      rewrite Hread. discriminate.
    + intros H. injection H as <- <-. exact (Hcore _ _ eq_refl).
Qed.
End Refused.

(** The errors of a transfer that the controller answers 4xx. *)
Lemma refusal_messages :
  forall msg,
    In msg refusals ->
    (includes msg "Insufficient balance"
     || (includes msg "not found" || includes msg "Invalid")
     || includes msg "Cannot transfer money to yourself") = true.
Proof.
  intros msg H. unfold refusals in H. simpl in H.
  repeat (destruct H as [<-|H]; [vm_compute; reflexivity|]). contradiction.
Qed.


Section Replies.
Context {num : Type} {JSN : JSNumber num}.
Variable env : Env num.
Local Open Scope num_scope.


End Replies.

(* ================================================================== *)
(** * One account under two spellings *)

(** One account under two spellings.  Let [from] and [to] be different
    strings that denote the identifier of one stored account, and let the
    amount pass the checks of a transfer: it is greater than 0, the balance
    read is not below the rounded amount, the debit increment is a number
    that the stored balance covers, the credit increment is a number, not
    negative and at least 0.01, and the trimmed description has at most 500
    characters.  Then [transferMoney] returns on either path: the account is
    debited and then credited, so that its stored balance is its balance
    before plus the debit increment plus the credit increment, in the
    arithmetic of the carrier; the accounts are unchanged apart from that;
    and one transaction with status SUCCESS is appended whose sender and
    recipient are that account. *)
Theorem self_transfer_under_two_spellings
    (num : Type) (JSN : JSNumber num) (env : Env num) (from to : string)
    (o : ObjectId) (requested : num) (desc : string) (s : State num)
    (f : User num) :
  from <> to ->
  castObjectId from = Some o -> castObjectId to = Some o ->
  lookup o s = Some f ->
  (requested <=? zero)%num = false ->
  (get_balance f <? round2 requested)%num = false ->
  isNaN (debit_delta requested) = false ->
  covers (debit_delta requested) (balance f) = true ->
  isNaN (credit_delta requested) = false ->
  (credit_delta requested <? zero)%num = false ->
  (credit_delta requested >=? cent)%num = true ->
  (String.length (trim desc) <= 500)%nat ->
  exists (result : TransferResult num) (s' : State num),
    walletService.transferMoney env from to requested desc s = (Return result, s') /\
    stored_balance o s'
    = Some (balance f + debit_delta requested + credit_delta requested)%num /\
    (forall o', o' <> o -> lookup o' s' = lookup o' s) /\
    identities s' = identities s /\
    Transactions s' =
      Transactions s ++
      [mkTransaction (next_ObjectId s) (Some o) (Some o)
         (credit_delta requested) SUCCESS (trim desc)] /\
    party_id (result_from result) = o /\ party_id (result_to result) = o.
Proof.
  intros Hne Hf Ht Hl Hpos Hchk HnanD Hcov HnanR Hcredit Hcent Hlen.
  rewrite (transferMoney_checked env from to o o requested desc s Hf Ht Hne Hpos).
  (* the debit *)
  destruct (updateBalance_applied from (- round2 requested)%num s o f Hf Hl
              HnanD)
    as [s1 [Hdebit [Hl1 [Hoth1 [Hids1 [Htx1 Hn1]]]]]].
  { fold (debit_delta requested). unfold covers in Hcov.
    destruct (debit_delta requested <? zero)%num; [now right|now left]. }
  (* the credit *)
  destruct (updateBalance_applied to (round2 requested) s1 o _ Ht Hl1 HnanR)
    as [s2 [Hcredit2 [Hl2 [Hoth2 [Hids2 [Htx2 Hn2]]]]]]; [now left|].
  set (tx := mkTransaction (next_ObjectId s) (Some o) (Some o)
               (credit_delta requested) SUCCESS (trim desc)).
  assert (Hval : validate_Transaction tx = []).
  { apply validate_Transaction_ok. unfold tx. simpl.
    repeat split; try assumption. now apply Nat.leb_le. }
  assert (Hd : walletService.debit_credit_record from to (round2 requested)
                 desc s
               = (Return tx,
                  mkState (Users s2) (Transactions s ++ [tx])
                    (N.succ (next_ObjectId s)))).
  { rewrite (debit_credit_record_checks from to o o _ desc s Hf Ht), Hl.
    rewrite Hchk.
    rewrite (bind_Return _ _ _ _ _ Hdebit).
    rewrite (bind_Return _ _ _ _ _ Hcredit2).
    unfold new_Transaction, new_ObjectId, Transaction_save, bind, ret.
    cbn [fst snd Users Transactions next_ObjectId]. rewrite Hf, Ht.
    rewrite Hn2, Hn1. fold (credit_delta requested). fold tx. rewrite Hval.
    now rewrite Htx2, Htx1. }
  set (s' := mkState (Users s2) (Transactions s ++ [tx])
               (N.succ (next_ObjectId s))) in *.
  assert (Hl' : forall o', lookup o' s' = lookup o' s2) by reflexivity.
  destruct (read_back_returns from to o o (round2 requested) tx s' Hf Ht)
    as [f1 [f2 [Hf1 [Hf2 Hread]]]]; [rewrite Hl', Hl2; discriminate..|].
  rewrite Hl', Hl2 in Hf1. injection Hf1 as <-.
  rewrite Hl', Hl2 in Hf2. injection Hf2 as <-.
  eexists. exists s'.
  split.
  { destruct (supportsTransactions env).
    - unfold walletService._transferWithTransaction. rewrite Hd.
      unfold try_catch. rewrite Hread. reflexivity.
    - unfold walletService._transferWithAtomicOps.
      rewrite (bind_Return _ _ _ _ _ Hd). exact Hread. }
  split; [unfold stored_balance; rewrite Hl', Hl2; reflexivity|].
  split.
  { intros o' Ho'. rewrite Hl', (Hoth2 o' Ho'). now apply Hoth1. }
  split; [unfold identities in *; simpl; congruence|].
  split; [reflexivity|].
  simpl. apply find_some in Hl. destruct Hl as [_ Hid].
  apply N.eqb_eq in Hid. now split.
Qed.

(* ================================================================== *)
(** * What a transfer reports *)

Section Reports.
Context {num : Type} {JSN : JSNumber num}.
Variable env : Env num.
Local Open Scope num_scope.

(** The balances a transfer reports are those read afterwards: after a
    [transferMoney] that returns, [getBalance] of the sender and of the
    recipient return accounts with the identifiers, names and balances of
    the two parties of the result. *)
Theorem transfer_result_reports_the_balances (from to : string)
    (amount : num) (desc : string) (s s' : State num)
    (result : TransferResult num) :
  walletService.transferMoney env from to amount desc s = (Return result, s') ->
  exists sender recipient : Account num,
    walletService.getBalance from s' = (Return sender, s') /\
    walletService.getBalance to s' = (Return recipient, s') /\
    account_id sender = party_id (result_from result) /\
    account_name sender = party_name (result_from result) /\
    account_balance sender = party_balance (result_from result) /\
    account_id recipient = party_id (result_to result) /\
    account_name recipient = party_name (result_to result) /\
    account_balance recipient = party_balance (result_to result).
Proof.
  intros Hrun.
  destruct (transferMoney_footprint env _ _ _ _ _ _ _ Hrun)
    as [_ [sf [rt [tx [Hf [Ht [_ [_ [_ [_ [_ [f [t [Hlf [Hlt ->]]]]]]]]]]]]]]].
  exists (walletService.account_of f), (walletService.account_of t).
  unfold walletService.getBalance, isValid. rewrite Hf, Ht. cbn [negb].
  rewrite (bind_Return _ _ _ _ _ (User_findById_cast from sf s' Hf)).
  rewrite (bind_Return _ _ _ _ _ (User_findById_cast to rt s' Ht)).
  rewrite Hlf, Hlt. repeat split; reflexivity.
Qed.
End Reports.

(* ================================================================== *)
(** * The internal error of a transfer *)

Section Internal.
Context {num : Type} {JSN : JSNumber num}.
Variable env : Env num.
Local Open Scope num_scope.

(** [POST /api/transfer]: what a reply 500 means.  For a body whose debit
    and credit increments are numbers, the credit increment not negative,
    when the status of the reply is 500 the debit and the credit were both
    applied and the transaction then failed its validation, whose message
    is the error of the reply; no transaction is recorded; with
    transactions the accounts are as before the request, and without them
    they are as the debit and the credit left them. *)
Theorem internal_error_means_an_unrecorded_transfer (body : TransferBody num)
    (s : State num) :
  (forall requested,
      body_amount body = Some requested ->
      isNaN (debit_delta requested) = false /\
      isNaN (credit_delta requested) = false /\
      (credit_delta requested <? zero) = false) ->
  let reply := walletController.transferMoney env body s in
  response_status (fst reply) = 500%nat ->
  exists (from to : string) (requested : num) (t : Transaction num)
         (u1 u2 : User num) (sa sb : State num),
    from_user_id body = Some from /\ to_user_id body = Some to /\
    body_amount body = Some requested /\
    validate_Transaction t <> [] /\
    response_error (fst reply)
    = Some (message (ValidationError "Transaction" (validate_Transaction t))) /\
    updateBalance from (- round2 requested) s = (Return u1, sa) /\
    updateBalance to (round2 requested) sa = (Return u2, sb) /\
    Transactions (snd reply) = Transactions s /\
    Users (snd reply) = if supportsTransactions env then Users s else Users sb.
Proof.
  intros Hamount. unfold walletController.transferMoney.
  destruct (from_user_id body) as [from|]; [|discriminate].
  destruct (to_user_id body) as [to|]; [|discriminate].
  destruct (body_amount body) as [requested|]; [|discriminate].
  destruct (Hamount requested eq_refl) as [HnanD [HnanR Hcredit]].
  destruct (_ || _); [discriminate|].
  destruct (isNaN requested) eqn:Hnan; [discriminate|].
  destruct (requested <=? zero) eqn:Hpos; [discriminate|].
  cbn [orb].
  destruct (walletService.transferMoney env from to requested _ s)
    as [[result|e] s'] eqn:Hrun; [discriminate|].
  destruct (transferMoney_throws_how env _ _ _ _ _ _ _ Hpos Hcredit Hrun)
    as [[-> [Hmsg | [Hn _]]]
       | [u1 [sa [Hd [Htx [[Hn _] | [t [u2 [sb [-> [Hne [Hc Hus]]]]]]]]]]]];
    try congruence.
  - pose proof (refusal_messages _ Hmsg) as Href.
    destruct (includes (message e) "Insufficient balance"); [discriminate|].
    destruct (includes (message e) "not found" || includes (message e) "Invalid");
      [discriminate|].
    cbn [orb] in Href. rewrite Href. discriminate.
  - destruct (Transaction_validation_message t) as [H1 [H2 [H3 H4]]].
    cbv zeta in H1, H2, H3, H4. rewrite H1, H2, H3, H4. cbn [orb fst snd].
    intros _. exists from, to, requested, t, u1, u2, sa, sb.
    repeat split; assumption.
Qed.
End Internal.

(* ================================================================== *)
(** * The states the service reaches *)

Section Next.
Context {num : Type} {JSN : JSNumber num}.
Variable env : Env num.

(** Identifiers are only ever generated: the next one never goes back. *)
Lemma debit_credit_record_next (from to : string) (amt : num) (desc : string)
    (s s1 : State num) (r : completion (Transaction num)) :
  walletService.debit_credit_record from to amt desc s = (r, s1) ->
  (next_ObjectId s <= next_ObjectId s1)%N.
Proof.
  unfold walletService.debit_credit_record, bind, User_findById.
  destruct (castObjectId from); [|intros H; injection H as _ <-; lia].
  destruct (castObjectId to); [|intros H; injection H as _ <-; lia].
  destruct (find _ (Users s)); [|intros H; injection H as _ <-; lia].
  destruct (find _ (Users s)); [|intros H; injection H as _ <-; lia].
  destruct (lt _ _); [intros H; injection H as _ <-; lia|].
  destruct (updateBalance from _ s) as [[u1|e1] sa] eqn:Hd;
    destruct (updateBalance_footprint _ _ _ _ _ Hd) as [_ [_ Hna]];
    [|intros H; injection H as _ <-; lia].
  destruct (updateBalance to _ sa) as [[u2|e2] sb] eqn:Hc;
    destruct (updateBalance_footprint _ _ _ _ _ Hc) as [_ [_ Hnb]];
    [|intros H; injection H as _ <-; lia].
  unfold new_Transaction, new_ObjectId, Transaction_save, bind, ret.
  cbn [fst snd Users Transactions next_ObjectId].
  destruct (validate_Transaction _);
    intros H; injection H as _ <-; simpl; lia.
Qed.

Lemma transferMoney_next (from to : string) (amount : num) (desc : string)
    (s s' : State num) (r : completion (TransferResult num)) :
  walletService.transferMoney env from to amount desc s = (r, s') ->
  (next_ObjectId s <= next_ObjectId s')%N.
Proof.
  unfold walletService.transferMoney.
  destruct (negb (isValid from)); [intros H; injection H as _ <-; lia|].
  destruct (negb (isValid to)); [intros H; injection H as _ <-; lia|].
  destruct (String.eqb from to); [intros H; injection H as _ <-; lia|].
  destruct (le _ _); [intros H; injection H as _ <-; lia|].
  destruct (supportsTransactions env).
  - unfold walletService._transferWithTransaction.
    destruct (walletService.debit_credit_record _ _ _ _ s) as [[tx|e] s1] eqn:Hd;
      pose proof (debit_credit_record_next _ _ _ _ _ _ _ Hd) as Hn.
    + unfold try_catch.
      destruct (walletService.read_back _ _ _ tx s1) as [[res|e] s2] eqn:Hr;
        apply read_back_state in Hr; subst s2;
        intros H; injection H as _ <-; exact Hn.
    + intros H. injection H as _ <-. exact Hn.
  - unfold walletService._transferWithAtomicOps, bind.
    destruct (walletService.debit_credit_record _ _ _ _ s) as [[tx|e] s1] eqn:Hd;
      pose proof (debit_credit_record_next _ _ _ _ _ _ _ Hd) as Hn.
    + destruct (walletService.read_back _ _ _ tx s1) as [res s2] eqn:Hr.
      apply read_back_state in Hr. subst s2.
      intros H. injection H as _ <-. exact Hn.
    + intros H. injection H as _ <-. exact Hn.
Qed.

Lemma ids_fresh_identities (s s' : State num) :
  identities s' = identities s ->
  (next_ObjectId s <= next_ObjectId s')%N ->
  ids_fresh s -> ids_fresh s'.
Proof.
  unfold ids_fresh. intros Hids Hn Hok.
  rewrite Forall_forall in *. intros u Hin.
  assert (Hid : In (_id u) (map _id (Users s))).
  { rewrite ids_of_identities, <- Hids, <- ids_of_identities.
    now apply in_map. }
  apply in_map_iff in Hid. destruct Hid as [v [Hv Hinv]].
  specialize (Hok v Hinv). lia.
Qed.

(** [createAccount] keeps identifiers unique and older than the next. *)
Lemma createAccount_ids (name e : string) (initialBalance : option num)
    (s s' : State num) (r : completion (Account num)) :
  unique_ids s -> ids_fresh s ->
  walletService.createAccount env name e initialBalance s = (r, s') ->
  unique_ids s' /\ ids_fresh s'.
Proof.
  intros Hnd Hfresh. rewrite createAccount_outcome. cbv zeta.
  destruct (existsb _ (Users s));
    [intros H; injection H as _ <-; now split|].
  destruct (validate_User _); intros H; injection H as _ <-.
  - unfold unique_ids, ids_fresh in *. cbn [Users next_ObjectId].
    rewrite map_app. simpl. split.
    + apply NoDup_app; [exact Hnd|constructor; [intros []|constructor]|].
      intros x Hx [<-|[]]. apply in_map_iff in Hx.
      destruct Hx as [v [Hv Hin]]. rewrite Forall_forall in Hfresh.
      specialize (Hfresh v Hin). lia.
    + apply Forall_app. split.
      * revert Hfresh. apply Forall_impl. intros v Hv. lia.
      * constructor; [simpl; lia|constructor].
  - unfold unique_ids, ids_fresh in *. cbn [Users next_ObjectId].
    split; [exact Hnd|]. revert Hfresh. apply Forall_impl. intros v Hv. lia.
Qed.
End Next.

(** The addresses of a state are those of its identities. *)
Lemma emails_normalized_identities {num : Type} (s s' : State num) :
  identities s' = identities s -> emails_normalized s -> emails_normalized s'.
Proof.
  unfold emails_normalized. intros Hids Hn.
  rewrite Forall_forall in *. intros u Hin.
  assert (He : In (email u) (map email (Users s))).
  { rewrite emails_of_identities, <- Hids, <- emails_of_identities.
    now apply in_map. }
  apply in_map_iff in He. destruct He as [v [Hv Hinv]].
  rewrite <- Hv. now apply Hn.
Qed.

(** Every state the service reaches is sound.  In a state reached from an
    empty store by any sequence of [createAccount] and [transferMoney],
    whatever their arguments and outcomes: identifiers are pairwise
    different and older than the next one; addresses are in normal form and
    pairwise different; the sender and the recipient of every transaction
    are stored accounts; and every transaction has status SUCCESS, an amount
    of at least 0.01 and a description of at most 500 characters. *)
Theorem reachable_states_are_sound (num : Type) (JSN : JSNumber num)
    (env : Env num) (s : State num) :
  reachable env s ->
  unique_ids s /\ ids_fresh s /\ unique_emails s /\ emails_normalized s /\
  ledger_ok s /\ records_ok s.
Proof.
  induction 1 as [first
                 |s s' name e ib r _ IH Hrun
                 |s s' from to requested desc r _ IH Hrun].
  - unfold unique_ids, ids_fresh, unique_emails, emails_normalized, ledger_ok,
      records_ok. simpl. repeat split; constructor.
  - destruct IH as [Hnd [Hfresh [Hem [Hnorm [Hled Hrec]]]]].
    destruct (createAccount_ids env _ _ _ _ _ _ Hnd Hfresh Hrun) as [Hnd' Hfresh'].
    split; [assumption|]. split; [assumption|].
    split.
    { destruct (createAccount_footprint env _ _ _ _ _ _ Hrun) as [_ Hus].
      unfold unique_emails in *.
      destruct Hus as [-> | [u [-> Hnew]]]; [exact Hem|].
      rewrite map_app. simpl.
      apply NoDup_app; [exact Hem|constructor; [intros []|constructor]|].
      intros x Hx [<-|[]]. contradiction. }
    split; [exact (createAccount_emails_normalized env _ _ _ _ _ _ Hnorm Hrun)|].
    split; [exact (createAccount_ledger_ok env _ _ _ _ _ _ Hled Hrun)|].
    destruct (createAccount_footprint env _ _ _ _ _ _ Hrun) as [Htx _].
    unfold records_ok in *. now rewrite Htx.
  - destruct IH as [Hnd [Hfresh [Hem [Hnorm [Hled Hrec]]]]].
    destruct (transferMoney_footprint env _ _ _ _ _ _ _ Hrun) as [Hids Hw].
    pose proof (transferMoney_next env _ _ _ _ _ _ _ Hrun) as Hn.
    split; [exact (identities_unique _ _ Hids Hnd)|].
    split; [exact (ids_fresh_identities _ _ Hids Hn Hfresh)|].
    split.
    { unfold unique_emails in *.
      now rewrite emails_of_identities, Hids, <- emails_of_identities. }
    split; [exact (emails_normalized_identities _ _ Hids Hnorm)|].
    split; [exact (transferMoney_ledger_ok env _ _ _ _ _ _ _ Hled Hrun)|].
    unfold records_ok in *.
    destruct r as [result|e].
    + destruct Hw as [sf [rt [tx [_ [_ [_ [_ [Htx [Hval [-> _]]]]]]]]]].
      apply Forall_app. split; [exact Hrec|].
      constructor; [|constructor].
      apply validate_Transaction_ok in Hval.
      destruct Hval as [_ [_ [Hnan [Hmin Hlen]]]].
      split; [now rewrite Htx|]. split; [assumption|]. split; [assumption|].
      now apply Nat.leb_le.
    + destruct Hw as [-> _]. exact Hrec.
Qed.

(* ================================================================== *)
(** * Witnesses *)

(** Three requests to Alice's and Bob's store: Carol is created and given
    the identifier 12; a second account under Alice's address, in another
    case, is answered 409; a name of one character is answered 500. *)
Lemma createAccount_replies_witness :
  walletController.createAccount (mkEnv 100%float false)
    (mkAccountBody (Some "Carol") (Some " Carol@Example.com ") (Some (dec 2500)))
    (accounts (dec 10000) (dec 5000))
  = (mkReply 201 true (Some "Account created successfully") None
       (Some (mkAccount 12%N "Carol" "carol@example.com" (dec 2500))),
     mkState [ mkUser 10%N "Alice" "alice@example.com" (dec 10000);
               mkUser 11%N "Bob" "bob@example.com" (dec 5000);
               mkUser 12%N "Carol" "carol@example.com" (dec 2500) ] [] 13) /\
  walletController.createAccount (mkEnv 100%float false)
    (mkAccountBody (Some "Alice Again") (Some "ALICE@example.com") None)
    (accounts (dec 10000) (dec 5000))
  = (mkReply 409 false (Some "User with this email already exists") None None,
     accounts (dec 10000) (dec 5000)) /\
  reply_status
    (fst (walletController.createAccount (mkEnv 100%float false)
            (mkAccountBody (Some "C") (Some "carol@example.com") None)
            (accounts (dec 10000) (dec 5000)))) = 500%nat.
Proof.
  split; [|split].
  - destruct (createAccount_replies (mkEnv 100%float false)
                (mkAccountBody (Some "Carol") (Some " Carol@Example.com ")
                   (Some (dec 2500)))
                (accounts (dec 10000) (dec 5000))) as [_ H].
    destruct (H "Carol" " Carol@Example.com " eq_refl eq_refl)
      as [_ [H201 _]]; [discriminate|discriminate|].
    rewrite (H201 eq_refl); [|vm_compute; reflexivity].
    vm_compute. reflexivity.
  - destruct (createAccount_replies (mkEnv 100%float false)
                (mkAccountBody (Some "Alice Again") (Some "ALICE@example.com")
                   None)
                (accounts (dec 10000) (dec 5000))) as [_ H].
    destruct (H "Alice Again" "ALICE@example.com" eq_refl eq_refl)
      as [H409 _]; [discriminate|discriminate|].
    exact (H409 eq_refl).
  - destruct (createAccount_replies (mkEnv 100%float false)
                (mkAccountBody (Some "C") (Some "carol@example.com") None)
                (accounts (dec 10000) (dec 5000))) as [_ H].
    destruct (H "C" "carol@example.com" eq_refl eq_refl)
      as [_ [_ H500]]; [discriminate|discriminate|].
    destruct (H500 eq_refl) as [Hstatus _]; [vm_compute; reflexivity|].
    exact Hstatus.
Defined.

(** The ledger of [two_transfers] is consistent. *)
Lemma two_transfers_ledger_ok {num : Type} (a b p q : num) :
  ledger_ok (two_transfers a b p q).
Proof.
  unfold ledger_ok, two_transfers. simpl.
  repeat constructor; discriminate.
Qed.

(** After the two transfers Alice's history with the limit 1 is the
    second transfer. *)
Lemma history_of_a_consistent_ledger_witness :
  ledger_ok (two_transfers (dec 8000) (dec 7000) (dec 3000) (dec 1000)) /\
  exists h,
    walletService.getTransactionHistory alice (Some 1%N)
      (two_transfers (dec 8000) (dec 7000) (dec 3000) (dec 1000))
    = (Return h, two_transfers (dec 8000) (dec 7000) (dec 3000) (dec 1000)) /\
    map entry_id h = [13%N] /\ List.length h = 1%nat.
Proof.
  split; [apply two_transfers_ledger_ok|].
  destruct (history_of_a_consistent_ledger alice 10%N (Some 1%N)
              (two_transfers (dec 8000) (dec 7000) (dec 3000) (dec 1000))
              (two_transfers_ledger_ok _ _ _ _) eq_refl)
    as [h [Hrun [Hids [Hlen _]]]].
  exists h. split; [exact Hrun|]. split; [exact Hids|exact Hlen].
Defined.

(** An identifier that no account has: the history is empty, with status
    200, and the balance is not found, with status 404. *)
Lemma getTransactionHistory_replies_witness :
  walletController.getTransactionHistory "00000000000000000000000c" None
    (two_transfers (dec 8000) (dec 7000) (dec 3000) (dec 1000))
  = (mkReply 200 true None None (Some []),
     two_transfers (dec 8000) (dec 7000) (dec 3000) (dec 1000)) /\
  walletController.getBalance "00000000000000000000000c"
    (two_transfers (dec 8000) (dec 7000) (dec 3000) (dec 1000))
  = (mkReply 404 false (Some "User not found") None None,
     two_transfers (dec 8000) (dec 7000) (dec 3000) (dec 1000)).
Proof.
  split; [|reflexivity].
  pose proof (getTransactionHistory_replies "00000000000000000000000c" None
                (two_transfers (dec 8000) (dec 7000) (dec 3000) (dec 1000))
                (two_transfers_ledger_ok _ _ _ _)) as H.
  cbv zeta in H.
  change (castObjectId "00000000000000000000000c") with (Some 12%N) in H.
  cbv beta iota in H.
  destruct H as [h [Hrun [_ Hnone]]].
  rewrite (Hnone eq_refl) in Hrun. exact Hrun.
Defined.

(** A third transfer, of 5 from Bob to Alice, keeps the ledger
    consistent. *)
Lemma operations_keep_the_ledger_consistent_witness :
  ledger_ok (two_transfers (dec 8000) (dec 7000) (dec 3000) (dec 1000)) /\
  ledger_ok
    (snd (walletService.transferMoney (mkEnv 100%float false) bob alice
            (dec 500) "third"
            (two_transfers (dec 8000) (dec 7000) (dec 3000) (dec 1000)))).
Proof.
  split; [apply two_transfers_ledger_ok|].
  destruct (operations_keep_the_ledger_consistent (mkEnv 100%float false)
              (two_transfers (dec 8000) (dec 7000) (dec 3000) (dec 1000))
              (two_transfers_ledger_ok _ _ _ _)) as [_ [_ Htransfer]].
  eapply Htransfer. apply surjective_pairing.
Defined.

Lemma accounts_unique_emails {num : Type} (a b : num) :
  unique_emails (accounts a b).
Proof.
  unfold unique_emails, accounts. simpl.
  constructor; [simpl; intros [H|[]]; discriminate|].
  constructor; [intros []|constructor].
Qed.

(** Alice's and Bob's addresses differ, and still do once Carol is
    created. *)
Lemma operations_keep_addresses_unique_witness :
  unique_emails (accounts (dec 10000) (dec 5000)) /\
  unique_emails
    (snd (walletService.createAccount (mkEnv 100%float false) "Carol"
            "carol@example.com" None (accounts (dec 10000) (dec 5000)))).
Proof.
  split; [apply accounts_unique_emails|].
  destruct (operations_keep_addresses_unique (mkEnv 100%float false)
              (accounts (dec 10000) (dec 5000))
              (accounts_unique_emails _ _)) as [Hcreate _].
  eapply Hcreate. apply surjective_pairing.
Defined.

(** With transactions, a transfer with a description of 501 characters
    throws, and Alice and Bob hold what they held. *)
Lemma transaction_is_all_or_nothing_witness :
  exists (e : Error) (s' : State float),
    walletService.transferMoney (mkEnv 100%float true) alice bob (dec 3000)
      (String.concat "" (repeat "x" 501)) (accounts (dec 10000) (dec 5000))
    = (Throw e, s') /\
    Users s' = Users (accounts (dec 10000) (dec 5000)) /\
    Transactions s' = Transactions (accounts (dec 10000) (dec 5000)).
Proof.
  destruct (walletService.transferMoney (mkEnv 100%float true) alice bob
              (dec 3000) (String.concat "" (repeat "x" 501))
              (accounts (dec 10000) (dec 5000)))
    as [[result|e] s'] eqn:Hrun; [vm_compute in Hrun; discriminate|].
  exists e, s'. split; [reflexivity|].
  exact (transaction_is_all_or_nothing (mkEnv 100%float true) alice bob
           (dec 3000) (String.concat "" (repeat "x" 501))
           (accounts (dec 10000) (dec 5000)) s' e eq_refl Hrun).
Defined.



(** Carol, created with the configured initial balance of 100, is read
    back under her identifier, spelled in upper case. *)
Lemma created_account_is_read_back_witness :
  exists (acct : Account float) (s' : State float),
    walletService.createAccount (mkEnv 100%float false) "Carol"
      "carol@example.com" None (accounts (dec 10000) (dec 5000))
    = (Return acct, s') /\
    walletService.getBalance "00000000000000000000000C" s' = (Return acct, s') /\
    account_balance acct = dec 10000.
Proof.
  destruct (walletService.createAccount (mkEnv 100%float false) "Carol"
              "carol@example.com" None (accounts (dec 10000) (dec 5000)))
    as [[acct|e] s'] eqn:Hrun; [|vm_compute in Hrun; discriminate].
  exists acct, s'. split; [reflexivity|].
  assert (Hacct : acct = mkAccount 12%N "Carol" "carol@example.com" (dec 10000)).
  { vm_compute in Hrun. now injection Hrun as <- _. }
  destruct (created_account_is_read_back (mkEnv 100%float false) "Carol"
              "carol@example.com" None (accounts (dec 10000) (dec 5000)) s'
              acct "00000000000000000000000C") as [Hread _].
  - simpl. intros [H|[H|[]]]; discriminate.
  - exact Hrun.
  - rewrite Hacct. reflexivity.
  - split; [exact Hread|]. rewrite Hacct. reflexivity.
Defined.


(** A transfer of 9000 out of Alice's 80 fails and leaves the ledger with
    its two successes. *)
Lemma ledger_holds_only_successes_witness :
  records_ok (two_transfers (dec 8000) (dec 7000) (dec 3000) (dec 1000)) /\
  records_ok
    (snd (walletService.transferMoney (mkEnv 100%float false) alice bob
            (dec 900000) "too much"
            (two_transfers (dec 8000) (dec 7000) (dec 3000) (dec 1000)))) /\
  List.length
    (Transactions
       (snd (walletService.transferMoney (mkEnv 100%float false) alice bob
               (dec 900000) "too much"
               (two_transfers (dec 8000) (dec 7000) (dec 3000) (dec 1000)))))
  = 2%nat.
Proof.
  assert (Hok : records_ok
                  (two_transfers (dec 8000) (dec 7000) (dec 3000) (dec 1000))).
  { unfold records_ok, two_transfers. simpl.
    repeat constructor; simpl; lia. }
  split; [exact Hok|].
  destruct (ledger_holds_only_successes (mkEnv 100%float false)
              (two_transfers (dec 8000) (dec 7000) (dec 3000) (dec 1000)) Hok)
    as [_ [_ Htransfer]].
  destruct (walletService.transferMoney (mkEnv 100%float false) alice bob
              (dec 900000) "too much"
              (two_transfers (dec 8000) (dec 7000) (dec 3000) (dec 1000)))
    as [[result|e] s'] eqn:Hrun; [vm_compute in Hrun; discriminate|].
  destruct (Htransfer _ _ _ _ _ _ Hrun) as [Hrec Hsame].
  split; [exact Hrec|]. cbn [snd]. now rewrite Hsame.
Defined.

(** Alice's identifier in lower and in upper case, on binary64: 30 are
    transferred, a transaction is recorded, and Alice holds 100 as before. *)
Lemma self_transfer_under_two_spellings_witness :
  exists (result : TransferResult float) (s' : State float),
    walletService.transferMoney (mkEnv 100%float true) alice ALICE (dec 3000)
      "" (accounts (dec 10000) (dec 5000)) = (Return result, s') /\
    stored_balance 10%N s' = Some (dec 10000) /\
    List.length (Transactions s') = 1%nat.
Proof.
  destruct (self_transfer_under_two_spellings float _ (mkEnv 100%float true)
              alice ALICE 10%N (dec 3000) ""
              (accounts (dec 10000) (dec 5000))
              (mkUser 10%N "Alice" "alice@example.com" (dec 10000)))
    as [result [s' [Hrun [Hb [_ [_ [Htx _]]]]]]].
  - discriminate.
  - reflexivity.
  - reflexivity.
  - reflexivity.
  - vm_compute. reflexivity.
  - vm_compute. reflexivity.
  - vm_compute. reflexivity.
  - vm_compute. reflexivity.
  - vm_compute. reflexivity.
  - vm_compute. reflexivity.
  - vm_compute. reflexivity.
  - simpl. lia.
  - exists result, s'. split; [exact Hrun|].
    split; [rewrite Hb; vm_compute; reflexivity|].
    rewrite Htx. reflexivity.
Defined.

(** After 30 went from Alice to Bob, the balances read are those of the
    result: 70 and 80. *)
Lemma transfer_result_reports_the_balances_witness :
  exists (result : TransferResult float) (s' : State float)
         (sender recipient : Account float),
    walletService.transferMoney (mkEnv 100%float true) alice bob (dec 3000) ""
      (accounts (dec 10000) (dec 5000)) = (Return result, s') /\
    walletService.getBalance alice s' = (Return sender, s') /\
    walletService.getBalance bob s' = (Return recipient, s') /\
    account_balance sender = party_balance (result_from result) /\
    account_balance recipient = party_balance (result_to result) /\
    party_balance (result_from result) = dec 7000 /\
    party_balance (result_to result) = dec 8000.
Proof.
  destruct (walletService.transferMoney (mkEnv 100%float true) alice bob
              (dec 3000) "" (accounts (dec 10000) (dec 5000)))
    as [[result|e] s'] eqn:Hrun; [|vm_compute in Hrun; discriminate].
  destruct (transfer_result_reports_the_balances (mkEnv 100%float true)
              alice bob (dec 3000) "" (accounts (dec 10000) (dec 5000)) s'
              result Hrun)
    as [sender [recipient [Hs [Hr [_ [_ [Hbs [_ [_ Hbr]]]]]]]]].
  exists result, s', sender, recipient.
  split; [reflexivity|]. split; [exact Hs|]. split; [exact Hr|].
  split; [exact Hbs|]. split; [exact Hbr|].
  vm_compute in Hrun. injection Hrun as <- _. split; reflexivity.
Defined.

(** Without transactions, 30 from Alice to Bob with a description of 501
    characters is answered 500, and the accounts are those after the debit
    and the credit. *)
Lemma internal_error_means_an_unrecorded_transfer_witness :
  response_status
    (fst (walletController.transferMoney (mkEnv 100%float false)
            (mkTransferBody (Some alice) (Some bob) (Some (dec 3000))
               (Some long_description))
            (accounts (dec 10000) (dec 5000)))) = 500%nat /\
  exists (u1 u2 : User float) (sa sb : State float),
    updateBalance alice (PrimFloat.opp (round2 (dec 3000)))
      (accounts (dec 10000) (dec 5000))
    = (Return u1, sa) /\
    updateBalance bob (round2 (dec 3000)) sa = (Return u2, sb) /\
    Users (snd (walletController.transferMoney (mkEnv 100%float false)
                  (mkTransferBody (Some alice) (Some bob) (Some (dec 3000))
                     (Some long_description))
                  (accounts (dec 10000) (dec 5000)))) = Users sb.
Proof.
  assert (H500 : response_status
            (fst (walletController.transferMoney (mkEnv 100%float false)
                    (mkTransferBody (Some alice) (Some bob) (Some (dec 3000))
                       (Some long_description))
                    (accounts (dec 10000) (dec 5000)))) = 500%nat)
    by (vm_compute; reflexivity).
  split; [exact H500|].
  destruct (internal_error_means_an_unrecorded_transfer
              (mkEnv 100%float false)
              (mkTransferBody (Some alice) (Some bob) (Some (dec 3000))
                 (Some long_description))
              (accounts (dec 10000) (dec 5000)))
    as [from [to [requested [t [u1 [u2 [sa [sb
         [Hf [Ht [Ha [_ [_ [Hd [Hc [_ Hus]]]]]]]]]]]]]]]].
  - intros requested H. injection H as <-.
    repeat split; vm_compute; reflexivity.
  - exact H500.
  - injection Hf as <-. injection Ht as <-. injection Ha as <-.
    exists u1, u2, sa, sb. split; [exact Hd|]. split; [exact Hc|exact Hus].
Defined.

(** The state after the three requests, on binary64, is reachable, so it is
    sound; its ledger holds one transaction. *)
Lemma reachable_states_are_sound_witness :
  reachable (mkEnv 100%float false)
    (three_requests (mkEnv 100%float false) (dec 10000) (dec 3000)) /\
  unique_ids (three_requests (mkEnv 100%float false) (dec 10000) (dec 3000)) /\
  unique_emails
    (three_requests (mkEnv 100%float false) (dec 10000) (dec 3000)) /\
  ledger_ok (three_requests (mkEnv 100%float false) (dec 10000) (dec 3000)) /\
  List.length
    (Transactions
       (three_requests (mkEnv 100%float false) (dec 10000) (dec 3000)))
  = 1%nat.
Proof.
  assert (Hreach : reachable (mkEnv 100%float false)
                     (three_requests (mkEnv 100%float false) (dec 10000)
                        (dec 3000))).
  { unfold three_requests.
    eapply reachable_transferMoney; [|apply surjective_pairing].
    eapply (reachable_createAccount _ _ _ "Bob" "bob@example.com" None);
      [|apply surjective_pairing].
    eapply (reachable_createAccount _ _ _ "Alice" "alice@example.com"
              (Some (dec 10000))); [|apply surjective_pairing].
    apply reachable_empty. }
  split; [exact Hreach|].
  destruct (reachable_states_are_sound float _ (mkEnv 100%float false)
              (three_requests (mkEnv 100%float false) (dec 10000) (dec 3000))
              Hreach)
    as [Hnd [_ [Hem [_ [Hled _]]]]].
  split; [exact Hnd|]. split; [exact Hem|].
  split; [exact Hled|]. vm_compute. reflexivity.
Defined.
